(** * getmarks_pyqs: a shallow embedding of [scripts/getmarks_pyqs.py]

    The script walks a four-level catalog (exam, subject, chapter,
    question), normalises every question, stores the images it refers to
    and writes one JSON-lines file per chapter, database rows when a
    database is configured, and a final master index.

    The embedding keeps the shape of the Python code:
    - JSON payloads are values of [json]; dictionaries are association
      lists in insertion order, looked up by key;
    - a Python exception is a value of [PyErr]; code that may raise lives
      in the monad [M], a state monad with errors (the state survives a
      raise, as the side effects of a Python program do);
    - the network, the image storage and the file system are an [Env] of
      oracles that may answer differently as the run proceeds (they see
      the trace so far): creating the directory of a chapter's images,
      opening a chapter's output file and writing a line to it may each
      fail; the library functions the script calls on strings (SHA-1,
      [str.upper], URL parsing, printing of values) are part of it;
    - paths are joined as [pathlib] joins them (empty and [.] components
      are dropped, an absolute right operand replaces the left one);
      [str.lower], which the script applies to file extensions, is spelt
      out on ASCII letters;
    - closing a file, writing the master index and the database statements
      are taken to succeed;
    - every observable effect is appended to the [trace] of the state. *)

From Stdlib Require Import ZArith List String Ascii Bool Lia Floats.
From Stdlib Require Import DecimalString Sorted.
Import ListNotations.
Local Open Scope string_scope.
Local Open Scope Z_scope.

(** ** Python values decoded from JSON *)

#[warnings="-register-all"]
Inductive json : Type :=
| JNull
| JBool (b : bool)
| JInt (z : Z)
| JFloat (f : float)
| JStr (s : string)
| JList (l : list json)
| JDict (d : list (string * json)).

(** Python exceptions.  [SystemExit] derives from [BaseException] only, so
    an [except Exception] handler lets it through. *)
Inductive PyErr : Type :=
| AttributeError
| TypeError
| KeyError
| IndexError
| ValueError
| RequestException
| HTTPError
| OSError
| UnicodeEncodeError
| S3UploadFailedError
| SystemExit (msg : string).

Definition is_Exception (e : PyErr) : bool :=
  match e with
  | SystemExit _ => false
  | _ => true
  end.

Inductive Exc (A : Type) : Type :=
| Ok (a : A)
| Raise (e : PyErr).
Arguments Ok {A} a.
Arguments Raise {A} e.

(** [bool(v)]: the truth value Python gives a decoded JSON value. *)
Definition truthy (v : json) : bool :=
  match v with
  | JNull => false
  | JBool b => b
  | JInt z => negb (z =? 0)
  | JFloat f => negb (PrimFloat.eqb f 0%float)
  | JStr s => negb (String.eqb s "")
  | JList l => match l with [] => false | _ => true end
  | JDict d => match d with [] => false | _ => true end
  end.

(** [a or b] *)
Definition py_or (a b : json) : json := if truthy a then a else b.

Fixpoint assoc (k : string) (d : list (string * json)) : option json :=
  match d with
  | [] => None
  | (k', v) :: d' => if String.eqb k k' then Some v else assoc k d'
  end.

(** [v.get(k, dflt)]: only a dict has a [get] method. *)
Definition py_get (v : json) (k : string) (dflt : json) : Exc json :=
  match v with
  | JDict d => Ok (match assoc k d with Some x => x | None => dflt end)
  | _ => Raise AttributeError
  end.

Fixpoint chars (s : string) : list json :=
  match s with
  | EmptyString => []
  | String c s' => JStr (String c EmptyString) :: chars s'
  end.

(** The sequence a [for] loop (or [enumerate]) runs over: the elements of a
    list, the characters of a string, the keys of a dict; anything else is
    not iterable. *)
Definition py_iter (v : json) : Exc (list json) :=
  match v with
  | JList l => Ok l
  | JStr s => Ok (chars s)
  | JDict d => Ok (map (fun kv => JStr (fst kv)) d)
  | _ => Raise TypeError
  end.

(** [v[0]] *)
Definition py_item0 (v : json) : Exc json :=
  match v with
  | JList (x :: _) => Ok x
  | JList [] => Raise IndexError
  | JStr (String c _) => Ok (JStr (String c EmptyString))
  | JStr EmptyString => Raise IndexError
  | JDict _ => Raise KeyError
  | _ => Raise TypeError
  end.

(** [v == s] for a string literal [s] *)
Definition py_eq_str (v : json) (s : string) : bool :=
  match v with
  | JStr s' => String.eqb s' s
  | _ => false
  end.

(** ** Strings *)

Definition startswith (s pre : string) : bool := String.prefix pre s.

(** [needle in hay] *)
Fixpoint str_contains (needle hay : string) : bool :=
  String.prefix needle hay ||
  match hay with
  | EmptyString => false
  | String _ hay' => str_contains needle hay'
  end.

Definition lower_ascii (c : ascii) : ascii :=
  let n := nat_of_ascii c in
  if ((65 <=? n) && (n <=? 90))%nat then ascii_of_nat (n + 32) else c.

Definition upper_ascii (c : ascii) : ascii :=
  let n := nat_of_ascii c in
  if ((97 <=? n) && (n <=? 122))%nat then ascii_of_nat (n - 32) else c.

Fixpoint str_map (f : ascii -> ascii) (s : string) : string :=
  match s with
  | EmptyString => EmptyString
  | String c s' => String (f c) (str_map f s')
  end.

(** [s.lower()] on ASCII letters: what [get_file_extension] applies to the
    extension of a URL path. *)
Definition lower (s : string) : string := str_map lower_ascii s.

(** An upper-casing of ASCII letters, the stand-in for [str.upper] in the
    example worlds ([str.upper] itself is part of the world, see [Env]). *)
Definition ascii_upper (s : string) : string := str_map upper_ascii s.

(** [s.rfind(c)], [-1] when [c] does not occur *)
Fixpoint rfind_from (c : ascii) (s : string) (i : Z) (found : Z) : Z :=
  match s with
  | EmptyString => found
  | String c' s' => rfind_from c s' (i + 1) (if Ascii.eqb c' c then i else found)
  end.

Definition rfind (c : ascii) (s : string) : Z := rfind_from c s 0 (-1).

(** [s[i:]] and [s[:i]] for [0 <= i] *)
Definition str_from (i : Z) (s : string) : string :=
  String.substring (Z.to_nat i) (String.length s - Z.to_nat i) s.
Definition str_upto (i : Z) (s : string) : string :=
  String.substring 0 (Z.to_nat i) s.

(** [str(n)] for a natural number *)
Definition str_nat (n : nat) : string := NilEmpty.string_of_uint (Nat.to_uint n).

Fixpoint zeros (n : nat) : string :=
  match n with
  | O => ""
  | S n' => String "0" (zeros n')
  end.

(** [f"{n:04d}"] *)
Definition pad04 (n : nat) : string :=
  let s := str_nat n in zeros (4 - String.length s) ++ s.

(** The loop of [genericpath._splitext] that skips the leading dots of the
    file name: [n] iterations are left before [filenameIndex] reaches
    [dotIndex]; [true] when a character other than a dot is met. *)
Fixpoint splitext_scan (p : string) (filenameIndex : nat) (n : nat) : bool :=
  match n with
  | O => false
  | S n' =>
      match String.get filenameIndex p with
      | Some c => if Ascii.eqb c "." then splitext_scan p (S filenameIndex) n' else true
      | None => true
      end
  end.

(** [os.path.splitext(p)[1]] (posix: separator [/], no alternative
    separator). *)
Definition splitext_ext (p : string) : string :=
  let sepIndex := rfind "/" p in
  let dotIndex := rfind "." p in
  if (dotIndex >? sepIndex) &&
     splitext_scan p (Z.to_nat (sepIndex + 1)) (Z.to_nat (dotIndex - (sepIndex + 1)))
  then str_from dotIndex p
  else "".

(** ** Paths ([pathlib]) as strings

    A path is kept as the string [str(path)]: its root followed by its
    components joined by [/]. *)

(** [s.split(sep)] *)
Fixpoint split_on (sep : ascii) (s : string) : list string :=
  match s with
  | EmptyString => [EmptyString]
  | String c s' =>
      if Ascii.eqb c sep then EmptyString :: split_on sep s'
      else match split_on sep s' with
           | [] => [String c EmptyString]
           | w :: ws => String c w :: ws
           end
  end.

(** The components of a path given as a string: empty components and
    [.] are dropped. *)
Definition path_parts (s : string) : list string :=
  filter (fun w => negb (String.eqb w "") && negb (String.eqb w ".")) (split_on "/" s).

(** The root: [/], or [//] when the string starts with exactly two
    slashes; empty for a relative path. *)
Definition path_root (s : string) : string :=
  if startswith s "//" && negb (startswith s "///") then "//"
  else if startswith s "/" then "/"
  else "".

Fixpoint join_parts (parts : list string) : string :=
  match parts with
  | [] => ""
  | [w] => w
  | w :: ws => w ++ "/" ++ join_parts ws
  end.

(** [str(path)]; the empty path prints as a dot. *)
Definition path_str (root : string) (parts : list string) : string :=
  match root, parts with
  | EmptyString, [] => "."
  | _, _ => root ++ join_parts parts
  end.

(** [a / b]: an absolute right operand replaces the left one; otherwise
    its components are appended. *)
Definition path_div (a b : string) : string :=
  if String.eqb (path_root b) "" then path_str (path_root a) (path_parts a ++ path_parts b)%list
  else path_str (path_root b) (path_parts b).

(** [p.name] *)
Definition path_name (p : string) : string := str_from (rfind "/" p + 1) p.

(** [p.stem]: the name without its last suffix; a leading or a trailing dot
    starts no suffix. *)
Definition path_stem (p : string) : string :=
  let name := path_name p in
  let i := rfind "." name in
  if (0 <? i) && (i <? Z.of_nat (String.length name) - 1) then str_upto i name else name.

(** [p.relative_to(root)] *)
Definition relative_to (root p : string) : Exc string :=
  if startswith p (root ++ "/")
  then Ok (str_from (Z.of_nat (String.length root) + 1) p)
  else Raise ValueError.

Definition OUTPUT_DIR : string := "getmarks_data".
Definition IMAGES_DIR : string := path_div OUTPUT_DIR "images".
Definition JSON_DIR : string := path_div OUTPUT_DIR "json".

(** ** Configuration: the module-level constants read from the environment *)

Record Config : Type := {
  IMAGE_BACKEND : string;              (* already lower-cased *)
  OUTPUT_COMPRESSION : string;         (* already lower-cased *)
  DATABASE_URL : option string;
  EXAM_ID_FILTER : option string;
  SUBJECT_ID_FILTER : option string;
  CHAPTER_ID_FILTER : option string;
  MAX_CHAPTERS : Z;
  MAX_QUESTIONS : Z;
  S3_BUCKET : option string;           (* os.getenv("S3_BUCKET") *)
  S3_PREFIX : option string;           (* os.getenv("S3_PREFIX"), default "getmarks" *)
  S3_REGION : option string;           (* os.getenv("S3_REGION") *)
  has_boto3 : bool;                    (* [import boto3] succeeds *)
  has_psycopg : bool                   (* [import psycopg] succeeds *)
}.

(** Truth value of an optional string ([None] and [""] are false). *)
Definition str_set (o : option string) : bool :=
  match o with
  | Some s => negb (String.eqb s "")
  | None => false
  end.

(** How an f-string prints an optional string. *)
Definition fmt_opt (o : option string) : string :=
  match o with
  | Some s => s
  | None => "None"
  end.

(** ** Records built by the script *)

(** The ["question"] and ["solution"] sub-dicts: a text and, when an image
    was stored, its reference. *)
Record TextImage : Type := {
  text : json;
  image : option string
}.

Record OptData : Type := {
  opt_text : json;
  is_correct : json;
  opt_image : option string
}.

(** The dict [processed] of [process_question]. *)
Record Processed : Type := {
  index : nat;
  type_ : json;
  difficulty : json;
  pyq_info : json;
  question : TextImage;
  options : list OptData;
  correct_answer : json;
  solution : TextImage
}.

(** The dicts of [get_jee_exams], [get_subjects] and [get_chapters]. *)
Record Exam : Type := { exam_id_of : json; exam_name : json; exam_icon : json }.
Record Subject : Type := { subject_id_of : json; subject_name : json; subject_icon : json }.
Record Chapter : Type := {
  chapter_id_of : json;
  chapter_name : json;
  icon_name : json;
  chapter_total_questions : json
}.

(** [chapter_data], one entry of the master index. *)
Record ChapterData : Type := {
  cd_exam : json;
  cd_exam_id : json;
  cd_subject : json;
  cd_subject_id : json;
  cd_chapter : json;
  cd_chapter_id : json;
  cd_total_questions : Z;
  cd_file : string
}.

Record QuestionRow : Type := {
  row_exam_id : json;
  row_subject_id : json;
  row_chapter_id : json;
  question_index : nat;
  payload : Processed
}.

Record ChapterRow : Type := {
  crow_exam_id : json;
  crow_subject_id : json;
  crow_chapter_id : json;
  crow_exam_name : json;
  crow_subject_name : json;
  crow_chapter_name : json;
  question_count : Z
}.

Record MasterIndex : Type := {
  mi_total_exams : Z;
  mi_total_subjects : Z;
  mi_total_chapters : Z;
  mi_total_questions : Z;
  chapters : list ChapterData
}.

(** ** The outside world *)

Record Response : Type := {
  status_code : Z;
  content_type : option string;        (* response.headers.get("Content-Type") *)
  content : string
}.

Record ApiResponse : Type := {
  api_status_code : Z;
  api_json : option json               (* [None]: the body is not JSON *)
}.

(** Observable effects, in the order they happen. *)
Inductive Event : Type :=
| EvDownload (url save_path : string)           (* ImageStore.download is entered *)
| EvImageGet (url : string)                     (* requests.get(url, stream=True) *)
| EvImageFile (path : string) (body : string)   (* local image file written *)
| EvS3Upload (bucket : option string) (key : string)
| EvApiGet (url : string)                       (* requests.get of make_request *)
| EvJsonlOpen (path : string)
| EvJsonlLine (path : string) (p : Processed)
| EvJsonlClose (path : string)
| EvDbConnect
| EvDbInsertQuestions (rows : list QuestionRow)
| EvDbUpsertChapter (row : ChapterRow)
| EvDbClose
| EvIndex (path : string) (mi : MasterIndex).

(** How an operation on the file system fails. *)
Inductive IoFailure : Type :=
| FailOSError       (* OSError and its subclasses: FileNotFoundError, ... *)
| FailValueError.   (* ValueError: an embedded null byte, an encoding error *)

Definition io_error (f : IoFailure) : PyErr :=
  match f with
  | FailOSError => OSError
  | FailValueError => ValueError
  end.

(** The oracles may depend on everything that happened before. *)
Record Env : Type := {
  (* image GET; [None]: the transport raised *)
  requests_get : list Event -> string -> option Response;
  (* catalog GET; [None]: the transport raised *)
  api_get : list Event -> string -> option ApiResponse;
  (* creating the directory, opening and writing the local file succeed *)
  image_write_ok : list Event -> string -> bool;
  (* upload_fileobj succeeds *)
  s3_upload_ok : list Event -> string -> bool;
  (* hashlib.sha1(text.encode()).hexdigest(); [None]: [encode] raises
     UnicodeEncodeError (a lone surrogate) *)
  sha1_hex : string -> option string;
  (* str.upper() *)
  str_upper : string -> string;
  (* img_dir.mkdir(parents=True, exist_ok=True); [None]: it succeeds *)
  mkdir : list Event -> string -> option IoFailure;
  (* opening a JSON-lines file for writing; [None]: it succeeds *)
  jsonl_open : list Event -> string -> option IoFailure;
  (* writer.write(json.dumps(processed) + "\n"); [None]: it succeeds *)
  jsonl_write : list Event -> string -> Processed -> option IoFailure;
  (* urlparse(url).path; [None]: urlparse raises ValueError *)
  urlparse_path : string -> option string;
  (* str(v), as str.format and f-strings print a decoded value that is not
     a string *)
  py_str : json -> string
}.

Record ProgressTracker : Type := {
  total_exams : Z;
  total_subjects : Z;
  total_chapters : Z;
  total_questions : Z;
  processed_chapters : Z
}.

Record State : Type := {
  progress : ProgressTracker;
  trace : list Event
}.

(** [progress = ProgressTracker()] and nothing has happened yet. *)
Definition initial_state : State :=
  {| progress := {| total_exams := 0; total_subjects := 0; total_chapters := 0;
                    total_questions := 0; processed_chapters := 0 |};
     trace := [] |}.

(** ** The monad of effectful Python code *)

Definition M (A : Type) : Type := State -> Exc A * State.

Definition ret {A} (a : A) : M A := fun st => (Ok a, st).

Definition bind {A B} (m : M A) (f : A -> M B) : M B :=
  fun st =>
    match m st with
    | (Ok a, st') => f a st'
    | (Raise e, st') => (Raise e, st')
    end.

Definition raise {A} (e : PyErr) : M A := fun st => (Raise e, st).

Definition lift {A} (r : Exc A) : M A := fun st => (r, st).

Definition emit (e : Event) : M unit :=
  fun st => (Ok tt, {| progress := progress st; trace := trace st ++ [e] |}).

Definition get_state : M State := fun st => (Ok st, st).

Definition set_progress (p : ProgressTracker) : M unit :=
  fun st => (Ok tt, {| progress := p; trace := trace st |}).

(** An operation on the file system that the world may refuse: it raises,
    or it succeeds and the run goes on. *)
Definition io (attempt : list Event -> option IoFailure) : M unit :=
  fun st =>
    match attempt (trace st) with
    | None => (Ok tt, st)
    | Some f => (Raise (io_error f), st)
    end.

(** [try: body except Exception as e: handler(e)] *)
Definition try_except {A} (body : M A) (handler : PyErr -> M A) : M A :=
  fun st =>
    match body st with
    | (Ok a, st') => (Ok a, st')
    | (Raise e, st') => if is_Exception e then handler e st' else (Raise e, st')
    end.

Declare Scope py_scope.
Delimit Scope py_scope with py.
Notation "x <- m ;; k" := (bind m (fun x => k))
  (at level 100, m at next level, right associativity) : py_scope.
Notation "m ;;; k" := (bind m (fun _ => k))
  (at level 100, right associativity) : py_scope.
Local Open Scope py_scope.

(** ** The script *)

Section Script.

Variable cfg : Config.
Variable env : Env.

(** How [str.format] and f-strings print a decoded value. *)
Definition fmt (v : json) : string :=
  match v with
  | JStr s => s
  | _ => py_str env v
  end.

(** [sha1_hash(text)]: [text.encode()] needs a string. *)
Definition sha1_hash (text : json) : Exc string :=
  match text with
  | JStr s => match sha1_hex env s with
              | Some h => Ok h
              | None => Raise UnicodeEncodeError
              end
  | _ => Raise AttributeError
  end.

Definition get_file_extension (url : string) (content_type : option string) : Exc string :=
  match urlparse_path env url with
  | None => Raise ValueError
  | Some path =>
      let ext := splitext_ext path in
      if negb (String.eqb ext "") then Ok (lower ext)
      else if str_set content_type then
        let ct := fmt_opt content_type in
        if str_contains "image/png" ct then Ok ".png"
        else if str_contains "image/jpeg" ct || str_contains "image/jpg" ct then Ok ".jpg"
        else if str_contains "image/webp" ct then Ok ".webp"
        else if str_contains "image/svg" ct then Ok ".svg"
        else Ok ".jpg"
      else Ok ".jpg"
  end.

(** *** ImageStore *)

Record ImageStore : Type := {
  backend : string;
  s3_client : bool;                    (* [false]: None *)
  s3_bucket : option string;
  s3_prefix : option string;
  s3_region : option string
}.

(** [ImageStore.__init__] *)
Definition ImageStore_init (backend : string) : Exc ImageStore :=
  if String.eqb backend "s3" then
    if negb (has_boto3 cfg) then
      Raise (SystemExit "boto3 is required for IMAGE_BACKEND=s3")
    else if negb (str_set (S3_BUCKET cfg)) then
      Raise (SystemExit "S3_BUCKET is required for IMAGE_BACKEND=s3")
    else
      Ok {| backend := backend;
            s3_client := true;
            s3_bucket := S3_BUCKET cfg;
            s3_prefix := Some (match S3_PREFIX cfg with Some p => p | None => "getmarks" end);
            s3_region := S3_REGION cfg |}
  else
    Ok {| backend := backend; s3_client := false;
          s3_bucket := None; s3_prefix := None; s3_region := None |}.

Definition _build_s3_url (self : ImageStore) (key : string) : string :=
  if str_set (s3_region self) then
    "https://" ++ fmt_opt (s3_bucket self) ++ ".s3." ++ fmt_opt (s3_region self)
      ++ ".amazonaws.com/" ++ key
  else "s3://" ++ fmt_opt (s3_bucket self) ++ "/" ++ key.

(** [response.raise_for_status()] *)
Definition raise_for_status (status : Z) : M unit :=
  if (400 <=? status) && (status <? 600) then raise HTTPError else ret tt.

(** [ImageStore.download].  The first event records the call itself. *)
Definition download (self : ImageStore) (url save_path : string) : M (option string) :=
  emit (EvDownload url save_path) ;;;
  if String.eqb url "" || startswith url "/" then ret None
  else
    try_except
      (st <- get_state ;;
       emit (EvImageGet url) ;;;
       match requests_get env (trace st) url with
       | None => raise RequestException
       | Some response =>
           raise_for_status (status_code response) ;;;
           if String.eqb (backend self) "local" then
             st1 <- get_state ;;
             if image_write_ok env (trace st1) save_path then
               emit (EvImageFile save_path (content response)) ;;;
               rel <- lift (relative_to OUTPUT_DIR save_path) ;;
               ret (Some rel)
             else raise OSError
           else if String.eqb (backend self) "s3" then
             ext <- lift (get_file_extension url (content_type response)) ;;
             let key := fmt_opt (s3_prefix self) ++ "/" ++ path_stem save_path ++ ext in
             st1 <- get_state ;;
             if negb (s3_client self) then raise AttributeError
             else if s3_upload_ok env (trace st1) key then
               emit (EvS3Upload (s3_bucket self) key) ;;;
               ret (Some (_build_s3_url self key))
             else raise S3UploadFailedError
           else raise ValueError
       end)
      (fun _ => ret None).

(** *** The catalog *)

Definition URL_dashboard : string :=
  "https://web.getmarks.app/api/v3/dashboard/platform/web".
Definition URL_exam_subjects (exam_id : json) : string :=
  "https://web.getmarks.app/api/v4/cpyqb/exam/" ++ fmt exam_id.
Definition URL_subject_chapters (exam_id subject_id : json) : string :=
  "https://web.getmarks.app/api/v4/cpyqb/exam/" ++ fmt exam_id ++ "/subject/" ++ fmt subject_id.
Definition URL_chapter_questions (exam_id subject_id chapter_id : json) : string :=
  "https://web.getmarks.app/api/v4/cpyqb/exam/" ++ fmt exam_id ++ "/subject/" ++ fmt subject_id
    ++ "/chapter/" ++ fmt chapter_id ++ "/questions".

(** [make_request]; Python's [None] is [JNull]. *)
Definition make_request (url : string) : M json :=
  try_except
    (st <- get_state ;;
     emit (EvApiGet url) ;;;
     match api_get env (trace st) url with
     | None => raise RequestException
     | Some response =>
         raise_for_status (api_status_code response) ;;;
         match api_json response with
         | Some data => ret data
         | None => raise ValueError
         end
     end)
    (fun _ => ret JNull).

(** [next((i for i in items if i.get("componentTitle") == "ChapterwiseExams"), None)] *)
Fixpoint find_component (items : list json) : Exc json :=
  match items with
  | [] => Ok JNull
  | i :: rest =>
      match py_get i "componentTitle" JNull with
      | Raise e => Raise e
      | Ok title => if py_eq_str title "ChapterwiseExams" then Ok i else find_component rest
      end
  end.

(** The loop of [get_jee_exams] over [comp.get("items", [])]. *)
Fixpoint collect_exams (l : list json) (exams : list Exam) : Exc (list Exam) :=
  match l with
  | [] => Ok exams
  | ex :: rest =>
      match py_get ex "examId" JNull, py_get ex "title" (JStr ""), py_get ex "icon" (JDict []) with
      | Ok exam_id, Ok title, Ok icon =>
          if str_set (EXAM_ID_FILTER cfg) && negb (py_eq_str exam_id (fmt_opt (EXAM_ID_FILTER cfg)))
          then collect_exams rest exams
          else if truthy exam_id then
            match title with
            | JStr t =>
                if str_contains "JEE" (str_upper env t) || str_contains "IIT" (str_upper env t)
                then collect_exams rest
                       (exams ++ [{| exam_id_of := exam_id; exam_name := title; exam_icon := icon |}])
                else collect_exams rest exams
            | _ => Raise AttributeError
            end
          else collect_exams rest exams
      | _, _, _ => Raise AttributeError
      end
  end.

Definition set_total_exams (n : Z) : M unit :=
  st <- get_state ;;
  let p := progress st in
  set_progress {| total_exams := n; total_subjects := total_subjects p;
                  total_chapters := total_chapters p; total_questions := total_questions p;
                  processed_chapters := processed_chapters p |}.

Definition get_jee_exams : M (list Exam) :=
  data <- make_request URL_dashboard ;;
  if negb (truthy data) then ret []
  else
    d <- lift (py_get data "data" (JDict [])) ;;
    items <- lift (py_get d "items" (JList [])) ;;
    l <- lift (py_iter items) ;;
    comp <- lift (find_component l) ;;
    if negb (truthy comp) then ret []
    else
      citems <- lift (py_get comp "items" (JList [])) ;;
      cl <- lift (py_iter citems) ;;
      exams <- lift (collect_exams cl []) ;;
      set_total_exams (Z.of_nat (List.length exams)) ;;;
      ret exams.

Fixpoint collect_subjects (l : list json) (subjects : list Subject) : Exc (list Subject) :=
  match l with
  | [] => Ok subjects
  | s :: rest =>
      match py_get s "_id" JNull, py_get s "title" JNull, py_get s "icon" (JStr "") with
      | Ok i, Ok t, Ok ic =>
          collect_subjects rest
            (subjects ++ [{| subject_id_of := i; subject_name := t; subject_icon := ic |}])
      | _, _, _ => Raise AttributeError
      end
  end.

Definition get_subjects (exam_id : json) : M (list Subject) :=
  data <- make_request (URL_exam_subjects exam_id) ;;
  if negb (truthy data) then ret []
  else
    d <- lift (py_get data "data" (JDict [])) ;;
    ss <- lift (py_get d "subjects" (JList [])) ;;
    l <- lift (py_iter (py_or ss (JList []))) ;;
    subjects <- lift (collect_subjects l []) ;;
    ret (filter (fun s => truthy (subject_id_of s) && truthy (subject_name s)) subjects).

Fixpoint collect_chapters (l : list json) (chapters : list Chapter) : Exc (list Chapter) :=
  match l with
  | [] => Ok chapters
  | c :: rest =>
      match py_get c "_id" JNull, py_get c "title" JNull, py_get c "icon" JNull,
            py_get c "allPyqs" (JDict []) with
      | Ok i, Ok t, Ok ic, Ok pyqs =>
          match py_get pyqs "totalQs" (JInt 0) with
          | Ok n =>
              collect_chapters rest
                (chapters ++ [{| chapter_id_of := i; chapter_name := t; icon_name := ic;
                                 chapter_total_questions := n |}])
          | Raise e => Raise e
          end
      | _, _, _, _ => Raise AttributeError
      end
  end.

Definition get_chapters (exam_id subject_id : json) : M (list Chapter) :=
  data <- make_request (URL_subject_chapters exam_id subject_id) ;;
  if negb (truthy data) then ret []
  else
    d <- lift (py_get data "data" (JDict [])) ;;
    ch <- lift (py_get d "chapters" (JDict [])) ;;
    chapters_data <- lift (py_get ch "data" (JList [])) ;;
    l <- lift (py_iter chapters_data) ;;
    chapters <- lift (collect_chapters l []) ;;
    ret (filter (fun c => truthy (chapter_id_of c) && truthy (chapter_name c)) chapters).

(** [get_questions]: whatever the envelope holds under [data.questions],
    or the empty list when that is false. *)
Definition get_questions (exam_id subject_id chapter_id : json) : M json :=
  data <- make_request (URL_chapter_questions exam_id subject_id chapter_id) ;;
  if negb (truthy data) then ret (JList [])
  else
    d <- lift (py_get data "data" (JDict [])) ;;
    qs <- lift (py_get d "questions" (JList [])) ;;
    ret (py_or qs (JList [])).

(** *** process_question *)

(** [dir / part] where [part] comes from the catalog: only a string can be
    joined to a path. *)
Definition path_div_json (dir : string) (part : json) : Exc string :=
  match part with
  | JStr s => Ok (path_div dir s)
  | _ => Raise TypeError
  end.

(** [letters[i] if i < len(letters) else str(i + 1)] *)
Definition letters : list string := ["A"; "B"; "C"; "D"].
Definition choice_label (i : nat) : string :=
  if (i <? List.length letters)%nat then nth i letters "" else str_nat (i + 1).

(** The block repeated for the question, each option and the solution:
    hash the URL, derive the extension from the URL alone, build the file
    name [<tag><idx:04d>_<hash><ext>] under [img_dir], download, and keep
    the reference when it is true. *)
Definition store_image (image_store : ImageStore) (img_dir tag : string) (idx : nat)
    (img_url : json) : M (option string) :=
  img_hash <- lift (sha1_hash img_url) ;;
  match img_url with
  | JStr url =>
      img_ext <- lift (get_file_extension url None) ;;
      let img_path := path_div img_dir (tag ++ pad04 idx ++ "_" ++ img_hash ++ img_ext) in
      image_ref <- download image_store url img_path ;;
      ret (if str_set image_ref then image_ref else None)
  | _ => raise AttributeError
  end.

(** The loop [for i, opt in enumerate(options)]. *)
Fixpoint process_options (image_store : ImageStore) (img_dir : string) (idx : nat) (i : nat)
    (opts : list json) (processed_options : list OptData) (correct_letters : list string)
    : M (list OptData * list string) :=
  match opts with
  | [] => ret (processed_options, correct_letters)
  | opt :: rest =>
      opt_text_v <- lift (py_get opt "text" (JStr "")) ;;
      is_correct_v <- lift (py_get opt "isCorrect" (JBool false)) ;;
      flag <- lift (py_get opt "isCorrect" JNull) ;;
      let correct_letters' :=
        if truthy flag then (correct_letters ++ [choice_label i])%list else correct_letters in
      img <- lift (py_get opt "image" JNull) ;;
      image_ref <- (if truthy img
                    then store_image image_store img_dir ("opt" ++ str_nat (i + 1) ++ "_") idx img
                    else ret None) ;;
      process_options image_store img_dir idx (S i) rest
        (processed_options ++
           [{| opt_text := opt_text_v; is_correct := is_correct_v; opt_image := image_ref |}])
        correct_letters'
  end.

Definition process_question (question : json) (exam_id subject_id chapter_id : json) (idx : nat)
    (image_store : ImageStore) : M Processed :=
  d1 <- lift (path_div_json IMAGES_DIR exam_id) ;;
  d2 <- lift (path_div_json d1 subject_id) ;;
  img_dir <- lift (path_div_json d2 chapter_id) ;;
  io (fun tr => mkdir env tr img_dir) ;;;
  type_v <- lift (py_get question "type" JNull) ;;
  level_v <- lift (py_get question "level" JNull) ;;
  papers <- lift (py_get question "previousYearPapers" JNull) ;;
  paper <- lift (py_item0 (py_or papers (JList [JDict []]))) ;;
  pyq_info_v <- lift (py_get paper "title" (JStr "")) ;;
  q0 <- lift (py_get question "question" JNull) ;;
  let q_data := py_or q0 (JDict []) in
  q_text <- lift (py_get q_data "text" (JStr "")) ;;
  q_img <- lift (py_get q_data "image" JNull) ;;
  q_ref <- (if truthy q_img then store_image image_store img_dir "q_" idx q_img else ret None) ;;
  o0 <- lift (py_get question "options" JNull) ;;
  opts <- lift (py_iter (py_or o0 (JList []))) ;;
  r <- process_options image_store img_dir idx 0 opts [] [] ;;
  let (processed_options, correct_letters) := r in
  type_again <- lift (py_get question "type" JNull) ;;
  correct_value <- lift (py_get question "correctValue" JNull) ;;
  let correct :=
    if py_eq_str type_again "numerical" then correct_value
    else JList (map JStr correct_letters) in
  s0 <- lift (py_get question "solution" JNull) ;;
  let sol_data := py_or s0 (JDict []) in
  sol_text <- lift (py_get sol_data "text" (JStr "")) ;;
  sol_img <- lift (py_get sol_data "image" JNull) ;;
  sol_ref <- (if truthy sol_img then store_image image_store img_dir "sol_" idx sol_img
              else ret None) ;;
  ret {| index := idx;
         type_ := type_v;
         difficulty := level_v;
         pyq_info := pyq_info_v;
         question := {| text := q_text; image := q_ref |};
         options := processed_options;
         correct_answer := correct;
         solution := {| text := sol_text; image := sol_ref |} |}.

(** *** DatabaseWriter

    The connection and the statements are taken to succeed; the writer
    itself is a flag ([false]: [db_writer] is [None]). *)

Definition DatabaseWriter_init : M bool :=
  if negb (has_psycopg cfg) then raise (SystemExit "psycopg is required when DATABASE_URL is set")
  else emit EvDbConnect ;;; ret true.

Definition insert_questions (rows : list QuestionRow) : M unit :=
  emit (EvDbInsertQuestions rows).

Definition upsert_chapter (row : ChapterRow) : M unit :=
  emit (EvDbUpsertChapter row).

(** *** process_chapter *)

Definition gz_suffix : string :=
  if String.eqb (OUTPUT_COMPRESSION cfg) "gzip" then ".gz" else "".

(** [with _open_jsonl_writer(path) as writer: body]: opening the file may
    fail, and then nothing else happens; once it is open, the file is
    closed however the body ends. *)
Definition with_jsonl_writer {A} (path : string) (body : string -> M A) : M A :=
  let file := path ++ gz_suffix in
  io (fun tr => jsonl_open env tr file) ;;;
  emit (EvJsonlOpen file) ;;;
  fun st =>
    match body file st with
    | (r, st') => (r, {| progress := progress st'; trace := trace st' ++ [EvJsonlClose file] |})
    end.

Definition incr_total_questions : M unit :=
  st <- get_state ;;
  let p := progress st in
  set_progress {| total_exams := total_exams p; total_subjects := total_subjects p;
                  total_chapters := total_chapters p;
                  total_questions := total_questions p + 1;
                  processed_chapters := processed_chapters p |}.

Definition incr_processed_chapters : M unit :=
  st <- get_state ;;
  let p := progress st in
  set_progress {| total_exams := total_exams p; total_subjects := total_subjects p;
                  total_chapters := total_chapters p;
                  total_questions := total_questions p;
                  processed_chapters := processed_chapters p + 1 |}.

(** [MAX_QUESTIONS and progress.total_questions >= MAX_QUESTIONS] *)
Definition question_quota_reached (st : State) : bool :=
  negb (MAX_QUESTIONS cfg =? 0) && (total_questions (progress st) >=? MAX_QUESTIONS cfg).

(** [MAX_CHAPTERS and progress.processed_chapters >= MAX_CHAPTERS] *)
Definition chapter_quota_reached (st : State) : bool :=
  negb (MAX_CHAPTERS cfg =? 0) && (processed_chapters (progress st) >=? MAX_CHAPTERS cfg).

(** The loop [for idx, q in enumerate(raw_questions)] with its locals
    [question_count] and [batch_rows]. *)
Fixpoint questions_loop (file : string) (exam_id subject_id chapter_id : json)
    (image_store : ImageStore) (db_writer : bool) (idx : nat) (qs : list json)
    (question_count : Z) (batch_rows : list QuestionRow) : M (Z * list QuestionRow) :=
  match qs with
  | [] => ret (question_count, batch_rows)
  | q :: rest =>
      st <- get_state ;;
      if question_quota_reached st then ret (question_count, batch_rows)
      else
        r <- try_except
               (processed <- process_question q exam_id subject_id chapter_id idx image_store ;;
                io (fun tr => jsonl_write env tr file processed) ;;;
                emit (EvJsonlLine file processed) ;;;
                incr_total_questions ;;;
                if db_writer then
                  let rows := (batch_rows ++
                    [{| row_exam_id := exam_id; row_subject_id := subject_id;
                        row_chapter_id := chapter_id; question_index := idx;
                        payload := processed |}])%list in
                  if (500 <=? List.length rows)%nat then
                    insert_questions rows ;;; ret (question_count + 1, [])
                  else ret (question_count + 1, rows)
                else ret (question_count + 1, batch_rows))
               (fun _ => ret (question_count, batch_rows)) ;;
        questions_loop file exam_id subject_id chapter_id image_store db_writer (S idx) rest
          (fst r) (snd r)
  end.

Definition process_chapter (exam : Exam) (subject : Subject) (chapter : Chapter)
    (image_store : ImageStore) (db_writer : bool) : M (option ChapterData) :=
  let exam_id := exam_id_of exam in
  let subject_id := subject_id_of subject in
  let chapter_id := chapter_id_of chapter in
  if str_set (SUBJECT_ID_FILTER cfg) &&
     negb (py_eq_str subject_id (fmt_opt (SUBJECT_ID_FILTER cfg))) then ret None
  else if str_set (CHAPTER_ID_FILTER cfg) &&
          negb (py_eq_str chapter_id (fmt_opt (CHAPTER_ID_FILTER cfg))) then ret None
  else
    raw_questions <- get_questions exam_id subject_id chapter_id ;;
    if negb (truthy raw_questions) then ret None
    else
      let jsonl_path :=
        path_div JSON_DIR (fmt exam_id ++ "_" ++ fmt subject_id ++ "_" ++ fmt chapter_id
                             ++ ".jsonl") in
      r <- with_jsonl_writer jsonl_path (fun file =>
             qs <- lift (py_iter raw_questions) ;;
             questions_loop file exam_id subject_id chapter_id image_store db_writer 0 qs 0 []) ;;
      let (question_count, batch_rows) := r in
      (match batch_rows with
       | _ :: _ => if db_writer then insert_questions batch_rows else ret tt
       | [] => ret tt
       end) ;;;
      let chapter_data :=
        {| cd_exam := exam_name exam; cd_exam_id := exam_id;
           cd_subject := subject_name subject; cd_subject_id := subject_id;
           cd_chapter := chapter_name chapter; cd_chapter_id := chapter_id;
           cd_total_questions := question_count;
           cd_file := path_name jsonl_path ++ gz_suffix |} in
      (if db_writer then
         upsert_chapter {| crow_exam_id := exam_id; crow_subject_id := subject_id;
                           crow_chapter_id := chapter_id; crow_exam_name := exam_name exam;
                           crow_subject_name := subject_name subject;
                           crow_chapter_name := chapter_name chapter;
                           question_count := question_count |}
       else ret tt) ;;;
      incr_processed_chapters ;;;
      ret (Some chapter_data).

(** *** main *)

Definition add_total_subjects (n : Z) : M unit :=
  st <- get_state ;;
  let p := progress st in
  set_progress {| total_exams := total_exams p; total_subjects := total_subjects p + n;
                  total_chapters := total_chapters p; total_questions := total_questions p;
                  processed_chapters := processed_chapters p |}.

Definition add_total_chapters (n : Z) : M unit :=
  st <- get_state ;;
  let p := progress st in
  set_progress {| total_exams := total_exams p; total_subjects := total_subjects p;
                  total_chapters := total_chapters p + n; total_questions := total_questions p;
                  processed_chapters := processed_chapters p |}.

(** [for chapter in chapters] *)
Fixpoint chapters_loop (exam : Exam) (subject : Subject) (image_store : ImageStore)
    (db_writer : bool) (chs : list Chapter) (all_data : list ChapterData)
    : M (list ChapterData) :=
  match chs with
  | [] => ret all_data
  | chapter :: rest =>
      st <- get_state ;;
      if chapter_quota_reached st then ret all_data
      else
        chapter_data <- process_chapter exam subject chapter image_store db_writer ;;
        chapters_loop exam subject image_store db_writer rest
          (match chapter_data with
           | Some cd => all_data ++ [cd]
           | None => all_data
           end)
  end.

(** [for subject in subjects] *)
Fixpoint subjects_loop (exam : Exam) (image_store : ImageStore) (db_writer : bool)
    (subs : list Subject) (all_data : list ChapterData) : M (list ChapterData) :=
  match subs with
  | [] => ret all_data
  | subject :: rest =>
      chapters0 <- get_chapters (exam_id_of exam) (subject_id_of subject) ;;
      let chapters :=
        if str_set (CHAPTER_ID_FILTER cfg)
        then filter (fun c => py_eq_str (chapter_id_of c) (fmt_opt (CHAPTER_ID_FILTER cfg))) chapters0
        else chapters0 in
      add_total_chapters (Z.of_nat (List.length chapters)) ;;;
      all_data' <- chapters_loop exam subject image_store db_writer chapters all_data ;;
      st <- get_state ;;
      if chapter_quota_reached st then ret all_data'
      else subjects_loop exam image_store db_writer rest all_data'
  end.

(** [for exam in exams] *)
Fixpoint exams_loop (image_store : ImageStore) (db_writer : bool) (exams : list Exam)
    (all_data : list ChapterData) : M (list ChapterData) :=
  match exams with
  | [] => ret all_data
  | exam :: rest =>
      subjects0 <- get_subjects (exam_id_of exam) ;;
      let subjects :=
        if str_set (SUBJECT_ID_FILTER cfg)
        then filter (fun s => py_eq_str (subject_id_of s) (fmt_opt (SUBJECT_ID_FILTER cfg))) subjects0
        else subjects0 in
      add_total_subjects (Z.of_nat (List.length subjects)) ;;;
      all_data' <- subjects_loop exam image_store db_writer subjects all_data ;;
      st <- get_state ;;
      if chapter_quota_reached st then ret all_data'
      else exams_loop image_store db_writer rest all_data'
  end.

Definition index_path : string := path_div OUTPUT_DIR "master_index.json" ++ gz_suffix.

Definition main : M unit :=
  exams <- get_jee_exams ;;
  match exams with
  | [] => ret tt
  | _ :: _ =>
      image_store <- lift (ImageStore_init (IMAGE_BACKEND cfg)) ;;
      db_writer <- (if str_set (DATABASE_URL cfg) then DatabaseWriter_init else ret false) ;;
      all_data <- exams_loop image_store db_writer exams [] ;;
      st <- get_state ;;
      let p := progress st in
      emit (EvIndex index_path
              {| mi_total_exams := total_exams p; mi_total_subjects := total_subjects p;
                 mi_total_chapters := total_chapters p;
                 mi_total_questions := total_questions p;
                 chapters := all_data |}) ;;;
      if db_writer then emit EvDbClose else ret tt
  end.

End Script.

(** ** A small concrete world, used to run the script on examples *)

Module Demo.

(** A stand-in for [urlparse(url).path] on the URLs of the examples: what
    follows the authority, up to the query or the fragment. *)
Fixpoint drop_authority (s : string) : string :=
  match s with
  | EmptyString => EmptyString
  | String c s' => if Ascii.eqb c "/" then s else drop_authority s'
  end.

Fixpoint take_path (s : string) : string :=
  match s with
  | EmptyString => EmptyString
  | String c s' =>
      if Ascii.eqb c "?" || Ascii.eqb c "#" then EmptyString else String c (take_path s')
  end.

Definition url_path (url : string) : option string :=
  if startswith url "http://[" then None
  else if startswith url "https://" then Some (take_path (drop_authority (str_from 8 url)))
  else if startswith url "http://" then Some (take_path (drop_authority (str_from 7 url)))
  else Some (take_path url).

(** A stand-in for the SHA-1 digest: any fixed function of the text does. *)
Definition fake_sha1 (text : string) : string := "sha" ++ str_nat (String.length text).

Fixpoint lookup {A} (k : string) (l : list (string * A)) : option A :=
  match l with
  | [] => None
  | (k', v) :: l' => if String.eqb k k' then Some v else lookup k l'
  end.

(** [images]: what the image hosts answer; [catalog]: the JSON the catalog
    API answers (any other URL answers 404). *)
Definition env (images : list (string * Response)) (catalog : list (string * json)) : Env :=
  {| requests_get := fun _ url => lookup url images;
     api_get := fun _ url =>
       Some match lookup url catalog with
            | Some j => {| api_status_code := 200; api_json := Some j |}
            | None => {| api_status_code := 404; api_json := None |}
            end;
     image_write_ok := fun _ _ => true;
     s3_upload_ok := fun _ _ => true;
     sha1_hex := fun text => Some (fake_sha1 text);
     str_upper := ascii_upper;
     mkdir := fun _ _ => None;
     jsonl_open := fun _ _ => None;
     jsonl_write := fun _ _ _ => None;
     urlparse_path := url_path;
     py_str := fun _ => "?" |}.

End Demo.

(** ** Example data *)

Module Examples.

Definition config (backend : string) (database : bool) (max_chapters max_questions : Z)
    : Config :=
  {| IMAGE_BACKEND := backend;
     OUTPUT_COMPRESSION := "none";
     DATABASE_URL := if database then Some "postgresql://localhost/pyq" else None;
     EXAM_ID_FILTER := None;
     SUBJECT_ID_FILTER := None;
     CHAPTER_ID_FILTER := None;
     MAX_CHAPTERS := max_chapters;
     MAX_QUESTIONS := max_questions;
     S3_BUCKET := Some "pyq-bucket";
     S3_PREFIX := None;
     S3_REGION := None;
     has_boto3 := true;
     has_psycopg := true |}.

Definition local_store : ImageStore :=
  {| backend := "local"; s3_client := false;
     s3_bucket := None; s3_prefix := None; s3_region := None |}.

Definition s3_store : ImageStore :=
  {| backend := "s3"; s3_client := true;
     s3_bucket := Some "pyq-bucket"; s3_prefix := Some "getmarks"; s3_region := None |}.

Definition png : Response :=
  {| status_code := 200; content_type := Some "image/png"; content := "PNG" |}.

(** Not a mapping: normalising it raises. *)
Definition bad_item : json := JInt 3.

Definition good_item : json :=
  JDict [("type", JStr "singleCorrect");
         ("question", JDict [("text", JStr "2 + 2 = ?")]);
         ("options", JList [JDict [("text", JStr "3")];
                            JDict [("text", JStr "4"); ("isCorrect", JBool true)]])].

Definition numerical_item : json :=
  JDict [("type", JStr "numerical");
         ("correctValue", JStr "9.8");
         ("options", JList [JDict [("text", JStr "x"); ("isCorrect", JBool true)]])].

(** Six choices, the first and the fifth flagged. *)
Definition six_choice_item : json :=
  JDict [("type", JStr "multipleCorrect");
         ("options",
          JList [JDict [("isCorrect", JBool true)]; JDict [("isCorrect", JBool false)];
                 JDict []; JDict [("isCorrect", JNull)];
                 JDict [("isCorrect", JBool true)]; JDict []])].

(** An image on the body, on both choices and on the solution. *)
Definition picture_item : json :=
  JDict [("type", JStr "singleCorrect");
         ("question", JDict [("text", JStr "Which graph?");
                             ("image", JStr "https://cdn.example/q.png")]);
         ("options", JList [JDict [("image", JStr "https://cdn.example/a.png")];
                            JDict [("image", JStr "https://cdn.example/b.png");
                                   ("isCorrect", JBool true)]]);
         ("solution", JDict [("image", JStr "https://cdn.example/s.png")])].

(** The URL of the body image has no extension; the host declares a PNG. *)
Definition unnamed_png_item : json :=
  JDict [("type", JStr "singleCorrect");
         ("question", JDict [("text", JStr "Which graph?");
                             ("image", JStr "https://cdn.example/img/one")])].

Definition images : list (string * Response) :=
  [("https://cdn.example/q.png", png); ("https://cdn.example/a.png", png);
   ("https://cdn.example/b.png", png); ("https://cdn.example/s.png", png);
   ("https://cdn.example/img/one", png)].

Definition E1 : json := JStr "E1".
Definition S1 : json := JStr "S1".
Definition C1 : json := JStr "C1".
Definition C2 : json := JStr "C2".

Definition exam1 : Exam :=
  {| exam_id_of := E1; exam_name := JStr "JEE Main"; exam_icon := JDict [] |}.
Definition subject1 : Subject :=
  {| subject_id_of := S1; subject_name := JStr "Physics"; subject_icon := JStr "" |}.
Definition chapter1 : Chapter :=
  {| chapter_id_of := C1; chapter_name := JStr "Units"; icon_name := JNull;
     chapter_total_questions := JInt 0 |}.

(** One exam, one subject, two chapters with the items [c1] and [c2]. *)
Definition catalog (c1 c2 : list json) : list (string * json) :=
  [(URL_dashboard,
    JDict [("data", JDict [("items",
      JList [JDict [("componentTitle", JStr "ChapterwiseExams");
                    ("items", JList [JDict [("examId", E1);
                                            ("title", JStr "JEE Main")]])]])])]);
   ("https://web.getmarks.app/api/v4/cpyqb/exam/E1",
    JDict [("data", JDict [("subjects",
      JList [JDict [("_id", S1); ("title", JStr "Physics")]])])]);
   ("https://web.getmarks.app/api/v4/cpyqb/exam/E1/subject/S1",
    JDict [("data", JDict [("chapters", JDict [("data",
      JList [JDict [("_id", C1); ("title", JStr "Units")];
             JDict [("_id", C2); ("title", JStr "Waves")]])])])]);
   ("https://web.getmarks.app/api/v4/cpyqb/exam/E1/subject/S1/chapter/C1/questions",
    JDict [("data", JDict [("questions", JList c1)])]);
   ("https://web.getmarks.app/api/v4/cpyqb/exam/E1/subject/S1/chapter/C2/questions",
    JDict [("data", JDict [("questions", JList c2)])])].

Definition world (c1 c2 : list json) : Env := Demo.env images (catalog c1 c2).

(** A catalog that answers nothing. *)
Definition empty_world : Env := Demo.env [] [].

End Examples.

(** ** Vocabulary of the statements

    Kinds of events, counts and projections of a trace; the predicates of
    the program logic; how a run of the item loop, of [process_chapter]
    and of [main] proceeds. *)

Local Open Scope list_scope.

(** [effect Phi m]: wherever [m] runs and however it ends, it leaves the
    counters alone and appends to the trace events [evs] with [Phi evs]. *)
Definition effect {A} (Phi : list Event -> Prop) (m : M A) : Prop :=
  forall st,
    progress (snd (m st)) = progress st /\
    exists evs, trace (snd (m st)) = trace st ++ evs /\ Phi evs.

(** [quiet P m]: [m] leaves the counters alone and emits only events of
    kind [P]. *)
Definition quiet {A} (P : Event -> bool) (m : M A) : Prop :=
  effect (fun evs => forallb P evs = true) m.

(** Kinds of events *)

Definition is_image_ev (e : Event) : bool :=
  match e with
  | EvDownload _ _ | EvImageGet _ | EvImageFile _ _ | EvS3Upload _ _ => true
  | _ => false
  end.

Definition is_api_ev (e : Event) : bool :=
  match e with
  | EvApiGet _ => true
  | _ => false
  end.

Definition is_line (e : Event) : bool :=
  match e with
  | EvJsonlLine _ _ => true
  | _ => false
  end.

Definition is_index (e : Event) : bool :=
  match e with
  | EvIndex _ _ => true
  | _ => false
  end.

Definition is_download (e : Event) : bool :=
  match e with
  | EvDownload _ _ => true
  | _ => false
  end.

Definition is_fetch (e : Event) : bool :=
  match e with
  | EvImageGet _ => true
  | _ => false
  end.

Definition is_stored (e : Event) : bool :=
  match e with
  | EvImageFile _ _ | EvS3Upload _ _ => true
  | _ => false
  end.

(** Number of events of a kind *)
Definition count (P : Event -> bool) (evs : list Event) : nat :=
  List.length (filter P evs).

(** A result that is a value or an [Exception] (never [SystemExit]). *)
Definition exn_only {A} (r : Exc A) : Prop :=
  match r with
  | Ok _ => True
  | Raise e => is_Exception e = true
  end.

(** [safe m]: whatever [m] raises is an [Exception], so an
    [except Exception] handler around it catches everything. *)
Definition safe {A} (m : M A) : Prop := forall st, exn_only (fst (m st)).

(** [v.get(k)] read off a value that is known to be a dict ([None]
    otherwise). *)
Definition field (v : json) (k : string) : json :=
  match py_get v k JNull with
  | Ok x => x
  | Raise _ => JNull
  end.

(** The choices [process_question] loops over: [question.get("options") or []]. *)
Definition question_options (question : json) : list json :=
  match py_iter (py_or (field question "options") (JList [])) with
  | Ok l => l
  | Raise _ => []
  end.

(** The labels as the specification words them: A, B, C, D for the first
    four positions, then the 1-based numeral. *)
Definition label_of_position (i : nat) : string :=
  match i with
  | 0%nat => "A"
  | 1%nat => "B"
  | 2%nat => "C"
  | 3%nat => "D"
  | _ => str_nat (i + 1)
  end.

(** The correctness flag of a choice, as a truth value. *)
Definition flagged (opt : json) : bool := truthy (field opt "isCorrect").

(** Labels of the flagged choices, in choice order; [i] is the position of
    the first choice of [opts]. *)
Fixpoint correct_labels_from (i : nat) (opts : list json) : list string :=
  match opts with
  | [] => []
  | opt :: rest =>
      if flagged opt then label_of_position i :: correct_labels_from (S i) rest
      else correct_labels_from (S i) rest
  end.

Definition correct_labels (opts : list json) : list string := correct_labels_from 0 opts.

(** [calls n m]: [m] enters [ImageStore.download] at most [n] times. *)
Definition calls {A} (n : nat) (m : M A) : Prop :=
  effect (fun evs => (count is_download evs <= n)%nat) m.

(** Projections of a trace: the [index] of the records written, the
    output files opened, the image files and objects stored, the chapter
    rows upserted, and the chapters listed by each master index written. *)

Definition written_indices (tr : list Event) : list nat :=
  flat_map (fun ev => match ev with EvJsonlLine _ p => [index p] | _ => [] end) tr.

Definition opened_files (tr : list Event) : list string :=
  flat_map (fun ev => match ev with EvJsonlOpen f => [f] | _ => [] end) tr.

Definition stored_images (tr : list Event) : list string :=
  flat_map (fun ev => match ev with
                      | EvImageFile path _ => [path]
                      | EvS3Upload _ key => [key]
                      | _ => []
                      end) tr.

Definition chapter_rows (tr : list Event) : list (json * Z) :=
  flat_map (fun ev => match ev with
                      | EvDbUpsertChapter row => [(crow_chapter_id row, question_count row)]
                      | _ => []
                      end) tr.

Definition index_entries (tr : list Event) : list (list (json * Z)) :=
  flat_map (fun ev => match ev with
                      | EvIndex _ mi =>
                          [map (fun cd => (cd_chapter_id cd, cd_total_questions cd)) (chapters mi)]
                      | _ => []
                      end) tr.

Section LoopVocabulary.

Variable cfg : Config.
Variable env : Env.

Definition bump_total_questions (p : ProgressTracker) : ProgressTracker :=
  {| total_exams := total_exams p; total_subjects := total_subjects p;
     total_chapters := total_chapters p; total_questions := total_questions p + 1;
     processed_chapters := processed_chapters p |}.

(** The row [process_chapter] queues for a written record. *)
Definition row_of (e s c : json) (idx : nat) (p : Processed) : QuestionRow :=
  {| row_exam_id := e; row_subject_id := s; row_chapter_id := c;
     question_index := idx; payload := p |}.

(** [batch_rows] after a record is queued, and the insert it may cause. *)
Definition batch_after (db : bool) (rows : list QuestionRow) (r : QuestionRow)
    : list QuestionRow :=
  if db then (if (500 <=? List.length (rows ++ [r]))%nat then [] else rows ++ [r]) else rows.

Definition batch_events (db : bool) (rows : list QuestionRow) (r : QuestionRow)
    : list Event :=
  if db then (if (500 <=? List.length (rows ++ [r]))%nat
              then [EvDbInsertQuestions (rows ++ [r])] else [])
  else [].

(** The state once the record [p] of an item has been written. *)
Definition written (file : string) (p : Processed) (dbevs : list Event) (st : State) : State :=
  {| progress := bump_total_questions (progress st);
     trace := trace st ++ EvJsonlLine file p :: dbevs |}.

(** One run of the loop, item by item, with the events it appends: it
    stops at the end of the list or when the quota is reached; an item
    whose normalisation raises is passed over, and so is an item whose
    record cannot be written; the record of any other item is written
    (and queued for the database). *)
Inductive loop_run (file : string) (e s c : json) (store : ImageStore) (db : bool)
  : nat -> list json -> Z -> list QuestionRow -> State ->
    list Event -> Z -> list QuestionRow -> State -> Prop :=
| run_done idx qc rows st :
    loop_run file e s c store db idx [] qc rows st [] qc rows st
| run_quota idx q rest qc rows st :
    question_quota_reached cfg st = true ->
    loop_run file e s c store db idx (q :: rest) qc rows st [] qc rows st
| run_skip idx q rest qc rows st err st1 evs1 evs2 qc' rows' st' :
    question_quota_reached cfg st = false ->
    process_question env q e s c idx store st = (Raise err, st1) ->
    progress st1 = progress st ->
    trace st1 = trace st ++ evs1 ->
    forallb is_image_ev evs1 = true ->
    loop_run file e s c store db (S idx) rest qc rows st1 evs2 qc' rows' st' ->
    loop_run file e s c store db idx (q :: rest) qc rows st (evs1 ++ evs2) qc' rows' st'
| run_unwritten idx q rest qc rows st p st1 evs1 evs2 qc' rows' st' :
    question_quota_reached cfg st = false ->
    process_question env q e s c idx store st = (Ok p, st1) ->
    jsonl_write env (trace st1) file p <> None ->
    progress st1 = progress st ->
    trace st1 = trace st ++ evs1 ->
    forallb is_image_ev evs1 = true ->
    loop_run file e s c store db (S idx) rest qc rows st1 evs2 qc' rows' st' ->
    loop_run file e s c store db idx (q :: rest) qc rows st (evs1 ++ evs2) qc' rows' st'
| run_write idx q rest qc rows st p st1 evs1 evs2 qc' rows' st' :
    question_quota_reached cfg st = false ->
    process_question env q e s c idx store st = (Ok p, st1) ->
    jsonl_write env (trace st1) file p = None ->
    progress st1 = progress st ->
    trace st1 = trace st ++ evs1 ->
    forallb is_image_ev evs1 = true ->
    loop_run file e s c store db (S idx) rest (qc + 1)
      (batch_after db rows (row_of e s c idx p))
      (written file p (batch_events db rows (row_of e s c idx p)) st1)
      evs2 qc' rows' st' ->
    loop_run file e s c store db idx (q :: rest) qc rows st
      (evs1 ++ EvJsonlLine file p :: batch_events db rows (row_of e s c idx p) ++ evs2)
      qc' rows' st'.

(** Kinds of events the loop emits. *)
Definition is_loop_ev (ev : Event) : bool :=
  match ev with
  | EvJsonlLine _ _ | EvDbInsertQuestions _ => true
  | _ => is_image_ev ev
  end.

End LoopVocabulary.

Section RecordVocabulary.

Variable env : Env.
Variables (e s c : json) (store : ImageStore).

(** [p] is the record [process_question] returned for the item at
    position [n] of the list [all] (in some state of the world). *)
Definition normalised_at (all : list json) (n : nat) (p : Processed) : Prop :=
  exists q stq stq',
    nth_error all n = Some q /\
    process_question env q e s c n store stq = (Ok p, stq').



(** A database row is well keyed when [question_index] is the position of
    the item its payload was made from. *)
Definition row_ok (all : list json) (r : QuestionRow) : Prop :=
  row_exam_id r = e /\ row_subject_id r = s /\ row_chapter_id r = c /\
  index (payload r) = question_index r /\
  normalised_at all (question_index r) (payload r).

End RecordVocabulary.

Section ChapterVocabulary.

Variable cfg : Config.
Variable env : Env.

(** The output file of a chapter. *)
Definition jsonl_path (e s c : json) : string :=
  path_div JSON_DIR (fmt env e ++ "_" ++ fmt env s ++ "_" ++ fmt env c ++ ".jsonl").

Definition jsonl_file (e s c : json) : string := jsonl_path e s c ++ gz_suffix cfg.

Definition chapter_selected (subject : Subject) (chapter : Chapter) : bool :=
  negb (str_set (SUBJECT_ID_FILTER cfg) &&
        negb (py_eq_str (subject_id_of subject) (fmt_opt (SUBJECT_ID_FILTER cfg)))) &&
  negb (str_set (CHAPTER_ID_FILTER cfg) &&
        negb (py_eq_str (chapter_id_of chapter) (fmt_opt (CHAPTER_ID_FILTER cfg)))).

Definition bump_processed_chapters (p : ProgressTracker) : ProgressTracker :=
  {| total_exams := total_exams p; total_subjects := total_subjects p;
     total_chapters := total_chapters p; total_questions := total_questions p;
     processed_chapters := processed_chapters p + 1 |}.

(** What follows the loop: the last batch and the chapter row. *)
Definition flush_events (db : bool) (rows : list QuestionRow) : list Event :=
  match rows with
  | _ :: _ => if db then [EvDbInsertQuestions rows] else []
  | [] => []
  end.

Definition chapter_row (exam : Exam) (subject : Subject) (chapter : Chapter) (qc : Z)
    : ChapterRow :=
  {| crow_exam_id := exam_id_of exam; crow_subject_id := subject_id_of subject;
     crow_chapter_id := chapter_id_of chapter; crow_exam_name := exam_name exam;
     crow_subject_name := subject_name subject; crow_chapter_name := chapter_name chapter;
     question_count := qc |}.

Definition upsert_events (db : bool) (row : ChapterRow) : list Event :=
  if db then [EvDbUpsertChapter row] else [].

Definition chapter_summary (exam : Exam) (subject : Subject) (chapter : Chapter) (qc : Z)
    : ChapterData :=
  {| cd_exam := exam_name exam; cd_exam_id := exam_id_of exam;
     cd_subject := subject_name subject; cd_subject_id := subject_id_of subject;
     cd_chapter := chapter_name chapter; cd_chapter_id := chapter_id_of chapter;
     cd_total_questions := qc;
     cd_file := path_name (jsonl_path (exam_id_of exam) (subject_id_of subject)
                             (chapter_id_of chapter)) ++ gz_suffix cfg |}.

(** Events of a call that writes no record. *)
Definition is_idle_ev (ev : Event) : bool :=
  match ev with
  | EvApiGet _ | EvJsonlOpen _ | EvJsonlClose _ => true
  | _ => false
  end.

(** The two ways a call of [process_chapter] can go. *)
Inductive chapter_run (exam : Exam) (subject : Subject) (chapter : Chapter)
    (store : ImageStore) (db : bool) (st : State)
  : Exc (option ChapterData) -> State -> Prop :=
| chapter_idle r st' evs :
    (* filtered out, nothing fetched, or the payload is not a sequence *)
    (r = Ok None \/ exists err, r = Raise err) ->
    progress st' = progress st ->
    trace st' = trace st ++ evs ->
    forallb is_idle_ev evs = true ->
    chapter_run exam subject chapter store db st r st'
| chapter_done raw st1 qs evs qc rows stl :
    let e := exam_id_of exam in
    let s := subject_id_of subject in
    let c := chapter_id_of chapter in
    chapter_selected subject chapter = true ->
    get_questions env e s c st = (Ok raw, st1) ->
    truthy raw = true ->
    py_iter raw = Ok qs ->
    loop_run cfg env (jsonl_file e s c) e s c store db 0 qs 0 []
      {| progress := progress st1; trace := trace st1 ++ [EvJsonlOpen (jsonl_file e s c)] |}
      evs qc rows stl ->
    chapter_run exam subject chapter store db st
      (Ok (Some (chapter_summary exam subject chapter qc)))
      {| progress := bump_processed_chapters (progress stl);
         trace := trace st1 ++ [EvJsonlOpen (jsonl_file e s c)] ++ evs
                    ++ [EvJsonlClose (jsonl_file e s c)]
                    ++ flush_events db rows
                    ++ upsert_events db (chapter_row exam subject chapter qc) |}.

End ChapterVocabulary.

Section RunVocabulary.

Variable cfg : Config.

(** What holds of the state all along a run: [progress.total_questions]
    counts the lines written so far, the question quota is not overshot,
    the master index has not been written, and the chapter quota is not
    overshot. *)
Definition run_inv (st : State) : Prop :=
  total_questions (progress st) = Z.of_nat (count is_line (trace st)) /\
  (0 < MAX_QUESTIONS cfg -> total_questions (progress st) <= MAX_QUESTIONS cfg) /\
  count is_index (trace st) = 0%nat /\
  (0 < MAX_CHAPTERS cfg -> processed_chapters (progress st) <= MAX_CHAPTERS cfg).

(** ... and of the list [all_data] that [main] accumulates: one summary
    per processed chapter. *)
Definition loop_inv (st : State) (all_data : list ChapterData) : Prop :=
  run_inv st /\ Z.of_nat (List.length all_data) = processed_chapters (progress st).

Definition loop_post (r : Exc (list ChapterData)) (st : State) : Prop :=
  match r with
  | Ok all_data => loop_inv st all_data
  | Raise _ => run_inv st
  end.

(** Events that are neither a line nor the index. *)
Definition neutral (ev : Event) : bool := negb (is_line ev) && negb (is_index ev).

End RunVocabulary.

Section MainVocabulary.

Variable cfg : Config.
Variable env : Env.

Definition closing_events (db : bool) : list Event := if db then [EvDbClose] else [].

(** The master index [main] builds from the counters and [all_data]. *)
Definition master_index_of (p : ProgressTracker) (all_data : list ChapterData) : MasterIndex :=
  {| mi_total_exams := total_exams p; mi_total_subjects := total_subjects p;
     mi_total_chapters := total_chapters p; mi_total_questions := total_questions p;
     chapters := all_data |}.

(** The three ways a run of [main] from [st0] can end: no exam was found
    and it returns at once; it is aborted by an uncaught error; or the
    walk completes, the master index is written and the database
    connection, if any, is closed. *)
Inductive main_run (st0 : State) : Exc unit -> State -> Prop :=
| main_no_exams st1 :
    get_jee_exams cfg env st0 = (Ok [], st1) ->
    run_inv cfg st1 ->
    main_run st0 (Ok tt) st1
| main_aborted err st :
    run_inv cfg st ->
    main_run st0 (Raise err) st
| main_finished exams st1 stl all_data db :
    get_jee_exams cfg env st0 = (Ok exams, st1) ->
    exams <> [] ->
    loop_inv cfg stl all_data ->
    main_run st0 (Ok tt)
      {| progress := progress stl;
         trace := trace stl ++
                  EvIndex (index_path cfg) (master_index_of (progress stl) all_data)
                    :: closing_events db |}.

End MainVocabulary.

Section OutputVocabulary.

Variable env : Env.

(** The item list [process_chapter] loops over when it is called in state
    [st]: what [get_questions] fetches, as a sequence (empty when nothing
    usable is fetched). *)
Definition fetched_items (e s c : json) (st : State) : list json :=
  match get_questions env e s c st with
  | (Ok raw, _) => match py_iter raw with Ok qs => qs | Raise _ => [] end
  | (Raise _, _) => []
  end.

End OutputVocabulary.

(** ** Vocabulary of the further properties *)

(** [v.get(k, dflt)] read off a value known to be a dict. *)
Definition get_or (v : json) (k : string) (dflt : json) : json :=
  match py_get v k dflt with
  | Ok x => x
  | Raise _ => JNull
  end.

(** The elements a loop over [v] visits (none when [v] is not iterable). *)
Definition items_of (v : json) : list json :=
  match py_iter v with
  | Ok l => l
  | Raise _ => []
  end.

(** The entries of a catalog answer and the dict the script makes of each
    entry, level by level. *)

Definition subject_entries (data : json) : list json :=
  items_of (py_or (get_or (get_or data "data" (JDict [])) "subjects" (JList [])) (JList [])).

Definition subject_of (s : json) : Subject :=
  {| subject_id_of := field s "_id";
     subject_name := field s "title";
     subject_icon := get_or s "icon" (JStr "") |}.

Definition kept_subject (s : Subject) : bool :=
  truthy (subject_id_of s) && truthy (subject_name s).

Definition chapter_entries (data : json) : list json :=
  items_of (get_or (get_or (get_or data "data" (JDict [])) "chapters" (JDict []))
              "data" (JList [])).

Definition chapter_of (c : json) : Chapter :=
  {| chapter_id_of := field c "_id";
     chapter_name := field c "title";
     icon_name := field c "icon";
     chapter_total_questions := get_or (get_or c "allPyqs" (JDict [])) "totalQs" (JInt 0) |}.

Definition kept_chapter (c : Chapter) : bool :=
  truthy (chapter_id_of c) && truthy (chapter_name c).

(** The entries of the "ChapterwiseExams" component of the dashboard. *)
Definition exam_entries (data : json) : list json :=
  match find_component (items_of (get_or (get_or data "data" (JDict [])) "items" (JList []))) with
  | Ok comp => if truthy comp then items_of (get_or comp "items" (JList [])) else []
  | Raise _ => []
  end.

Definition exam_of (ex : json) : Exam :=
  {| exam_id_of := field ex "examId";
     exam_name := get_or ex "title" (JStr "");
     exam_icon := get_or ex "icon" (JDict []) |}.

(** An exam is kept when it passes the exam filter, has an identifier and
    carries the tag JEE or IIT in its title, whatever the case. *)
Definition kept_exam (cfg : Config) (env : Env) (ex : Exam) : bool :=
  (negb (str_set (EXAM_ID_FILTER cfg)) ||
   py_eq_str (exam_id_of ex) (fmt_opt (EXAM_ID_FILTER cfg))) &&
  truthy (exam_id_of ex) &&
  match exam_name ex with
  | JStr t => str_contains "JEE" (str_upper env t) || str_contains "IIT" (str_upper env t)
  | _ => false
  end.

(** What [make_request] returns, read off the answer of the catalog. *)
Definition api_data (env : Env) (tr : list Event) (url : string) : json :=
  match api_get env tr url with
  | None => JNull
  | Some response =>
      if (400 <=? api_status_code response) && (api_status_code response <? 600) then JNull
      else match api_json response with
           | Some data => data
           | None => JNull
           end
  end.

(** The exams a call of [get_jee_exams] returned (none when it raised). *)
Definition fst_exams (r : Exc (list Exam) * State) : list Exam :=
  match fst r with
  | Ok exams => exams
  | Raise _ => []
  end.

Definition is_dict (v : json) : bool :=
  match v with
  | JDict _ => true
  | _ => false
  end.

Definition is_str (v : json) : bool :=
  match v with
  | JStr _ => true
  | _ => false
  end.

(** A true value that has no [get] method. *)
Definition non_mapping (v : json) : bool := truthy v && negb (is_dict v).

(** What makes an item one [process_question] can normalise. *)

(** An image reference is usable when it is false (then it is passed over)
    or a string that can be encoded (and so hashed) and that [urlparse]
    accepts. *)
Definition image_ok (env : Env) (img : json) : bool :=
  negb (truthy img) ||
  match img with
  | JStr url =>
      match sha1_hex env url, urlparse_path env url with
      | Some _, Some _ => true
      | _, _ => false
      end
  | _ => false
  end.

(** The body and the solution: false (then [{}] stands for it), or a dict
    with a usable image. *)
Definition part_ok (env : Env) (v : json) : bool :=
  is_dict (py_or v (JDict [])) && image_ok env (field (py_or v (JDict [])) "image").

(** [previousYearPapers]: false, or a list whose first entry is a dict. *)
Definition papers_ok (v : json) : bool :=
  match py_or v (JList [JDict []]) with
  | JList (x :: _) => is_dict x
  | _ => false
  end.

Definition choice_ok (env : Env) (opt : json) : bool :=
  is_dict opt && image_ok env (field opt "image").

(** [options]: false, or a list of dicts with usable images (an empty
    string or dict counts as false; the characters of a string and the
    keys of a dict are no dicts). *)
Definition choices_ok (env : Env) (v : json) : bool :=
  match py_iter (py_or v (JList [])) with
  | Ok l => forallb (choice_ok env) l
  | Raise _ => false
  end.

Definition well_formed (env : Env) (question e s c : json) : bool :=
  is_str e && is_str s && is_str c && is_dict question &&
  papers_ok (field question "previousYearPapers") &&
  part_ok env (field question "question") &&
  choices_ok env (field question "options") &&
  part_ok env (field question "solution").

(** The directory [process_question] keeps the images of a chapter in:
    [IMAGES_DIR / exam_id / subject_id / chapter_id]. *)
Definition image_dir (e s c : json) : string :=
  match e, s, c with
  | JStr e', JStr s', JStr c' => path_div (path_div (path_div IMAGES_DIR e') s') c'
  | _, _, _ => ""
  end.

(** [returns m]: [m] returns a value wherever it is run. *)
Definition returns {A} (m : M A) : Prop := forall st, exists a st', m st = (Ok a, st').

(** The parts of an item [process_question] reads its texts from:
    [(question.get("previousYearPapers") or [{}])[0]] and
    [question.get(k) or {}] for the body and the solution. *)
Definition first_paper (question : json) : json :=
  match py_item0 (py_or (field question "previousYearPapers") (JList [JDict []])) with
  | Ok paper => paper
  | Raise _ => JNull
  end.

Definition part_of (question : json) (k : string) : json :=
  py_or (field question k) (JDict []).

(** The image references of a record: the body's, the choices' and the
    solution's, in that order. *)
Definition option_list {A} (o : option A) : list A :=
  match o with
  | Some a => [a]
  | None => []
  end.

Definition image_refs (p : Processed) : list string :=
  option_list (image (question p))
    ++ flat_map (fun o => option_list (opt_image o)) (options p)
    ++ option_list (image (solution p)).

(** The call of [ImageStore.download] that one part of an item (its body,
    a choice or its solution) asks for: none when the part has no image or
    the file name cannot be built; otherwise one call, for the URL of the
    image, to be saved under [img_dir] as [<tag><idx:04d>_<hash><ext>]. *)
Definition part_download (env : Env) (img_dir tag : string) (idx : nat) (img : json)
    : option Event :=
  if truthy img then
    match img with
    | JStr url =>
        match sha1_hex env url, get_file_extension env url None with
        | Some img_hash, Ok img_ext =>
            Some (EvDownload url
                    (path_div img_dir (tag ++ pad04 idx ++ "_" ++ img_hash ++ img_ext)%string))
        | _, _ => None
        end
    | _ => None
    end
  else None.

(** The calls the choices ask for, in choice order; [i] is the position of
    the first choice of [opts]. *)
Fixpoint choice_downloads (env : Env) (img_dir : string) (idx i : nat) (opts : list json)
    : list Event :=
  match opts with
  | [] => []
  | opt :: rest =>
      option_list (part_download env img_dir ("opt" ++ str_nat (i + 1) ++ "_")%string idx
                     (field opt "image"))
        ++ choice_downloads env img_dir idx (S i) rest
  end.

(** The calls an item asks for: the body's, the choices', the solution's. *)
Definition item_downloads (env : Env) (question e s c : json) (idx : nat) : list Event :=
  option_list (part_download env (image_dir e s c) "q_" idx
                 (field (part_of question "question") "image"))
    ++ choice_downloads env (image_dir e s c) idx 0 (question_options question)
    ++ option_list (part_download env (image_dir e s c) "sol_" idx
                      (field (part_of question "solution") "image")).

(** [requests l m]: the calls of [ImageStore.download] that [m] makes are,
    in order, the first calls of [l], and all of them when [m] returns. *)
Definition requests {A} (l : list Event) (m : M A) : Prop :=
  forall st, exists evs rest,
    trace (snd (m st)) = trace st ++ evs /\
    l = filter is_download evs ++ rest /\
    (forall a, fst (m st) = Ok a -> rest = []).

(** The event [ev] stored the asset that the reference [ref] names: the
    local file [OUTPUT_DIR/ref], or the object whose URL [ref] is. *)
Definition names_asset (store : ImageStore) (ref : string) (ev : Event) : Prop :=
  match ev with
  | EvImageFile path _ => (OUTPUT_DIR ++ "/" ++ ref)%string = path
  | EvS3Upload bucket key => bucket = s3_bucket store /\ ref = _build_s3_url store key
  | _ => False
  end.

(** Between the states [st] and [st'] an asset that [ref] names was stored. *)
Definition stored_since (store : ImageStore) (st st' : State) (ref : string) : Prop :=
  exists pre ev post,
    trace st' = trace st ++ pre ++ ev :: post /\ names_asset store ref ev.

(** [st'] is reached from [st]: events were only appended. *)
Definition extends (st st' : State) : Prop := exists evs, trace st' = trace st ++ evs.

(** More projections of a trace: the rows inserted into the database, the
    batches they were inserted in, and the rows that the lines written
    call for. *)




Definition closed_files (tr : list Event) : list string :=
  flat_map (fun ev => match ev with EvJsonlClose f => [f] | _ => [] end) tr.

(** Kinds of database events *)
Definition is_db_ev (ev : Event) : bool :=
  match ev with
  | EvDbInsertQuestions _ | EvDbUpsertChapter _ => true
  | _ => false
  end.

(** What [main] accumulates in [all_data]: the sum of the counts of the
    summaries, the output file a summary stands for, whether a summary
    passes the subject and the chapter filter, and whether it comes from
    one of the exams [main] walks. *)

Definition sum_questions (all_data : list ChapterData) : Z :=
  fold_right (fun cd n => cd_total_questions cd + n) 0 all_data.

Definition summary_file (cfg : Config) (env : Env) (cd : ChapterData) : string :=
  jsonl_file cfg env (cd_exam_id cd) (cd_subject_id cd) (cd_chapter_id cd).

Definition listed (cfg : Config) (cd : ChapterData) : bool :=
  (negb (str_set (SUBJECT_ID_FILTER cfg)) ||
   py_eq_str (cd_subject_id cd) (fmt_opt (SUBJECT_ID_FILTER cfg))) &&
  (negb (str_set (CHAPTER_ID_FILTER cfg)) ||
   py_eq_str (cd_chapter_id cd) (fmt_opt (CHAPTER_ID_FILTER cfg))).

Definition of_exam (exams : list Exam) (cd : ChapterData) : Prop :=
  exists ex, In ex exams /\ cd_exam_id cd = exam_id_of ex /\ cd_exam cd = exam_name ex.

(** What holds of the state and of [all_data] all along the walk of
    [main] over the exams [exams]. *)
Definition walk_inv (cfg : Config) (env : Env) (exams : list Exam) (n : Z)
    (st : State) (all_data : list ChapterData) : Prop :=
  total_exams (progress st) = n /\
  total_questions (progress st) = sum_questions all_data /\
  opened_files (trace st) = map (summary_file cfg env) all_data /\
  Forall (fun cd => listed cfg cd = true /\ of_exam exams cd) all_data.

(** The configuration asks for something the installation cannot give:
    the "s3" backend without [boto3] or without a bucket, or a database
    without [psycopg]. *)
Definition misconfigured (cfg : Config) : bool :=
  (String.eqb (IMAGE_BACKEND cfg) "s3" &&
   (negb (has_boto3 cfg) || negb (str_set (S3_BUCKET cfg)))) ||
  (str_set (DATABASE_URL cfg) && negb (has_psycopg cfg)).

Definition is_SystemExit {A} (r : Exc A) : bool :=
  match r with
  | Raise (SystemExit _) => true
  | _ => false
  end.

(** A string that holds no path separator. *)
Definition no_slash (s : string) : Prop := forall k, String.get k s <> Some "/"%char.

(** ** Reasoning about the monad *)

Section Logic.

Context {A B : Type}.

Lemma bind_Ok (m : M A) (k : A -> M B) st b st' :
  bind m k st = (Ok b, st') ->
  exists a st1, m st = (Ok a, st1) /\ k a st1 = (Ok b, st').
Proof.
  unfold bind. destruct (m st) as [[a | e] st1]; intro H.
  - exists a, st1. split; [reflexivity | exact H].
  - discriminate H.
Qed.

Lemma lift_Ok (r : Exc A) st a st' :
  lift r st = (Ok a, st') -> r = Ok a /\ st' = st.
Proof. unfold lift. intro H. inversion H. split; reflexivity. Qed.

Lemma ret_Ok (a a' : A) st st' : ret a st = (Ok a', st') -> a' = a /\ st' = st.
Proof. unfold ret. intro H. inversion H. split; reflexivity. Qed.

Lemma io_Ok (attempt : list Event -> option IoFailure) st u st' :
  io attempt st = (Ok u, st') -> attempt (trace st) = None /\ st' = st.
Proof.
  unfold io. destruct (attempt (trace st)); intro H; inversion H. split; reflexivity.
Qed.

End Logic.

Section Effect.

Context {A B : Type}.
Variable Phi : list Event -> Prop.

Lemma effect_ret (a : A) : Phi [] -> effect Phi (ret a).
Proof.
  intros H st. split; [reflexivity |].
  exists []. split; [symmetry; apply app_nil_r | exact H].
Qed.

Lemma effect_raise (e : PyErr) : Phi [] -> effect Phi (@raise A e).
Proof.
  intros H st. split; [reflexivity |].
  exists []. split; [symmetry; apply app_nil_r | exact H].
Qed.

Lemma effect_lift (r : Exc A) : Phi [] -> effect Phi (lift r).
Proof.
  intros H st. split; [reflexivity |].
  exists []. split; [symmetry; apply app_nil_r | exact H].
Qed.

Lemma effect_emit (e : Event) : Phi [e] -> effect Phi (emit e).
Proof.
  intros H st. split; [reflexivity |].
  exists [e]. split; [reflexivity | exact H].
Qed.

(** Sequencing: the events of the two parts are concatenated; the first
    part may also be all there is (when it raises). *)
Lemma effect_bind (Phi1 Phi2 : list Event -> Prop) (m : M A) (k : A -> M B) :
  effect Phi1 m ->
  (forall a st st1, m st = (Ok a, st1) -> effect Phi2 (k a)) ->
  (forall e1, Phi1 e1 -> Phi e1) ->
  (forall e1 e2, Phi1 e1 -> Phi2 e2 -> Phi (e1 ++ e2)) ->
  effect Phi (bind m k).
Proof.
  intros Hm Hk Hstop Hboth st.
  destruct (Hm st) as [Hp [e1 [Ht H1]]].
  unfold bind. destruct (m st) as [[a | e] st1] eqn:E; simpl in *.
  - destruct (Hk a st st1 E st1) as [Hp2 [e2 [Ht2 H2]]].
    split; [congruence |].
    exists (e1 ++ e2). split; [| auto].
    rewrite Ht2, Ht. symmetry. apply app_assoc.
  - split; [exact Hp |]. exists e1. auto.
Qed.

(** A pure step in front changes nothing. *)
Lemma effect_lift_bind (r : Exc A) (k : A -> M B) :
  Phi [] ->
  (forall a, r = Ok a -> effect Phi (k a)) ->
  effect Phi (bind (lift r) k).
Proof.
  intros H0 Hk st. unfold bind, lift. destruct r as [a | e].
  - apply (Hk a eq_refl).
  - simpl. split; [reflexivity |].
    exists []. split; [symmetry; apply app_nil_r | exact H0].
Qed.

Lemma effect_io (attempt : list Event -> option IoFailure) : Phi [] -> effect Phi (io attempt).
Proof.
  intros H st. unfold io. destruct (attempt (trace st)); cbn [snd];
    (split; [reflexivity |]); exists []; (split; [symmetry; apply app_nil_r | exact H]).
Qed.

Lemma effect_io_bind (attempt : list Event -> option IoFailure) (k : unit -> M B) :
  Phi [] ->
  (forall u, effect Phi (k u)) ->
  effect Phi (bind (io attempt) k).
Proof.
  intros H0 Hk st. unfold bind, io. destruct (attempt (trace st)).
  - simpl. split; [reflexivity |].
    exists []. split; [symmetry; apply app_nil_r | exact H0].
  - apply Hk.
Qed.

Lemma effect_get_state_bind (k : State -> M B) :
  (forall s, effect Phi (k s)) -> effect Phi (bind get_state k).
Proof. intros Hk st. unfold bind, get_state. apply Hk. Qed.

Lemma effect_try_except (Phi1 Phi2 : list Event -> Prop) (body : M A) (handler : PyErr -> M A) :
  effect Phi1 body ->
  (forall e, effect Phi2 (handler e)) ->
  (forall e1, Phi1 e1 -> Phi e1) ->
  (forall e1 e2, Phi1 e1 -> Phi2 e2 -> Phi (e1 ++ e2)) ->
  effect Phi (try_except body handler).
Proof.
  intros Hm Hh Hstop Hboth st.
  destruct (Hm st) as [Hp [e1 [Ht H1]]].
  unfold try_except. destruct (body st) as [[a | e] st1]; simpl in *.
  - split; [exact Hp |]. exists e1. auto.
  - destruct (is_Exception e).
    + destruct (Hh e st1) as [Hp2 [e2 [Ht2 H2]]].
      split; [congruence |].
      exists (e1 ++ e2). split; [| auto].
      rewrite Ht2, Ht. symmetry. apply app_assoc.
    + simpl. split; [exact Hp |]. exists e1. auto.
Qed.

End Effect.

Lemma effect_weaken {A} (Phi Psi : list Event -> Prop) (m : M A) :
  (forall evs, Phi evs -> Psi evs) -> effect Phi m -> effect Psi m.
Proof.
  intros H Hm st. destruct (Hm st) as [Hp [evs [Ht HP]]].
  split; [exact Hp |]. exists evs. auto.
Qed.

Section Quiet.

Context {A B : Type}.
Variable P : Event -> bool.

Lemma quiet_ret (a : A) : quiet P (ret a).
Proof. apply effect_ret. reflexivity. Qed.

Lemma quiet_raise (e : PyErr) : quiet P (@raise A e).
Proof. apply effect_raise. reflexivity. Qed.

Lemma quiet_lift (r : Exc A) : quiet P (lift r).
Proof. apply effect_lift. reflexivity. Qed.

Lemma quiet_emit (e : Event) : P e = true -> quiet P (emit e).
Proof. intro H. apply effect_emit. simpl. rewrite H. reflexivity. Qed.

Lemma quiet_bind (m : M A) (k : A -> M B) :
  quiet P m -> (forall a, quiet P (k a)) -> quiet P (bind m k).
Proof.
  intros Hm Hk.
  apply effect_bind with (Phi1 := fun evs => forallb P evs = true)
                         (Phi2 := fun evs => forallb P evs = true).
  - exact Hm.
  - intros a _ _ _. apply Hk.
  - auto.
  - intros e1 e2 H1 H2. cbv beta. rewrite forallb_app, H1, H2. reflexivity.
Qed.

Lemma quiet_try_except (body : M A) (handler : PyErr -> M A) :
  quiet P body -> (forall e, quiet P (handler e)) -> quiet P (try_except body handler).
Proof.
  intros Hm Hk.
  apply effect_try_except with (Phi1 := fun evs => forallb P evs = true)
                               (Phi2 := fun evs => forallb P evs = true).
  - exact Hm.
  - exact Hk.
  - auto.
  - intros e1 e2 H1 H2. cbv beta. rewrite forallb_app, H1, H2. reflexivity.
Qed.

Lemma quiet_io (attempt : list Event -> option IoFailure) : quiet P (io attempt).
Proof. apply effect_io. reflexivity. Qed.

Lemma quiet_get_state : quiet P get_state.
Proof. intro st. split; [reflexivity |]. exists []. split; [symmetry; apply app_nil_r | reflexivity]. Qed.

End Quiet.

Lemma quiet_weaken {A} (P Q : Event -> bool) (m : M A) :
  (forall e, P e = true -> Q e = true) -> quiet P m -> quiet Q m.
Proof.
  intros H. apply effect_weaken. intros evs Hevs.
  rewrite forallb_forall in *. auto.
Qed.

Create HintDb fx.

(** Breaks a goal [quiet P m] down along the structure of [m]; the facts
    already proved about the functions [m] calls come from the hints. *)
Ltac quiet_step :=
  first
    [ solve [auto with fx]
    | apply quiet_ret
    | apply quiet_raise
    | apply quiet_lift
    | apply quiet_get_state
    | apply quiet_io
    | apply quiet_emit; reflexivity
    | apply quiet_bind; [| intros]
    | apply quiet_try_except; [| intros]
    | match goal with
      | |- quiet _ (if ?b then _ else _) => destruct b
      | |- quiet _ (match ?x with _ => _ end) => destruct x
      | |- quiet _ (let (_, _) := ?x in _) => destruct x
      end ].

Ltac quiet_auto := repeat quiet_step.

(** Counting events *)

Lemma count_app P e1 e2 : count P (e1 ++ e2) = (count P e1 + count P e2)%nat.
Proof. unfold count. rewrite filter_app, length_app. reflexivity. Qed.

Lemma count_single P e : count P [e] = if P e then 1%nat else 0%nat.
Proof. unfold count. simpl. destruct (P e); reflexivity. Qed.

Lemma count_none P Q evs :
  (forall e, Q e = true -> P e = false) -> forallb Q evs = true -> count P evs = 0%nat.
Proof.
  intros H. unfold count. induction evs as [| e evs IH]; simpl; intro HQ; [reflexivity |].
  apply andb_true_iff in HQ. destruct HQ as [He Hevs].
  rewrite (H e He). auto.
Qed.

Section Safe.

Context {A B : Type}.

Lemma safe_ret (a : A) : safe (ret a).
Proof. intro st. exact I. Qed.

Lemma safe_raise (e : PyErr) : is_Exception e = true -> safe (@raise A e).
Proof. intros H st. exact H. Qed.

Lemma safe_lift (r : Exc A) : exn_only r -> safe (lift r).
Proof. intros H st. exact H. Qed.

Lemma safe_emit (e : Event) : safe (emit e).
Proof. intro st. exact I. Qed.

Lemma io_error_exn (f : IoFailure) : is_Exception (io_error f) = true.
Proof. destruct f; reflexivity. Qed.

Lemma safe_io (attempt : list Event -> option IoFailure) : safe (io attempt).
Proof.
  intro st. unfold io. destruct (attempt (trace st)); [apply io_error_exn | exact I].
Qed.

Lemma safe_get_state : safe get_state.
Proof. intro st. exact I. Qed.

Lemma safe_bind (m : M A) (k : A -> M B) :
  safe m -> (forall a, safe (k a)) -> safe (bind m k).
Proof.
  intros Hm Hk st. unfold bind. specialize (Hm st).
  destruct (m st) as [[a | e] st1]; simpl in *.
  - apply Hk.
  - exact Hm.
Qed.

Lemma safe_try_except (body : M A) (handler : PyErr -> M A) :
  safe body -> (forall e, safe (handler e)) -> safe (try_except body handler).
Proof.
  intros Hm Hh st. unfold try_except. specialize (Hm st).
  destruct (body st) as [[a | e] st1]; simpl in *.
  - exact I.
  - rewrite Hm. apply Hh.
Qed.

(** A handler that returns a value turns a safe body into code that
    always returns. *)
Lemma try_except_returns (body : M A) (handler : PyErr -> A) st :
  safe body ->
  exists a st', try_except body (fun e => ret (handler e)) st = (Ok a, st').
Proof.
  intro Hm. unfold try_except. specialize (Hm st).
  destruct (body st) as [[a | e] st1]; simpl in *.
  - eauto.
  - rewrite Hm. unfold ret. eauto.
Qed.

End Safe.

Lemma py_get_exn v k dflt : exn_only (py_get v k dflt).
Proof. destruct v; simpl; auto. Qed.

Lemma py_iter_exn v : exn_only (py_iter v).
Proof. destruct v; simpl; auto. Qed.

Lemma py_item0_exn v : exn_only (py_item0 v).
Proof. destruct v as [| | | | s | l |]; simpl; auto; [destruct s | destruct l]; simpl; auto. Qed.

Lemma relative_to_exn root p : exn_only (relative_to root p).
Proof. unfold relative_to. destruct (startswith p (root ++ "/")); simpl; auto. Qed.

Lemma path_div_json_exn dir part : exn_only (path_div_json dir part).
Proof. destruct part; simpl; auto. Qed.

Lemma sha1_hash_exn env text : exn_only (sha1_hash env text).
Proof. destruct text; simpl; auto. destruct (sha1_hex env s); simpl; auto. Qed.

Lemma get_file_extension_exn env url ct : exn_only (get_file_extension env url ct).
Proof.
  unfold get_file_extension. destruct (urlparse_path env url); simpl; auto.
  repeat match goal with |- exn_only (if ?b then _ else _) => destruct b; simpl; auto end.
Qed.

Create HintDb exn.
#[local] Hint Resolve py_get_exn py_iter_exn py_item0_exn relative_to_exn path_div_json_exn
  sha1_hash_exn get_file_extension_exn : exn.

Ltac safe_step :=
  first
    [ solve [auto with fx]
    | apply safe_ret
    | apply safe_raise; reflexivity
    | apply safe_lift; solve [auto with exn]
    | apply safe_get_state
    | apply safe_io
    | apply safe_emit
    | apply safe_bind; [| intros]
    | apply safe_try_except; [| intros]
    | match goal with
      | |- safe (if ?b then _ else _) => destruct b
      | |- safe (match ?x with _ => _ end) => destruct x
      | |- safe (let (_, _) := ?x in _) => destruct x
      end ].

Ltac safe_auto := repeat safe_step.

(** ** ImageStore.download *)

Section DownloadFacts.

Variable env : Env.

Lemma download_quiet self url save_path :
  quiet is_image_ev (download env self url save_path).
Proof. unfold download, raise_for_status. quiet_auto. Qed.

Lemma download_Ok self url save_path st :
  exists r st', download env self url save_path st = (Ok r, st').
Proof.
  unfold download.
  unfold bind at 1. unfold emit at 1.
  destruct (String.eqb url "" || startswith url "/").
  - unfold ret. eauto.
  - apply try_except_returns with (handler := fun _ => None).
    unfold raise_for_status. safe_auto.
Qed.

Lemma download_safe self url save_path : safe (download env self url save_path).
Proof.
  intro st. destruct (download_Ok self url save_path st) as [r [st' E]].
  rewrite E. exact I.
Qed.

Lemma download_noop self url save_path st :
  String.eqb url "" || startswith url "/" = true ->
  download env self url save_path st =
    (Ok None, {| progress := progress st; trace := trace st ++ [EvDownload url save_path] |}).
Proof.
  intro H. unfold download, bind, emit. rewrite H. reflexivity.
Qed.

(** What [download] answers when the fetch goes wrong. *)
Lemma download_fetch_failed self url save_path st :
  String.eqb url "" || startswith url "/" = false ->
  match requests_get env (trace st ++ [EvDownload url save_path]) url with
  | None => True
  | Some response => 400 <= status_code response < 600
  end ->
  fst (download env self url save_path st) = Ok None.
Proof.
  intros Hurl Hfail.
  unfold download, bind, emit, try_except, get_state, raise_for_status, raise, ret.
  rewrite Hurl. cbn [trace progress].
  destruct (requests_get env (trace st ++ [EvDownload url save_path]) url) as [response |].
  - assert (Hs : (400 <=? status_code response) && (status_code response <? 600) = true).
    { apply andb_true_iff. split; [apply Z.leb_le | apply Z.ltb_lt]; lia. }
    rewrite Hs. reflexivity.
  - reflexivity.
Qed.

(** With a backend that is neither "local" nor "s3" nothing is ever
    returned. *)
Lemma download_unsupported self url save_path st :
  String.eqb (backend self) "local" = false ->
  String.eqb (backend self) "s3" = false ->
  fst (download env self url save_path st) = Ok None.
Proof.
  intros Hl Hs.
  unfold download, bind, emit, try_except, get_state, raise_for_status, raise, ret.
  destruct (String.eqb url "" || startswith url "/"); [reflexivity |].
  cbn [trace progress].
  destruct (requests_get env (trace st ++ [EvDownload url save_path]) url) as [response |];
    [| reflexivity].
  destruct ((400 <=? status_code response) && (status_code response <? 600)); [reflexivity |].
  rewrite Hl, Hs. reflexivity.
Qed.

End DownloadFacts.

#[local] Hint Resolve download_quiet download_safe : fx.

(** ** process_question *)

Lemma choice_label_spec i : choice_label i = label_of_position i.
Proof.
  unfold choice_label.
  destruct i as [| [| [| [| i]]]]; reflexivity.
Qed.

Ltac count_tac := cbv beta; unfold count; simpl; lia.

Lemma calls_le {A} n n' (m : M A) : (n <= n')%nat -> calls n m -> calls n' m.
Proof. intro H. apply effect_weaken. intros evs Hevs. cbv beta in *. lia. Qed.

Lemma calls_bind {A B} n1 n2 (m : M A) (k : A -> M B) :
  calls n1 m -> (forall a, calls n2 (k a)) -> calls (n1 + n2) (bind m k).
Proof.
  intros Hm Hk.
  apply effect_bind with (Phi1 := fun evs => (count is_download evs <= n1)%nat)
                         (Phi2 := fun evs => (count is_download evs <= n2)%nat).
  - exact Hm.
  - intros a _ _ _. apply Hk.
  - intros e1 H1. cbv beta. lia.
  - intros e1 e2 H1 H2. cbv beta. rewrite count_app. lia.
Qed.

Lemma calls_ret {A} n (a : A) : calls n (ret a).
Proof. apply effect_ret. count_tac. Qed.

Lemma quiet_calls_0 {A} P (m : M A) :
  (forall e, P e = true -> is_download e = false) -> quiet P m -> calls 0 m.
Proof.
  intros H. apply effect_weaken. intros evs Hevs. cbv beta in *.
  rewrite (count_none is_download P evs H Hevs). lia.
Qed.

(** Unfolds one pure step of a chain of binds, keeping its equation. *)
Ltac lift_steps Phi0 :=
  repeat first [ apply effect_lift_bind; [solve [Phi0] | intros ? ?]
               | apply effect_io_bind; [solve [Phi0] | intros ?] ].

Section QuestionFacts.

Variable env : Env.

Lemma download_calls self url save_path : calls 1 (download env self url save_path).
Proof.
  unfold download. apply (calls_bind 1 0).
  - apply effect_emit. count_tac.
  - intros _. apply quiet_calls_0 with (P := fun e => is_fetch e || is_stored e).
    + intros [] H; simpl in *; congruence.
    + unfold raise_for_status. quiet_auto.
Qed.

Lemma store_image_quiet store img_dir tag idx img :
  quiet is_image_ev (store_image env store img_dir tag idx img).
Proof. unfold store_image. quiet_auto. Qed.

Lemma store_image_safe store img_dir tag idx img :
  safe (store_image env store img_dir tag idx img).
Proof.
  unfold store_image. safe_auto.
Qed.

Lemma store_image_calls store img_dir tag idx img :
  calls 1 (store_image env store img_dir tag idx img).
Proof.
  unfold store_image, calls.
  lift_steps ltac:(count_tac).
  destruct img; try (apply effect_raise; count_tac).
  lift_steps ltac:(count_tac).
  apply (calls_bind 1 0); [apply download_calls | intros; apply calls_ret].
Qed.

Lemma process_options_quiet store img_dir idx opts :
  forall i acc cl, quiet is_image_ev (process_options env store img_dir idx i opts acc cl).
Proof.
  induction opts as [| opt rest IH]; intros i acc cl; simpl.
  - apply quiet_ret.
  - quiet_auto; auto using store_image_quiet.
Qed.

Lemma process_options_safe store img_dir idx opts :
  forall i acc cl, safe (process_options env store img_dir idx i opts acc cl).
Proof.
  induction opts as [| opt rest IH]; intros i acc cl; simpl.
  - apply safe_ret.
  - safe_auto; auto using store_image_safe.
Qed.

Lemma process_options_calls store img_dir idx opts :
  forall i acc cl,
    calls (List.length opts) (process_options env store img_dir idx i opts acc cl).
Proof.
  induction opts as [| opt rest IH]; intros i acc cl; simpl.
  - apply calls_ret.
  - unfold calls. lift_steps ltac:(count_tac).
    apply (calls_bind 1 (List.length rest)).
    + destruct (truthy a2); [apply store_image_calls | apply calls_ret].
    + intros r. apply IH.
Qed.

(** The loop appends to [correct_letters] the labels of the flagged
    choices, in choice order. *)
Lemma process_options_letters store img_dir idx opts :
  forall i acc cl st acc' cl' st',
    process_options env store img_dir idx i opts acc cl st = (Ok (acc', cl'), st') ->
    cl' = cl ++ correct_labels_from i opts.
Proof.
  induction opts as [| opt rest IH]; intros i acc cl st acc' cl' st' H; simpl in H.
  - apply ret_Ok in H. destruct H as [H _]. inversion H. symmetry. apply app_nil_r.
  - apply bind_Ok in H. destruct H as [t [s1 [H1 H]]]. apply lift_Ok in H1. destruct H1 as [Et ->].
    apply bind_Ok in H. destruct H as [ic [s2 [H2 H]]]. apply lift_Ok in H2. destruct H2 as [Eic ->].
    apply bind_Ok in H. destruct H as [fl [s3 [H3 H]]]. apply lift_Ok in H3. destruct H3 as [Efl ->].
    apply bind_Ok in H. destruct H as [im [s4 [H4 H]]]. apply lift_Ok in H4. destruct H4 as [Eim ->].
    apply bind_Ok in H. destruct H as [ref [s5 [H5 H]]].
    apply IH in H. rewrite H. cbn [correct_labels_from].
    unfold flagged, field. rewrite Efl, choice_label_spec.
    destruct (truthy fl); [rewrite <- app_assoc |]; reflexivity.
Qed.

End QuestionFacts.

(** Takes apart a hypothesis [H : (x <- m ;; k) st = (Ok b, st')] into the
    successful steps it is made of. *)
Ltac inv_ok H :=
  repeat
    (let a := fresh "a" in
     let s := fresh "s" in
     let E := fresh "E" in
     first
       [ apply bind_Ok in H; destruct H as [a [s [E H]]];
         try (apply lift_Ok in E; destruct E as [E ->]);
         try (apply io_Ok in E; destruct E as [E ->])
       | match type of H with
         | (let (_, _) := ?r in _) _ = _ => destruct r
         end ]).

Section ProcessQuestionFacts.

Variable env : Env.

Lemma process_question_quiet q e s c idx store :
  quiet is_image_ev (process_question env q e s c idx store).
Proof.
  unfold process_question.
  quiet_auto; auto using store_image_quiet, process_options_quiet.
Qed.

Lemma process_question_safe q e s c idx store :
  safe (process_question env q e s c idx store).
Proof.
  unfold process_question.
  safe_auto; auto using store_image_safe, process_options_safe.
Qed.

Lemma question_options_eq q o0 opts :
  py_get q "options" JNull = Ok o0 ->
  py_iter (py_or o0 (JList [])) = Ok opts ->
  question_options q = opts.
Proof.
  intros H1 H2. unfold question_options, field. rewrite H1, H2. reflexivity.
Qed.

Lemma process_question_calls q e s c idx store :
  calls (2 + List.length (question_options q)) (process_question env q e s c idx store).
Proof.
  unfold process_question, calls.
  lift_steps ltac:(count_tac).
  apply calls_le with (n := (1 + (List.length (question_options q) + (1 + 0)))%nat); [lia |].
  apply calls_bind.
  { destruct (truthy _); [apply store_image_calls | apply calls_ret]. }
  intros q_ref. unfold calls.
  lift_steps ltac:(count_tac).
  match goal with
  | H1 : py_get q "options" JNull = Ok ?o0, H2 : py_iter (py_or ?o0 _) = Ok ?opts |- _ =>
      rewrite (question_options_eq q o0 opts H1 H2)
  end.
  apply calls_bind; [apply process_options_calls |].
  intros [po cl]. unfold calls.
  lift_steps ltac:(count_tac).
  apply calls_bind.
  { destruct (truthy _); [apply store_image_calls | apply calls_ret]. }
  intros sol_ref. apply calls_ret.
Qed.

(** What [process_question] leaves in [correct_answer]. *)
Lemma process_question_correct_answer q e s c idx store st p st' :
  process_question env q e s c idx store st = (Ok p, st') ->
  correct_answer p =
    if py_eq_str (field q "type") "numerical" then field q "correctValue"
    else JList (map JStr (correct_labels (question_options q))).
Proof.
  intro H. unfold process_question in H. inv_ok H.
  apply ret_Ok in H. destruct H as [-> _]. cbn [correct_answer].
  match goal with
  | H1 : py_get q "options" JNull = Ok ?o0, H2 : py_iter (py_or ?o0 _) = Ok ?opts |- _ =>
      rewrite (question_options_eq q o0 opts H1 H2)
  end.
  match goal with
  | H : process_options _ _ _ _ _ _ _ _ _ = _ |- _ =>
      apply process_options_letters in H; rewrite H
  end.
  unfold field.
  repeat match goal with
         | H : py_get q ?k JNull = Ok _ |- _ => rewrite H; clear H
         end.
  reflexivity.
Qed.

Lemma process_question_index q e s c idx store st p st' :
  process_question env q e s c idx store st = (Ok p, st') -> index p = idx.
Proof.
  intro H. unfold process_question in H. inv_ok H.
  apply ret_Ok in H. destruct H as [-> _]. reflexivity.
Qed.

End ProcessQuestionFacts.

(** *** The calls of [download], part by part *)

Section Requests.

Variable env : Env.

Lemma requests_ret {A} (a : A) : requests [] (ret a).
Proof.
  intro st. exists [], []. simpl.
  split; [symmetry; apply app_nil_r |]. split; reflexivity.
Qed.

Lemma requests_stop {A} l (err : PyErr) : requests l (@raise A err).
Proof.
  intro st. exists [], l. simpl.
  split; [symmetry; apply app_nil_r |]. split; [reflexivity | discriminate].
Qed.

Lemma requests_lift_bind {A B} l (r : Exc A) (k : A -> M B) :
  (forall a, r = Ok a -> requests l (k a)) -> requests l (bind (lift r) k).
Proof.
  intros Hk st. unfold bind, lift. destruct r as [a | err].
  - apply (Hk a eq_refl).
  - exists [], l. simpl.
    split; [symmetry; apply app_nil_r |]. split; [reflexivity | discriminate].
Qed.

Lemma requests_io_bind {B} l (attempt : list Event -> option IoFailure) (k : unit -> M B) :
  (forall u, requests l (k u)) -> requests l (bind (io attempt) k).
Proof.
  intros Hk st. unfold bind, io. destruct (attempt (trace st)).
  - exists [], l. simpl.
    split; [symmetry; apply app_nil_r |]. split; [reflexivity | discriminate].
  - apply Hk.
Qed.

Lemma requests_bind {A B} l1 l2 (m : M A) (k : A -> M B) :
  requests l1 m -> (forall a, requests l2 (k a)) -> requests (l1 ++ l2) (bind m k).
Proof.
  intros Hm Hk st.
  destruct (Hm st) as (e1 & r1 & Ht1 & Hl1 & Hok1).
  unfold bind. destruct (m st) as [[a | err] st1]; cbn [fst snd] in *.
  - destruct (Hk a st1) as (e2 & r2 & Ht2 & Hl2 & Hok2).
    exists (e1 ++ e2), r2.
    split; [rewrite Ht2, Ht1; symmetry; apply app_assoc |].
    split; [| exact Hok2].
    rewrite filter_app, Hl1, Hl2, (Hok1 a eq_refl), app_nil_r.
    apply app_assoc.
  - exists e1, (r1 ++ l2).
    split; [exact Ht1 |]. split; [| discriminate].
    rewrite Hl1. symmetry. apply app_assoc.
Qed.

Lemma requests_then {A B} l (m : M A) (f : A -> B) :
  requests l m -> requests l (bind m (fun a => ret (f a))).
Proof.
  intro Hm. rewrite <- (app_nil_r l).
  apply requests_bind; [exact Hm | intro a; apply requests_ret].
Qed.

(** What emits no call and cannot raise asks for nothing. *)
Lemma requests_quiet {A} P (m : M A) :
  (forall ev, P ev = true -> is_download ev = false) -> quiet P m -> requests [] m.
Proof.
  intros HP Hm st. destruct (Hm st) as [_ [evs [Ht Hevs]]].
  exists evs, []. split; [exact Ht |]. split; [| reflexivity].
  rewrite app_nil_r. symmetry.
  pose proof (count_none is_download P evs HP Hevs) as Hc.
  unfold count in Hc. destruct (filter is_download evs); [reflexivity | discriminate Hc].
Qed.

Lemma download_requests self url save_path :
  requests [EvDownload url save_path] (download env self url save_path).
Proof.
  unfold download.
  change [EvDownload url save_path] with ([EvDownload url save_path] ++ []).
  apply requests_bind.
  - intro st. exists [EvDownload url save_path], []. simpl.
    split; [reflexivity |]. split; reflexivity.
  - intros _. apply requests_quiet with (P := fun e => is_fetch e || is_stored e).
    + intros [] H; simpl in *; congruence.
    + unfold raise_for_status. quiet_auto.
Qed.

Lemma store_image_requests store img_dir tag idx img :
  requests (option_list (part_download env img_dir tag idx img))
    (if truthy img then store_image env store img_dir tag idx img else ret None).
Proof.
  unfold part_download. destruct (truthy img); [| apply requests_ret].
  unfold store_image, sha1_hash.
  destruct img; try (apply requests_lift_bind; intros a Ha; discriminate Ha).
  destruct (sha1_hex env _) as [h |];
    [| apply requests_lift_bind; intros a Ha; discriminate Ha].
  apply requests_lift_bind. intros a Ha. inversion Ha. subst a. clear Ha.
  destruct (get_file_extension env _ None) as [img_ext | err];
    [| apply requests_lift_bind; intros a Ha; discriminate Ha].
  apply requests_lift_bind. intros a Ha. inversion Ha. subst a. clear Ha.
  cbn [option_list]. apply requests_then. apply download_requests.
Qed.

Lemma process_options_requests store img_dir idx opts :
  forall i acc cl,
    requests (choice_downloads env img_dir idx i opts)
      (process_options env store img_dir idx i opts acc cl).
Proof.
  induction opts as [| opt rest IH]; intros i acc cl; simpl.
  - apply requests_ret.
  - apply requests_lift_bind. intros t _.
    apply requests_lift_bind. intros ic _.
    apply requests_lift_bind. intros flag _.
    apply requests_lift_bind. intros img Himg.
    unfold field. rewrite Himg.
    apply requests_bind; [apply store_image_requests | intro ref; apply IH].
Qed.

Lemma path_div_json_Ok dir part d :
  path_div_json dir part = Ok d -> exists w, part = JStr w /\ d = path_div dir w.
Proof.
  destruct part; try discriminate. intro H. inversion H. eexists. split; reflexivity.
Qed.

Lemma process_question_requests q e s c idx store :
  requests (item_downloads env q e s c idx) (process_question env q e s c idx store).
Proof.
  unfold process_question, item_downloads.
  apply requests_lift_bind. intros d1 H1.
  apply requests_lift_bind. intros d2 H2.
  apply requests_lift_bind. intros img_dir H3.
  apply path_div_json_Ok in H1, H2, H3.
  destruct H1 as (e' & -> & ->), H2 as (s' & -> & ->), H3 as (c' & -> & ->).
  cbn [image_dir].
  apply requests_io_bind. intros _.
  apply requests_lift_bind. intros type_v _.
  apply requests_lift_bind. intros level_v _.
  apply requests_lift_bind. intros papers _.
  apply requests_lift_bind. intros paper _.
  apply requests_lift_bind. intros pyq _.
  apply requests_lift_bind. intros q0 Hq0.
  apply requests_lift_bind. intros q_text _.
  apply requests_lift_bind. intros q_img Hq_img.
  assert (Eq : field (part_of q "question") "image" = q_img).
  { unfold part_of, field at 2. rewrite Hq0. unfold field. rewrite Hq_img. reflexivity. }
  rewrite Eq.
  apply requests_bind; [apply store_image_requests |]. intros q_ref.
  apply requests_lift_bind. intros o0 Ho0.
  apply requests_lift_bind. intros opts Hopts.
  rewrite (question_options_eq q o0 opts Ho0 Hopts).
  apply requests_bind; [apply process_options_requests |]. intros [po cl].
  apply requests_lift_bind. intros type_again _.
  apply requests_lift_bind. intros correct_value _.
  apply requests_lift_bind. intros s0 Hs0.
  apply requests_lift_bind. intros sol_text _.
  apply requests_lift_bind. intros sol_img Hsol_img.
  assert (Es : field (part_of q "solution") "image" = sol_img).
  { unfold part_of, field at 2. rewrite Hs0. unfold field. rewrite Hsol_img. reflexivity. }
  rewrite Es.
  apply requests_then. apply store_image_requests.
Qed.

End Requests.

#[local] Hint Resolve process_question_quiet process_question_safe : fx.

(** ** An unsupported backend stores nothing *)

Section Unsupported.

Variable env : Env.
Variable store : ImageStore.
Hypothesis not_local : String.eqb (backend store) "local" = false.
Hypothesis not_s3 : String.eqb (backend store) "s3" = false.

Lemma store_image_unsupported img_dir tag idx img st r st' :
  store_image env store img_dir tag idx img st = (Ok r, st') -> r = None.
Proof.
  intro H. unfold store_image in H. inv_ok H.
  destruct img; try discriminate H.
  inv_ok H. apply ret_Ok in H. destruct H as [-> _].
  match goal with
  | E : download _ _ ?u ?path ?s0 = _ |- _ =>
      pose proof (download_unsupported env store u path s0 not_local not_s3) as Hd;
      rewrite E in Hd; simpl in Hd; inversion Hd; subst
  end.
  reflexivity.
Qed.

Lemma process_options_unsupported img_dir idx opts :
  forall i acc cl st acc' cl' st',
    process_options env store img_dir idx i opts acc cl st = (Ok (acc', cl'), st') ->
    Forall (fun o => opt_image o = None) acc ->
    Forall (fun o => opt_image o = None) acc'.
Proof.
  induction opts as [| opt rest IH]; intros i acc cl st acc' cl' st' H Hacc; simpl in H.
  - apply ret_Ok in H. destruct H as [H _]. inversion H. subst. exact Hacc.
  - inv_ok H. apply IH in H; [exact H |].
    apply Forall_app. split; [exact Hacc |].
    constructor; [| constructor]. cbn [opt_image].
    match goal with
    | E : (if truthy ?im then _ else _) _ = (Ok ?r, _) |- ?r = None =>
        destruct (truthy im);
        [ apply store_image_unsupported in E; exact E
        | apply ret_Ok in E; destruct E as [-> _]; reflexivity ]
    end.
Qed.

Lemma process_question_unsupported q e s c idx st p st' :
  process_question env q e s c idx store st = (Ok p, st') ->
  image (question p) = None /\
  image (solution p) = None /\
  Forall (fun o => opt_image o = None) (options p).
Proof.
  intro H. unfold process_question in H. inv_ok H.
  apply ret_Ok in H. destruct H as [-> _]. cbn [question solution options image].
  repeat match goal with
         | E : (if truthy ?im then _ else _) _ = (Ok ?r, _) |- _ =>
             assert (r = None) by
               (destruct (truthy im);
                [ apply store_image_unsupported in E; exact E
                | apply ret_Ok in E; destruct E as [E _]; exact E ]);
             clear E
         end.
  subst. split; [reflexivity |]. split; [reflexivity |].
  match goal with
  | E : process_options _ _ _ _ _ _ _ _ _ = _ |- _ =>
      apply process_options_unsupported in E; [exact E | constructor]
  end.
Qed.

End Unsupported.

(** ** The loop of process_chapter *)

Section ChapterFacts.

Variable cfg : Config.
Variable env : Env.

(** The loop always returns, and it runs as [loop_run cfg env] says. *)
Lemma questions_loop_run file e s c store db qs :
  forall idx qc rows st,
  exists evs qc' rows' st',
    questions_loop cfg env file e s c store db idx qs qc rows st = (Ok (qc', rows'), st') /\
    loop_run cfg env file e s c store db idx qs qc rows st evs qc' rows' st'.
Proof.
  induction qs as [| q rest IH]; intros idx qc rows st.
  - exists [], qc, rows, st. split; [reflexivity | constructor].
  - cbn [questions_loop]. unfold bind at 1. unfold get_state at 1.
    destruct (question_quota_reached cfg st) eqn:Hq.
    + exists [], qc, rows, st. split; [reflexivity | constructor; exact Hq].
    + unfold bind at 1. unfold try_except at 1. unfold bind at 1.
      pose proof (process_question_safe env q e s c idx store st) as Hsafe.
      destruct (process_question_quiet env q e s c idx store st) as [Hprog [evs1 [Htr Hev]]].
      destruct (process_question env q e s c idx store st) as [[p | err] st1] eqn:Hp;
        cbn [fst snd] in *.
      * unfold bind at 1. unfold io at 1.
        destruct (jsonl_write env (trace st1) file p) as [f |] eqn:Hw.
        { rewrite io_error_exn. unfold ret at 1.
          destruct (IH (S idx) qc rows st1) as [evs2 [qc' [rows' [st' [Hrun Hrel]]]]].
          eexists _, qc', rows', st'. split; [exact Hrun |].
          eapply run_unwritten; eauto. rewrite Hw. discriminate. }
        unfold bind at 1. unfold emit at 1.
        unfold bind at 1. unfold incr_total_questions, bind at 1, get_state at 1, set_progress at 1.
        cbn [progress trace fst snd].
        destruct (IH (S idx) (qc + 1) (batch_after db rows (row_of e s c idx p))
                    (written file p (batch_events db rows (row_of e s c idx p)) st1))
          as [evs2 [qc' [rows' [st' [Hrun Hrel]]]]].
        eexists _, qc', rows', st'. split.
        -- rewrite <- Hrun. unfold batch_after, batch_events, written, row_of, insert_questions.
           destruct db; [destruct (500 <=? _)%nat |];
             unfold bind, emit, ret; cbn [progress trace fst snd];
             rewrite <- ?app_assoc; reflexivity.
        -- eapply run_write; eauto.
      * rewrite Hsafe. unfold ret at 1. cbn [fst snd].
        destruct (IH (S idx) qc rows st1) as [evs2 [qc' [rows' [st' [Hrun Hrel]]]]].
        eexists _, qc', rows', st'. split; [exact Hrun |].
        eapply run_skip; eauto.
Qed.

(** *** What a run of the loop does *)

Lemma batch_events_kind db rows r e :
  In e (batch_events db rows r) -> e = EvDbInsertQuestions (rows ++ [r]).
Proof.
  unfold batch_events. destruct db; [destruct (500 <=? _)%nat |]; simpl; intuition.
Qed.

Lemma count_batch_events P db rows r :
  P (EvDbInsertQuestions (rows ++ [r])) = false -> count P (batch_events db rows r) = 0%nat.
Proof.
  unfold batch_events, count. intro H.
  destruct db; [destruct (500 <=? _)%nat |]; simpl; rewrite ?H; reflexivity.
Qed.

Lemma loop_run_trace file e s c store db idx qs qc rows st evs qc' rows' st' :
  loop_run cfg env file e s c store db idx qs qc rows st evs qc' rows' st' ->
  trace st' = trace st ++ evs.
Proof.
  induction 1 as [| | ? ? ? ? ? ? ? ? ? ? ? ? ? Hq Hp Hprog Htr Hev Hrun IH
                      | ? ? ? ? ? ? ? ? ? ? ? ? ? Hq Hp Hw Hprog Htr Hev Hrun IH
                      | ? ? ? ? ? ? ? ? ? ? ? ? ? Hq Hp Hw Hprog Htr Hev Hrun IH].
  - symmetry. apply app_nil_r.
  - symmetry. apply app_nil_r.
  - rewrite IH, Htr. symmetry. apply app_assoc.
  - rewrite IH, Htr. symmetry. apply app_assoc.
  - rewrite IH. cbn [written trace]. rewrite Htr, <- !app_assoc. reflexivity.
Qed.

(** Only [total_questions] moves, by the number of lines written, and the
    local [question_count] moves with it. *)
Lemma loop_run_progress file e s c store db idx qs qc rows st evs qc' rows' st' :
  loop_run cfg env file e s c store db idx qs qc rows st evs qc' rows' st' ->
  total_questions (progress st') = total_questions (progress st) + Z.of_nat (count is_line evs) /\
  qc' = qc + Z.of_nat (count is_line evs) /\
  total_exams (progress st') = total_exams (progress st) /\
  total_subjects (progress st') = total_subjects (progress st) /\
  total_chapters (progress st') = total_chapters (progress st) /\
  processed_chapters (progress st') = processed_chapters (progress st).
Proof.
  induction 1 as [| | ? ? ? ? ? ? ? ? ? ? ? ? ? Hq Hp Hprog Htr Hev Hrun IH
                      | ? ? ? ? ? ? ? ? ? ? ? ? ? Hq Hp Hw Hprog Htr Hev Hrun IH
                      | ? ? ? ? ? ? ? ? ? ? ? ? ? Hq Hp Hw Hprog Htr Hev Hrun IH].
  - unfold count. simpl. repeat split; lia.
  - unfold count. simpl. repeat split; lia.
  - rewrite count_app, (count_none is_line is_image_ev evs1), Hprog in *;
      [exact IH | intros []; simpl; congruence | exact Hev].
  - rewrite count_app, (count_none is_line is_image_ev evs1), Hprog in *;
      [exact IH | intros []; simpl; congruence | exact Hev].
  - rewrite !count_app, (count_none is_line is_image_ev evs1);
      [| intros []; simpl; congruence | exact Hev].
    change (EvJsonlLine file p :: batch_events db rows (row_of e s c idx p) ++ evs2)
      with ([EvJsonlLine file p] ++ batch_events db rows (row_of e s c idx p) ++ evs2).
    rewrite !count_app, count_batch_events by reflexivity.
    cbn [written progress bump_total_questions total_questions total_exams total_subjects
           total_chapters processed_chapters] in IH.
    rewrite Hprog in IH. unfold count at 1. simpl.
    destruct IH as (H1 & H2 & H3 & H4 & H5 & H6).
    repeat split; try assumption; lia.
Qed.

(** The quota is never overshot. *)
Lemma loop_run_quota file e s c store db idx qs qc rows st evs qc' rows' st' :
  loop_run cfg env file e s c store db idx qs qc rows st evs qc' rows' st' ->
  0 < MAX_QUESTIONS cfg ->
  total_questions (progress st) <= MAX_QUESTIONS cfg ->
  total_questions (progress st') <= MAX_QUESTIONS cfg.
Proof.
  induction 1 as [| | ? ? ? ? ? ? ? ? ? ? ? ? ? Hq Hp Hprog Htr Hev Hrun IH
                      | ? ? ? ? ? ? ? ? ? ? ? ? ? Hq Hp Hw Hprog Htr Hev Hrun IH
                      | ? ? ? ? ? ? ? ? ? ? ? ? ? Hq Hp Hw Hprog Htr Hev Hrun IH];
    intros Hmax Hle; try assumption.
  - apply IH; [exact Hmax | rewrite Hprog; exact Hle].
  - apply IH; [exact Hmax | rewrite Hprog; exact Hle].
  - apply IH; [exact Hmax |].
    cbn [written progress bump_total_questions total_questions]. rewrite Hprog.
    unfold question_quota_reached in Hq.
    destruct (MAX_QUESTIONS cfg =? 0) eqn:E0; [apply Z.eqb_eq in E0; lia |].
    simpl in Hq. rewrite Z.geb_leb in Hq. apply Z.leb_gt in Hq. lia.
Qed.

Lemma loop_run_kinds file e s c store db idx qs qc rows st evs qc' rows' st' :
  loop_run cfg env file e s c store db idx qs qc rows st evs qc' rows' st' ->
  forallb is_loop_ev evs = true.
Proof.
  assert (Himg : forall l, forallb is_image_ev l = true -> forallb is_loop_ev l = true).
  { intros l Hl. rewrite forallb_forall in *. intros x Hx. specialize (Hl x Hx).
    destruct x; simpl in *; congruence. }
  induction 1 as [| | ? ? ? ? ? ? ? ? ? ? ? ? ? Hq Hp Hprog Htr Hev Hrun IH
                      | ? ? ? ? ? ? ? ? ? ? ? ? ? Hq Hp Hw Hprog Htr Hev Hrun IH
                      | ? ? ? ? ? ? ? ? ? ? ? ? ? Hq Hp Hw Hprog Htr Hev Hrun IH];
    try reflexivity.
  - rewrite forallb_app, IH, Himg by assumption. reflexivity.
  - rewrite forallb_app, IH, Himg by assumption. reflexivity.
  - rewrite forallb_app, Himg by assumption. cbn [forallb is_loop_ev andb].
    rewrite forallb_app, IH, andb_true_r.
    apply forallb_forall. intros x Hx. apply batch_events_kind in Hx. subst x. reflexivity.
Qed.

End ChapterFacts.

Section LoopRecords.

Variable cfg : Config.
Variable env : Env.
Variables (file : string) (e s c : json) (store : ImageStore) (db : bool).

Lemma skipn_cons_inv {A} (n : nat) (l : list A) x rest :
  skipn n l = x :: rest -> nth_error l n = Some x /\ skipn (S n) l = rest.
Proof.
  revert l. induction n as [| n IH]; intros l H.
  - simpl in H. subst l. split; reflexivity.
  - destruct l as [| y l]; [discriminate H |]. simpl in H.
    apply IH in H. exact H.
Qed.

Lemma image_ev_not_line evs f p :
  forallb is_image_ev evs = true -> ~ In (EvJsonlLine f p) evs.
Proof.
  intros H Hin. rewrite forallb_forall in H. specialize (H _ Hin). discriminate H.
Qed.

Lemma batch_events_not_line rows r f p : ~ In (EvJsonlLine f p) (batch_events db rows r).
Proof. intro Hin. apply batch_events_kind in Hin. discriminate Hin. Qed.

(** Every line written carries the record of the item at the position its
    [index] names. *)
Lemma loop_run_lines idx qs qc rows st evs qc' rows' st' :
  loop_run cfg env file e s c store db idx qs qc rows st evs qc' rows' st' ->
  forall all, skipn idx all = qs ->
  forall f p, In (EvJsonlLine f p) evs ->
    f = file /\ (idx <= index p)%nat /\ normalised_at env e s c store all (index p) p.
Proof.
  induction 1 as [| | ? ? ? ? ? ? ? ? ? ? ? ? ? Hq Hp Hprog Htr Hev Hrun IH
                      | ? ? ? ? ? ? ? ? ? ? ? ? ? Hq Hp Hw Hprog Htr Hev Hrun IH
                      | ? ? ? ? ? ? ? ? ? ? ? ? ? Hq Hp Hw Hprog Htr Hev Hrun IH];
    intros all Hall f p0 Hin; try (destruct Hin; fail).
  - apply skipn_cons_inv in Hall. destruct Hall as [Hnth Hrest].
    apply in_app_or in Hin. destruct Hin as [Hin | Hin].
    + exfalso. eapply image_ev_not_line; eauto.
    + destruct (IH all Hrest f p0 Hin) as (Hf & Hle & Hn). repeat split; auto. lia.
  - apply skipn_cons_inv in Hall. destruct Hall as [Hnth Hrest].
    apply in_app_or in Hin. destruct Hin as [Hin | Hin].
    + exfalso. eapply image_ev_not_line; eauto.
    + destruct (IH all Hrest f p0 Hin) as (Hf & Hle & Hn). repeat split; auto. lia.
  - apply skipn_cons_inv in Hall. destruct Hall as [Hnth Hrest].
    apply in_app_or in Hin. destruct Hin as [Hin | [Hin | Hin]].
    + exfalso. eapply image_ev_not_line; eauto.
    + inversion Hin; subst f p0.
      pose proof (process_question_index _ _ _ _ _ _ _ _ _ _ Hp) as Hidx.
      rewrite Hidx. repeat split; auto.
      exists q, st, st1. split; assumption.
    + apply in_app_or in Hin. destruct Hin as [Hin | Hin].
      * exfalso. eapply batch_events_not_line; eauto.
      * destruct (IH all Hrest f p0 Hin) as (Hf & Hle & Hn). repeat split; auto. lia.
Qed.

Lemma loop_run_rows idx qs qc rows st evs qc' rows' st' :
  loop_run cfg env file e s c store db idx qs qc rows st evs qc' rows' st' ->
  forall all, skipn idx all = qs ->
  Forall (row_ok env e s c store all) rows ->
  Forall (row_ok env e s c store all) rows' /\
  forall rws, In (EvDbInsertQuestions rws) evs -> Forall (row_ok env e s c store all) rws.
Proof.
  induction 1 as [| | ? ? ? ? ? ? ? ? ? ? ? ? ? Hq Hp Hprog Htr Hev Hrun IH
                      | ? ? ? ? ? ? ? ? ? ? ? ? ? Hq Hp Hw Hprog Htr Hev Hrun IH
                      | ? ? ? ? ? ? ? ? ? ? ? ? ? Hq Hp Hw Hprog Htr Hev Hrun IH];
    intros all Hall Hrows.
  - split; [exact Hrows | intros rws []].
  - split; [exact Hrows | intros rws []].
  - apply skipn_cons_inv in Hall. destruct Hall as [Hnth Hrest].
    destruct (IH all Hrest Hrows) as [H1 H2]. split; [exact H1 |].
    intros rws Hin. apply in_app_or in Hin. destruct Hin as [Hin | Hin]; [| auto].
    rewrite forallb_forall in Hev. specialize (Hev _ Hin). discriminate Hev.
  - apply skipn_cons_inv in Hall. destruct Hall as [Hnth Hrest].
    destruct (IH all Hrest Hrows) as [H1 H2]. split; [exact H1 |].
    intros rws Hin. apply in_app_or in Hin. destruct Hin as [Hin | Hin]; [| auto].
    rewrite forallb_forall in Hev. specialize (Hev _ Hin). discriminate Hev.
  - apply skipn_cons_inv in Hall. destruct Hall as [Hnth Hrest].
    assert (Hnew : Forall (row_ok env e s c store all) (rows ++ [row_of e s c idx p])).
    { apply Forall_app. split; [exact Hrows |]. constructor; [| constructor].
      unfold row_ok, row_of. cbn [row_exam_id row_subject_id row_chapter_id
                                   question_index payload].
      repeat split; try reflexivity.
      - eapply process_question_index; eauto.
      - exists q, st, st1. split; assumption. }
    assert (Hafter : Forall (row_ok env e s c store all) (batch_after db rows (row_of e s c idx p))).
    { unfold batch_after. destruct db; [destruct (500 <=? _)%nat |]; auto. }
    destruct (IH all Hrest Hafter) as [H1 H2]. split; [exact H1 |].
    intros rws Hin. apply in_app_or in Hin. destruct Hin as [Hin | [Hin | Hin]].
    + rewrite forallb_forall in Hev. specialize (Hev _ Hin). discriminate Hev.
    + discriminate Hin.
    + apply in_app_or in Hin. destruct Hin as [Hin | Hin]; [| auto].
      apply batch_events_kind in Hin. inversion Hin. subst rws. exact Hnew.
Qed.


End LoopRecords.

(** ** The catalog functions only talk to the catalog *)

Section CatalogFacts.

Variable cfg : Config.
Variable env : Env.

Lemma raise_for_status_quiet P status : quiet P (raise_for_status status).
Proof. unfold raise_for_status. quiet_auto. Qed.

Lemma make_request_quiet url : quiet is_api_ev (make_request env url).
Proof. unfold make_request. quiet_auto. apply raise_for_status_quiet. Qed.

#[local] Hint Resolve make_request_quiet : fx.

Lemma get_questions_quiet e s c : quiet is_api_ev (get_questions env e s c).
Proof. unfold get_questions. quiet_auto. Qed.

Lemma get_subjects_quiet e : quiet is_api_ev (get_subjects env e).
Proof. unfold get_subjects. quiet_auto. Qed.

Lemma get_chapters_quiet e s : quiet is_api_ev (get_chapters env e s).
Proof. unfold get_chapters. quiet_auto. Qed.

(** [get_jee_exams] also sets [progress.total_exams]. *)
Lemma get_jee_exams_effect st r st' :
  get_jee_exams cfg env st = (r, st') ->
  total_subjects (progress st') = total_subjects (progress st) /\
  total_chapters (progress st') = total_chapters (progress st) /\
  total_questions (progress st') = total_questions (progress st) /\
  processed_chapters (progress st') = processed_chapters (progress st) /\
  exists evs, trace st' = trace st ++ evs /\ forallb is_api_ev evs = true.
Proof.
  unfold get_jee_exams. unfold bind at 1.
  destruct (make_request_quiet URL_dashboard st) as [Hp [evs [Ht Hev]]].
  destruct (make_request env URL_dashboard st) as [[data | err] st1]; cbn [fst snd] in *.
  2: { intro H. inversion H. subst. rewrite Hp. refine (conj _ (conj _ (conj _ (conj _ _)))); try reflexivity. exists evs. auto. }
  assert (Hsame : forall (m : M (list Exam)),
             quiet is_api_ev m -> m st1 = (r, st') ->
             total_subjects (progress st') = total_subjects (progress st) /\
             total_chapters (progress st') = total_chapters (progress st) /\
             total_questions (progress st') = total_questions (progress st) /\
             processed_chapters (progress st') = processed_chapters (progress st) /\
             exists evs0, trace st' = trace st ++ evs0 /\ forallb is_api_ev evs0 = true).
  { intros m Hm E. destruct (Hm st1) as [Hp1 [evs1 [Ht1 Hev1]]].
    rewrite E in *. cbn [snd] in *.
    rewrite Hp1, Hp. refine (conj _ (conj _ (conj _ (conj _ _)))); try reflexivity.
    exists (evs ++ evs1). rewrite Ht1, Ht, forallb_app, Hev, Hev1, app_assoc. auto. }
  destruct (negb (truthy data)); [apply Hsame; apply quiet_ret |].
  unfold bind, lift.
  destruct (py_get data "data" (JDict [])) as [d | err]; [| apply Hsame; apply quiet_raise].
  destruct (py_get d "items" (JList [])) as [items | err]; [| apply Hsame; apply quiet_raise].
  destruct (py_iter items) as [l | err]; [| apply Hsame; apply quiet_raise].
  destruct (find_component l) as [comp | err]; [| apply Hsame; apply quiet_raise].
  destruct (negb (truthy comp)); [apply Hsame; apply quiet_ret |].
  destruct (py_get comp "items" (JList [])) as [citems | err]; [| apply Hsame; apply quiet_raise].
  destruct (py_iter citems) as [cl | err]; [| apply Hsame; apply quiet_raise].
  destruct (collect_exams cfg env cl []) as [exams | err]; [| apply Hsame; apply quiet_raise].
  unfold set_total_exams, bind, get_state, set_progress, ret.
  intro H. inversion H. subst.
  cbn [fst snd progress trace total_subjects total_chapters total_questions processed_chapters].
  rewrite Hp. refine (conj _ (conj _ (conj _ (conj _ _)))); try reflexivity. exists evs. auto.
Qed.

End CatalogFacts.

#[local] Hint Resolve make_request_quiet get_questions_quiet get_subjects_quiet
  get_chapters_quiet : fx.

(** ** process_chapter *)

Section ProcessChapterFacts.

Variable cfg : Config.
Variable env : Env.

Lemma process_chapter_run exam subject chapter store db st r st' :
  process_chapter cfg env exam subject chapter store db st = (r, st') ->
  chapter_run cfg env exam subject chapter store db st r st'.
Proof.
  unfold process_chapter.
  destruct (str_set (SUBJECT_ID_FILTER cfg) &&
            negb (py_eq_str (subject_id_of subject) (fmt_opt (SUBJECT_ID_FILTER cfg)))) eqn:Fs.
  { intro H. inversion H. subst.
    apply chapter_idle with (evs := []); auto. symmetry. apply app_nil_r. }
  destruct (str_set (CHAPTER_ID_FILTER cfg) &&
            negb (py_eq_str (chapter_id_of chapter) (fmt_opt (CHAPTER_ID_FILTER cfg)))) eqn:Fc.
  { intro H. inversion H. subst.
    apply chapter_idle with (evs := []); auto. symmetry. apply app_nil_r. }
  unfold bind at 1.
  destruct (get_questions_quiet env (exam_id_of exam) (subject_id_of subject)
              (chapter_id_of chapter) st) as [Hp [evs0 [Ht Hev]]].
  assert (Hidle0 : forallb is_idle_ev evs0 = true).
  { rewrite forallb_forall in *. intros x Hx. specialize (Hev x Hx).
    destruct x; simpl in *; congruence. }
  destruct (get_questions env (exam_id_of exam) (subject_id_of subject)
              (chapter_id_of chapter) st) as [[raw | err] st1] eqn:Hget; cbn [fst snd] in *.
  2: { intro H. inversion H. subst. apply chapter_idle with (evs := evs0); eauto. }
  destruct (truthy raw) eqn:Hraw; cbn [negb].
  2: { intro H. inversion H. subst. apply chapter_idle with (evs := evs0); auto. }
  fold (jsonl_path env (exam_id_of exam) (subject_id_of subject) (chapter_id_of chapter)).
  unfold bind at 1. unfold with_jsonl_writer, bind at 1, io at 1.
  fold (jsonl_file cfg env (exam_id_of exam) (subject_id_of subject) (chapter_id_of chapter)).
  destruct (jsonl_open env (trace st1) _) as [f |] eqn:Hopen.
  { intro H. inversion H. subst. apply chapter_idle with (evs := evs0); eauto. }
  unfold bind at 1, emit at 1.
  unfold bind at 1, lift at 1.
  destruct (py_iter raw) as [qs | err] eqn:Hiter.
  2: { cbn [fst snd progress trace]. intro H. inversion H. subst.
       apply chapter_idle with
         (evs := evs0 ++ [EvJsonlOpen (jsonl_file cfg env (exam_id_of exam) (subject_id_of subject)
                                         (chapter_id_of chapter));
                          EvJsonlClose (jsonl_file cfg env (exam_id_of exam) (subject_id_of subject)
                                          (chapter_id_of chapter))]); eauto.
       - cbn [trace]. rewrite Ht, <- !app_assoc. reflexivity.
       - rewrite forallb_app, Hidle0. reflexivity. }
  destruct (questions_loop_run cfg env
              (jsonl_file cfg env (exam_id_of exam) (subject_id_of subject) (chapter_id_of chapter))
              (exam_id_of exam) (subject_id_of subject) (chapter_id_of chapter) store db qs
              0%nat 0 []
              {| progress := progress st1;
                 trace := trace st1 ++ [EvJsonlOpen (jsonl_file cfg env (exam_id_of exam)
                                          (subject_id_of subject) (chapter_id_of chapter))] |})
    as [evs [qc [rows [stl [Hloop Hrun]]]]].
  rewrite Hloop. cbn [fst snd].
  pose proof (loop_run_trace _ _ _ _ _ _ _ _ _ _ _ _ _ _ _ _ _ Hrun) as Htl.
  cbn [trace] in Htl.
  intro H.
  assert (Hres : (r, st') =
        (Ok (Some (chapter_summary cfg env exam subject chapter qc)),
         {| progress := bump_processed_chapters (progress stl);
            trace := trace st1 ++ [EvJsonlOpen (jsonl_file cfg env (exam_id_of exam)
                                     (subject_id_of subject) (chapter_id_of chapter))] ++ evs
                       ++ [EvJsonlClose (jsonl_file cfg env (exam_id_of exam) (subject_id_of subject)
                                           (chapter_id_of chapter))]
                       ++ flush_events db rows
                       ++ upsert_events db (chapter_row exam subject chapter qc) |})).
  { rewrite <- H.
    unfold flush_events, upsert_events, chapter_row, chapter_summary, insert_questions,
      upsert_chapter, incr_processed_chapters, bump_processed_chapters.
    destruct rows as [| r0 rows0]; destruct db;
      unfold bind, emit, ret, get_state, set_progress; cbn [progress trace fst snd];
      rewrite Htl, <- ?app_assoc; cbn [app]; rewrite ?app_nil_r; reflexivity. }
  inversion Hres. subst r st'.
  eapply chapter_done; eauto.
  unfold chapter_selected. rewrite Fs, Fc. reflexivity.
Qed.

End ProcessChapterFacts.

(** ** Invariants of a run *)

Section RunFacts.

Variable cfg : Config.
Variable env : Env.

Lemma count_neutral evs :
  forallb neutral evs = true -> count is_line evs = 0%nat /\ count is_index evs = 0%nat.
Proof.
  intro H. split; apply (count_none _ neutral); try exact H;
    intros []; unfold neutral; simpl; congruence.
Qed.

Lemma run_inv_neutral st st' evs :
  run_inv cfg st ->
  total_questions (progress st') = total_questions (progress st) ->
  processed_chapters (progress st') = processed_chapters (progress st) ->
  trace st' = trace st ++ evs ->
  forallb neutral evs = true ->
  run_inv cfg st'.
Proof.
  intros (H1 & H2 & H3 & H4) Hq Hc Ht Hev.
  destruct (count_neutral evs Hev) as [Hl Hi].
  unfold run_inv. rewrite Hq, Hc, Ht, !count_app, Hl, Hi, !Nat.add_0_r. auto.
Qed.

Lemma quiet_run_inv {A} P (m : M A) st :
  (forall ev, P ev = true -> neutral ev = true) ->
  quiet P m -> run_inv cfg st -> run_inv cfg (snd (m st)).
Proof.
  intros HP Hm Hinv. destruct (Hm st) as [Hp [evs [Ht Hev]]].
  apply run_inv_neutral with (st := st) (evs := evs); auto; try (rewrite Hp; reflexivity).
  rewrite forallb_forall in *. auto.
Qed.

Lemma api_neutral ev : is_api_ev ev = true -> neutral ev = true.
Proof. destruct ev; unfold neutral; simpl; congruence. Qed.

Lemma idle_neutral ev : is_idle_ev ev = true -> neutral ev = true.
Proof. destruct ev; unfold neutral; simpl; congruence. Qed.

Lemma count_flush_events P db rows :
  P (EvDbInsertQuestions rows) = false -> count P (flush_events db rows) = 0%nat.
Proof.
  intro H. unfold flush_events, count.
  destruct rows; [reflexivity |]. destruct db; simpl; rewrite ?H; reflexivity.
Qed.

Lemma count_upsert_events P db row :
  P (EvDbUpsertChapter row) = false -> count P (upsert_events db row) = 0%nat.
Proof.
  intro H. unfold upsert_events, count. destruct db; simpl; rewrite ?H; reflexivity.
Qed.

(** A call of [process_chapter] keeps the invariant; it counts one more
    processed chapter exactly when it returns a summary. *)
Lemma chapter_run_inv exam subject chapter store db st r st' :
  chapter_run cfg env exam subject chapter store db st r st' ->
  run_inv cfg st ->
  chapter_quota_reached cfg st = false ->
  run_inv cfg st' /\
  processed_chapters (progress st') =
    processed_chapters (progress st) + match r with Ok (Some _) => 1 | _ => 0 end.
Proof.
  intros Hrun Hinv Hquota.
  destruct Hrun as [r st' evs Hr Hp Ht Hev | raw st1 qs evs qc rows stl e s c Hsel Hget Hraw Hiter Hloop].
  - split.
    + apply run_inv_neutral with (st := st) (evs := evs); auto; try (rewrite Hp; reflexivity).
      rewrite forallb_forall in *. auto using idle_neutral.
    + rewrite Hp. destruct Hr as [-> | [err ->]]; lia.
  - destruct (get_questions_quiet env e s c st) as [Hp0 [evs0 [Ht0 Hev0]]].
    rewrite Hget in Hp0, Ht0. cbn [snd] in Hp0, Ht0.
    destruct (count_neutral evs0) as [Hl0 Hi0].
    { rewrite forallb_forall in *. auto using api_neutral. }
    destruct (loop_run_progress _ _ _ _ _ _ _ _ _ _ _ _ _ _ _ _ _ Hloop)
      as (Hq & _ & _ & _ & _ & Hc).
    pose proof (loop_run_quota _ _ _ _ _ _ _ _ _ _ _ _ _ _ _ _ _ Hloop) as Hmax.
    pose proof (loop_run_kinds _ _ _ _ _ _ _ _ _ _ _ _ _ _ _ _ _ Hloop) as Hk.
    assert (Hievs : count is_index evs = 0%nat).
    { apply (count_none _ is_loop_ev); [| exact Hk]. intros []; simpl; congruence. }
    cbn [progress trace] in Hq, Hc, Hmax.
    destruct Hinv as (H1 & H2 & H3 & H4).
    unfold run_inv. cbn [progress trace bump_processed_chapters total_questions
                           processed_chapters].
    rewrite Hq, Hc, Hp0, Ht0.
    rewrite !count_app, Hl0, Hi0, H3, Hievs.
    rewrite !count_flush_events, !count_upsert_events by reflexivity.
    rewrite !count_single. cbn [is_line is_index].
    split; [split; [| split; [| split]] |].
    + rewrite H1. lia.
    + intro Hpos. specialize (Hmax Hpos). rewrite Hq, Hp0 in Hmax. auto.
    + lia.
    + intro Hpos. unfold chapter_quota_reached in Hquota.
      destruct (MAX_CHAPTERS cfg =? 0) eqn:E0; [apply Z.eqb_eq in E0; lia |].
      simpl in Hquota. rewrite Z.geb_leb in Hquota. apply Z.leb_gt in Hquota. lia.
    + lia.
Qed.

Lemma chapters_loop_inv exam subject store db chs :
  forall all_data st r st',
    loop_inv cfg st all_data ->
    chapters_loop cfg env exam subject store db chs all_data st = (r, st') ->
    loop_post cfg r st'.
Proof.
  induction chs as [| chapter rest IH]; intros all_data st r st' Hinv H; simpl in H.
  - inversion H. subst. exact Hinv.
  - unfold bind at 1, get_state at 1 in H.
    destruct (chapter_quota_reached cfg st) eqn:Hquota.
    + inversion H. subst. exact Hinv.
    + unfold bind at 1 in H.
      destruct (process_chapter cfg env exam subject chapter store db st) as [r1 st1] eqn:Hpc.
      apply process_chapter_run in Hpc.
      destruct Hinv as [Hrun Hlen].
      destruct (chapter_run_inv _ _ _ _ _ _ _ _ Hpc Hrun Hquota) as [Hrun1 Hproc].
      destruct r1 as [[cd |] | err].
      * apply IH in H; [exact H |]. split; [exact Hrun1 |].
        rewrite length_app, Hproc. simpl. lia.
      * apply IH in H; [exact H |]. split; [exact Hrun1 |]. rewrite Hproc. lia.
      * inversion H. subst. exact Hrun1.
Qed.

Lemma add_total_chapters_inv n st :
  run_inv cfg st ->
  run_inv cfg (snd (add_total_chapters n st)) /\
  processed_chapters (progress (snd (add_total_chapters n st))) = processed_chapters (progress st) /\
  fst (add_total_chapters n st) = Ok tt.
Proof.
  intro H. unfold add_total_chapters, bind, get_state, set_progress. cbn [fst snd].
  split; [| split; reflexivity]. exact H.
Qed.

Lemma add_total_subjects_inv n st :
  run_inv cfg st ->
  run_inv cfg (snd (add_total_subjects n st)) /\
  processed_chapters (progress (snd (add_total_subjects n st))) = processed_chapters (progress st) /\
  fst (add_total_subjects n st) = Ok tt.
Proof.
  intro H. unfold add_total_subjects, bind, get_state, set_progress. cbn [fst snd].
  split; [| split; reflexivity]. exact H.
Qed.

Lemma subjects_loop_inv exam store db subs :
  forall all_data st r st',
    loop_inv cfg st all_data ->
    subjects_loop cfg env exam store db subs all_data st = (r, st') ->
    loop_post cfg r st'.
Proof.
  induction subs as [| subject rest IH]; intros all_data st r st' Hinv H; simpl in H.
  - inversion H. subst. exact Hinv.
  - unfold bind at 1 in H.
    destruct Hinv as [Hrun Hlen].
    pose proof (quiet_run_inv _ _ st api_neutral
                  (get_chapters_quiet env (exam_id_of exam) (subject_id_of subject)) Hrun) as Hrun1.
    destruct (get_chapters_quiet env (exam_id_of exam) (subject_id_of subject) st) as [Hp1 _].
    destruct (get_chapters env (exam_id_of exam) (subject_id_of subject) st)
      as [[chapters0 | err] st1]; cbn [fst snd] in *.
    2: { inversion H. subst. exact Hrun1. }
    unfold bind at 1 in H.
    match type of H with
    | context [add_total_chapters ?n st1] =>
        destruct (add_total_chapters_inv n st1 Hrun1) as (Hrun2 & Hproc2 & Hok2);
        destruct (add_total_chapters n st1) as [u st2]
    end.
    cbn [fst snd] in *. subst u.
    unfold bind at 1 in H.
    match type of H with
    | context [chapters_loop cfg env exam subject store db ?chs all_data st2] =>
        destruct (chapters_loop cfg env exam subject store db chs all_data st2)
          as [r3 st3] eqn:Hcl
    end.
    apply chapters_loop_inv in Hcl.
    2: { split; [exact Hrun2 |]. rewrite Hproc2, Hp1. exact Hlen. }
    destruct r3 as [all_data' | err].
    2: { inversion H. subst. exact Hcl. }
    unfold bind at 1, get_state at 1 in H.
    destruct (chapter_quota_reached cfg st3).
    + inversion H. subst. exact Hcl.
    + apply IH in H; [exact H | exact Hcl].
Qed.

Lemma exams_loop_inv store db exams :
  forall all_data st r st',
    loop_inv cfg st all_data ->
    exams_loop cfg env store db exams all_data st = (r, st') ->
    loop_post cfg r st'.
Proof.
  induction exams as [| exam rest IH]; intros all_data st r st' Hinv H; simpl in H.
  - inversion H. subst. exact Hinv.
  - unfold bind at 1 in H.
    destruct Hinv as [Hrun Hlen].
    pose proof (quiet_run_inv _ _ st api_neutral
                  (get_subjects_quiet env (exam_id_of exam)) Hrun) as Hrun1.
    destruct (get_subjects_quiet env (exam_id_of exam) st) as [Hp1 _].
    destruct (get_subjects env (exam_id_of exam) st) as [[subjects0 | err] st1];
      cbn [fst snd] in *.
    2: { inversion H. subst. exact Hrun1. }
    unfold bind at 1 in H.
    match type of H with
    | context [add_total_subjects ?n st1] =>
        destruct (add_total_subjects_inv n st1 Hrun1) as (Hrun2 & Hproc2 & Hok2);
        destruct (add_total_subjects n st1) as [u st2]
    end.
    cbn [fst snd] in *. subst u.
    unfold bind at 1 in H.
    match type of H with
    | context [subjects_loop cfg env exam store db ?subs all_data st2] =>
        destruct (subjects_loop cfg env exam store db subs all_data st2)
          as [r3 st3] eqn:Hsl
    end.
    apply subjects_loop_inv in Hsl.
    2: { split; [exact Hrun2 |]. rewrite Hproc2, Hp1. exact Hlen. }
    destruct r3 as [all_data' | err].
    2: { inversion H. subst. exact Hsl. }
    unfold bind at 1, get_state at 1 in H.
    destruct (chapter_quota_reached cfg st3).
    + inversion H. subst. exact Hsl.
    + apply IH in H; [exact H | exact Hsl].
Qed.

End RunFacts.

(** ** main *)

Section MainFacts.

Variable cfg : Config.
Variable env : Env.

Lemma main_runs st0 r st :
  run_inv cfg st0 ->
  Z.of_nat 0 = processed_chapters (progress st0) ->
  main cfg env st0 = (r, st) ->
  main_run cfg env st0 r st.
Proof.
  intros Hinv Hzero H. unfold main in H. unfold bind at 1 in H.
  destruct (get_jee_exams cfg env st0) as [r1 st1] eqn:Hex.
  destruct (get_jee_exams_effect cfg env _ _ _ Hex) as (_ & _ & Hq & Hc & evs & Ht & Hev).
  assert (Hinv1 : run_inv cfg st1).
  { apply run_inv_neutral with (st := st0) (evs := evs); auto.
    rewrite forallb_forall in *. auto using api_neutral. }
  destruct r1 as [exams | err].
  2: { inversion H. subst. apply main_aborted. exact Hinv1. }
  destruct exams as [| exam exams'].
  { inversion H. subst. apply main_no_exams; assumption. }
  unfold bind at 1, lift at 1 in H.
  destruct (ImageStore_init cfg (IMAGE_BACKEND cfg)) as [image_store | err].
  2: { inversion H. subst. apply main_aborted. exact Hinv1. }
  unfold bind at 1 in H.
  assert (Hdb : (exists db st2,
             (if str_set (DATABASE_URL cfg) then DatabaseWriter_init cfg else ret false) st1
               = (Ok db, st2) /\ run_inv cfg st2 /\
             processed_chapters (progress st2) = processed_chapters (progress st1))
          \/ exists err,
             (if str_set (DATABASE_URL cfg) then DatabaseWriter_init cfg else ret false) st1
               = (Raise err, st1)).
  { unfold DatabaseWriter_init. destruct (str_set (DATABASE_URL cfg)).
    - destruct (has_psycopg cfg); cbn [negb].
      + left. eexists _, _. split; [reflexivity |]. split; [| reflexivity].
        apply run_inv_neutral with (st := st1) (evs := [EvDbConnect]); auto.
      + right. eexists. reflexivity.
    - left. eexists _, _. split; [reflexivity |]. split; [exact Hinv1 | reflexivity]. }
  destruct Hdb as [(db & st2 & Hdb & Hinv2 & Hc2) | (err & Hdb)]; rewrite Hdb in H.
  2: { inversion H. subst. apply main_aborted. exact Hinv1. }
  unfold bind at 1 in H.
  destruct (exams_loop cfg env image_store db (exam :: exams') [] st2) as [r3 stl] eqn:Hloop.
  apply exams_loop_inv in Hloop.
  2: { split; [exact Hinv2 |]. rewrite Hc2, Hc. exact Hzero. }
  destruct r3 as [all_data | err].
  2: { inversion H. subst. apply main_aborted. exact Hloop. }
  assert (Hres : (r, st) =
            (Ok tt,
             {| progress := progress stl;
                trace := trace stl ++
                         EvIndex (index_path cfg) (master_index_of (progress stl) all_data)
                           :: closing_events db |})).
  { rewrite <- H. unfold bind, get_state, emit, ret, closing_events, master_index_of.
    destruct db; cbn [progress trace]; rewrite <- ?app_assoc; reflexivity. }
  inversion Hres. subst r st.
  eapply main_finished; eauto. discriminate.
Qed.

Lemma initial_state_inv : run_inv cfg initial_state.
Proof.
  unfold run_inv, initial_state, count. simpl.
  repeat split; try reflexivity; intros; lia.
Qed.

End MainFacts.

(** ** What a chapter leaves behind *)

Section ChapterOutput.

Variable cfg : Config.
Variable env : Env.


Lemma count_zero_not_in P evs ev : count P evs = 0%nat -> In ev evs -> P ev = false.
Proof.
  unfold count. induction evs as [| x evs IH]; simpl; intros H Hin; [contradiction |].
  destruct (P x) eqn:Hx; [discriminate H |].
  destruct Hin as [-> | Hin]; auto.
Qed.

(** Lines among the events of a processed chapter are those of its loop. *)
Lemma chapter_events_line file db evs0 evs rows row f p :
  forallb is_api_ev evs0 = true ->
  In (EvJsonlLine f p)
     (evs0 ++ [EvJsonlOpen file] ++ evs ++ [EvJsonlClose file]
        ++ flush_events db rows ++ upsert_events db row) ->
  In (EvJsonlLine f p) evs.
Proof.
  intros Hev0 Hin.
  apply in_app_or in Hin. destruct Hin as [Hin | Hin].
  { rewrite forallb_forall in Hev0. specialize (Hev0 _ Hin). discriminate Hev0. }
  apply in_app_or in Hin. destruct Hin as [[Hin | []] | Hin]; [discriminate Hin |].
  apply in_app_or in Hin. destruct Hin as [Hin | Hin]; [exact Hin |].
  apply in_app_or in Hin. destruct Hin as [[Hin | []] | Hin]; [discriminate Hin |].
  apply in_app_or in Hin. destruct Hin as [Hin | Hin].
  - unfold flush_events in Hin. destruct rows; [contradiction |].
    destruct db; [destruct Hin as [Hin | []]; discriminate Hin | contradiction].
  - unfold upsert_events in Hin.
    destruct db; [destruct Hin as [Hin | []]; discriminate Hin | contradiction].
Qed.



End ChapterOutput.

(** Projections of a trace *)

(** ** Records and rows of a chapter *)

Section ChapterRecords.

Variable cfg : Config.
Variable env : Env.

Lemma chapter_events_insert file db evs0 evs rows row rws :
  forallb is_api_ev evs0 = true ->
  In (EvDbInsertQuestions rws)
     (evs0 ++ [EvJsonlOpen file] ++ evs ++ [EvJsonlClose file]
        ++ flush_events db rows ++ upsert_events db row) ->
  In (EvDbInsertQuestions rws) evs \/ rws = rows.
Proof.
  intros Hev0 Hin.
  apply in_app_or in Hin. destruct Hin as [Hin | Hin].
  { rewrite forallb_forall in Hev0. specialize (Hev0 _ Hin). discriminate Hev0. }
  apply in_app_or in Hin. destruct Hin as [[Hin | []] | Hin]; [discriminate Hin |].
  apply in_app_or in Hin. destruct Hin as [Hin | Hin]; [left; exact Hin |].
  apply in_app_or in Hin. destruct Hin as [[Hin | []] | Hin]; [discriminate Hin |].
  apply in_app_or in Hin. destruct Hin as [Hin | Hin].
  - unfold flush_events in Hin. destruct rows as [| r0 rows0]; [contradiction |].
    destruct db; [| contradiction].
    destruct Hin as [Hin | []]. inversion Hin. right. reflexivity.
  - unfold upsert_events in Hin.
    destruct db; [destruct Hin as [Hin | []]; discriminate Hin | contradiction].
Qed.


(** Every line and every database row a call of [process_chapter] writes
    is keyed by the position, in the fetched list, of the item it was made
    from. *)
Lemma process_chapter_positions exam subject chapter store db st r st' evs :
  let e := exam_id_of exam in
  let s := subject_id_of subject in
  let c := chapter_id_of chapter in
  process_chapter cfg env exam subject chapter store db st = (r, st') ->
  trace st' = trace st ++ evs ->
  (forall f p, In (EvJsonlLine f p) evs ->
     f = jsonl_file cfg env e s c /\
     normalised_at env e s c store (fetched_items env e s c st) (index p) p) /\
  (forall rows row, In (EvDbInsertQuestions rows) evs -> In row rows ->
     row_ok env e s c store (fetched_items env e s c st) row).
Proof.
  intros e s c Hpc Htr.
  apply process_chapter_run in Hpc.
  destruct Hpc as [r st' evs1 Hr Hp Ht Hev
                  | raw st1 qs evs1 qc rows1 stl e' s' c' Hsel Hget Hraw Hiter Hloop].
  - rewrite Ht in Htr. apply app_inv_head in Htr. subst evs1.
    rewrite forallb_forall in Hev.
    split; [intros f p Hin | intros rows row Hin _];
      specialize (Hev _ Hin); discriminate Hev.
  - subst e' s' c'. fold e s c in Hget, Hloop, Htr.
    destruct (get_questions_quiet env e s c st) as [_ [evs0 [Ht0 Hev0]]].
    rewrite Hget in Ht0. cbn [snd] in Ht0.
    cbn [trace] in Htr. rewrite Ht0, <- app_assoc in Htr. apply app_inv_head in Htr.
    subst evs.
    assert (Hf : fetched_items env e s c st = qs).
    { unfold fetched_items. rewrite Hget, Hiter. reflexivity. }
    rewrite Hf.
    pose proof (loop_run_lines _ _ _ _ _ _ _ _ _ _ _ _ _ _ _ _ _ Hloop qs eq_refl) as Hlines.
    destruct (loop_run_rows _ _ _ _ _ _ _ _ _ _ _ _ _ _ _ _ _ Hloop qs eq_refl (Forall_nil _))
      as [Hlast Hbatches].
    split.
    + intros f p Hin. apply chapter_events_line in Hin; [| exact Hev0].
      destruct (Hlines f p Hin) as (H1 & _ & H3). split; assumption.
    + intros rows row Hin Hrow.
      apply chapter_events_insert in Hin; [| exact Hev0].
      destruct Hin as [Hin | ->].
      * specialize (Hbatches rows Hin). rewrite Forall_forall in Hbatches. auto.
      * rewrite Forall_forall in Hlast. auto.
Qed.

End ChapterRecords.

(** ** The properties of the specification *)

(** C4. [ImageStore.download] never raises: it always returns, whatever
    the store, the URL and the world.  When the URL is empty or starts
    with [/] it returns [None] and only the call itself is recorded (no
    fetch, nothing stored, counters untouched).  When the GET raises or
    answers a 4xx or 5xx status it returns [None]. *)
Theorem download_never_raises env self url save_path st :
  exists r st',
    download env self url save_path st = (Ok r, st') /\
    (url = "" \/ startswith url "/" = true ->
       r = None /\ progress st' = progress st /\
       trace st' = trace st ++ [EvDownload url save_path]) /\
    (requests_get env (trace st ++ [EvDownload url save_path]) url = None \/
     (exists response,
        requests_get env (trace st ++ [EvDownload url save_path]) url = Some response /\
        400 <= status_code response < 600) ->
     r = None).
Proof.
  destruct (download_Ok env self url save_path st) as [r [st' E]].
  exists r, st'. split; [exact E |].
  destruct (String.eqb url "" || startswith url "/") eqn:Hurl.
  - rewrite (download_noop env self url save_path st Hurl) in E.
    inversion E. subst r st'. cbn [progress trace]. auto.
  - split.
    + intros [-> | H]; [discriminate Hurl |].
      rewrite H, orb_true_r in Hurl. discriminate Hurl.
    + intro Hfail.
      pose proof (download_fetch_failed env self url save_path st Hurl) as Hnone.
      rewrite E in Hnone. cbn [fst] in Hnone.
      assert (Hr : Ok r = Ok None).
      { apply Hnone. destruct Hfail as [-> | [response [-> Hst]]]; [exact I | exact Hst]. }
      inversion Hr. reflexivity.
Qed.

Lemma download_never_raises_witness :
  fst (download (Examples.world [] []) Examples.local_store "/static/figure.png"
         "getmarks_data/images/E1/S1/C1/q_0000_sha18.png" initial_state) = Ok None /\
  fst (download (Examples.world [] []) Examples.local_store "https://cdn.example/gone.png"
         "getmarks_data/images/E1/S1/C1/q_0000_sha28.png" initial_state) = Ok None.
Proof.
  split.
  - destruct (download_never_raises (Examples.world [] []) Examples.local_store
                "/static/figure.png" "getmarks_data/images/E1/S1/C1/q_0000_sha18.png"
                initial_state) as (r & st' & Hd & Hnoop & _).
    rewrite Hd. cbn [fst].
    destruct Hnoop as [-> _]; [right; reflexivity | reflexivity].
  - destruct (download_never_raises (Examples.world [] []) Examples.local_store
                "https://cdn.example/gone.png"
                "getmarks_data/images/E1/S1/C1/q_0000_sha28.png"
                initial_state) as (r & st' & Hd & _ & Hfail).
    rewrite Hd. cbn [fst].
    rewrite Hfail; [reflexivity | left; reflexivity].
Defined.

(** C1. When [process_question] returns a record, its [correct_answer] is
    dispatched on the type tag: for the tag "numerical" it is the item's
    [correctValue] field as it stands; for any other tag it is the list of
    the labels of the choices whose [isCorrect] flag is true (as a Python
    truth value), in choice order, the choice at 0-based position [i]
    being labelled A, B, C, D for [i < 4] and [str(i + 1)] from there on. *)
Theorem correct_answer_type_dispatched env question e s c idx store st p st' :
  process_question env question e s c idx store st = (Ok p, st') ->
  (py_eq_str (field question "type") "numerical" = true ->
     correct_answer p = field question "correctValue") /\
  (py_eq_str (field question "type") "numerical" = false ->
     correct_answer p = JList (map JStr (correct_labels (question_options question)))).
Proof.
  intro H. rewrite (process_question_correct_answer _ _ _ _ _ _ _ _ _ _ H).
  split; intros ->; reflexivity.
Qed.

Lemma correct_answer_type_dispatched_witness :
  let run item :=
    process_question (Examples.world [] []) item Examples.E1 Examples.S1 Examples.C1 0
      Examples.local_store initial_state in
  (exists p st',
      run Examples.six_choice_item = (Ok p, st') /\
      correct_answer p = JList [JStr "A"; JStr "5"]) /\
  (exists p st',
      run Examples.numerical_item = (Ok p, st') /\
      correct_answer p = JStr "9.8").
Proof.
  intro run. unfold run. split.
  - destruct (process_question (Examples.world [] []) Examples.six_choice_item
                Examples.E1 Examples.S1 Examples.C1 0 Examples.local_store initial_state)
      as [[p | err] st'] eqn:H.
    + exists p, st'. split; [reflexivity |].
      destruct (correct_answer_type_dispatched _ _ _ _ _ _ _ _ _ _ H) as [_ Hmulti].
      rewrite Hmulti; reflexivity.
    + vm_compute in H. discriminate H.
  - destruct (process_question (Examples.world [] []) Examples.numerical_item
                Examples.E1 Examples.S1 Examples.C1 0 Examples.local_store initial_state)
      as [[p | err] st'] eqn:H.
    + exists p, st'. split; [reflexivity |].
      destruct (correct_answer_type_dispatched _ _ _ _ _ _ _ _ _ _ H) as [Hnum _].
      rewrite Hnum; reflexivity.
    + vm_compute in H. discriminate H.
Defined.

(** C5 (as the code has it).  One call of [process_question] enters
    [ImageStore.download] at most once for the body, once for each choice
    and once for the solution, in that order: the calls it makes are the
    first calls of [item_downloads], which lists at most one call for each
    part, each for the image of that part and under the file name of that
    part, and they are all of them when the call returns.  So it makes at
    most [2 + n] calls for an item with [n] choices, however it ends. *)
Theorem downloads_per_question env question e s c idx store st :
  exists evs rest,
    trace (snd (process_question env question e s c idx store st)) = trace st ++ evs /\
    item_downloads env question e s c idx = filter is_download evs ++ rest /\
    (forall p, fst (process_question env question e s c idx store st) = Ok p -> rest = []) /\
    (count is_download evs <= 2 + List.length (question_options question))%nat.
Proof.
  destruct (process_question_requests env question e s c idx store st)
    as (evs & rest & Ht & Hl & Hok).
  destruct (process_question_calls env question e s c idx store st) as [_ [evs' [Ht' Hn]]].
  rewrite Ht in Ht'. apply app_inv_head in Ht'. subst evs'.
  exists evs, rest. split; [exact Ht |]. split; [exact Hl |]. split; assumption.
Qed.

Lemma downloads_per_question_witness :
  let run :=
    process_question (Examples.world [] []) Examples.picture_item
      Examples.E1 Examples.S1 Examples.C1 0 Examples.local_store initial_state in
  filter is_download (trace (snd run))
    = item_downloads (Examples.world [] []) Examples.picture_item
        Examples.E1 Examples.S1 Examples.C1 0 /\
  map (fun ev => match ev with EvDownload url _ => url | _ => "" end)
      (filter is_download (trace (snd run)))
    = ["https://cdn.example/q.png"; "https://cdn.example/a.png";
       "https://cdn.example/b.png"; "https://cdn.example/s.png"].
Proof.
  intro run.
  destruct (downloads_per_question (Examples.world [] []) Examples.picture_item
              Examples.E1 Examples.S1 Examples.C1 0 Examples.local_store initial_state)
    as (evs & rest & Ht & Hl & Hok & _).
  fold run in Ht, Hok.
  assert (Hrun : exists p, fst run = Ok p) by (eexists; vm_compute; reflexivity).
  destruct Hrun as [p Hp].
  rewrite (Hok p Hp), app_nil_r in Hl.
  cbn [initial_state trace app] in Ht. rewrite Ht, <- Hl.
  split; [reflexivity | vm_compute; reflexivity].
Defined.

(** C5 as stated fails: an item with an image on the body, on two choices
    and on the solution makes four calls. *)
Lemma downloads_per_question_exceed_three :
  ~ (count is_download
       (trace (snd (process_question (Examples.world [] []) Examples.picture_item
                      Examples.E1 Examples.S1 Examples.C1 0 Examples.local_store
                      initial_state)))
     <= 3)%nat.
Proof.
  assert (E : count is_download
                (trace (snd (process_question (Examples.world [] []) Examples.picture_item
                               Examples.E1 Examples.S1 Examples.C1 0 Examples.local_store
                               initial_state))) = 4%nat)
    by (vm_compute; reflexivity).
  rewrite E. lia.
Qed.

(** C10. A backend other than "local" and "s3" does not make the
    construction of the store fail; with such a store [download] returns
    [None] on every call, so every record [process_question] returns has no
    image on the body, on the solution or on any choice. *)
Theorem unsupported_backend_degrades cfg env backend_name :
  backend_name <> "local" ->
  backend_name <> "s3" ->
  exists store,
    ImageStore_init cfg backend_name = Ok store /\
    (forall url save_path st, fst (download env store url save_path st) = Ok None) /\
    (forall item e s c idx st p st',
        process_question env item e s c idx store st = (Ok p, st') ->
        image (question p) = None /\
        image (solution p) = None /\
        Forall (fun o => opt_image o = None) (options p)).
Proof.
  intros Hl Hs.
  apply String.eqb_neq in Hl, Hs.
  unfold ImageStore_init. rewrite Hs.
  eexists. split; [reflexivity |].
  split.
  - intros url save_path st. apply download_unsupported; assumption.
  - intros item e s c idx st p st' H.
    eapply process_question_unsupported; [| | exact H]; assumption.
Qed.

Lemma unsupported_backend_degrades_witness :
  exists store,
    ImageStore_init (Examples.config "gcs" false 0 0) "gcs" = Ok store /\
    fst (download (Examples.world [] []) store "https://cdn.example/q.png"
           "getmarks_data/images/E1/S1/C1/q_0000_sha25.png" initial_state) = Ok None.
Proof.
  destruct (unsupported_backend_degrades (Examples.config "gcs" false 0 0)
              (Examples.world [] []) "gcs") as [store [Hinit [Hdl _]]].
  - discriminate.
  - discriminate.
  - exists store. split; [exact Hinit | apply Hdl].
Defined.

(** C8 against the code.  The URL of the image has no extension and the
    host declares [image/png]: [get_file_extension] given the content type
    answers [.png], and the "s3" store names the object so, but the "local"
    store writes the file under the name [process_question] made up before
    the fetch, which ends in [.jpg]. *)
Theorem local_store_ignores_content_type :
  let env := Examples.world [] [] in
  let run store :=
    process_question env Examples.unnamed_png_item Examples.E1 Examples.S1 Examples.C1 0
      store initial_state in
  get_file_extension env "https://cdn.example/img/one" (Some "image/png") = Ok ".png" /\
  stored_images (trace (snd (run Examples.s3_store))) = ["getmarks/q_0000_sha27.png"] /\
  stored_images (trace (snd (run Examples.local_store)))
    = ["getmarks_data/images/E1/S1/C1/q_0000_sha27.jpg"].
Proof. vm_compute. repeat split; reflexivity. Qed.

(** C3. In a run of [main] (from a fresh [progress]), however it ends: with
    [MAX_QUESTIONS = N > 0] at most [N] lines are written over all the
    output files; with [MAX_CHAPTERS = M > 0] the [chapters] list of the
    master index, when one is written, has at most [M] entries. *)
Theorem quotas_respected cfg env r st :
  main cfg env initial_state = (r, st) ->
  (0 < MAX_QUESTIONS cfg ->
     Z.of_nat (count is_line (trace st)) <= MAX_QUESTIONS cfg) /\
  (0 < MAX_CHAPTERS cfg ->
     forall path mi, In (EvIndex path mi) (trace st) ->
       Z.of_nat (List.length (chapters mi)) <= MAX_CHAPTERS cfg).
Proof.
  intro H.
  apply main_runs in H; [| apply initial_state_inv | reflexivity].
  assert (Hinv : forall st0, run_inv cfg st0 ->
            (0 < MAX_QUESTIONS cfg ->
               Z.of_nat (count is_line (trace st0)) <= MAX_QUESTIONS cfg) /\
            (forall path mi, ~ In (EvIndex path mi) (trace st0))).
  { intros st0 (H1 & H2 & H3 & H4). split.
    - intro Hpos. rewrite <- H1. auto.
    - intros path mi Hin. apply (count_zero_not_in _ _ _ H3) in Hin. discriminate Hin. }
  destruct H as [st1 Hex Hrun | err st Hrun | exams st1 stl all_data db Hex Hne [Hrun Hlen]].
  - destruct (Hinv _ Hrun) as [Hq Hno]. split; [exact Hq |].
    intros _ path mi Hin. exfalso. exact (Hno _ _ Hin).
  - destruct (Hinv _ Hrun) as [Hq Hno]. split; [exact Hq |].
    intros _ path mi Hin. exfalso. exact (Hno _ _ Hin).
  - destruct (Hinv _ Hrun) as [Hq Hno]. cbn [trace]. split.
    + intro Hpos.
      change (EvIndex (index_path cfg) (master_index_of (progress stl) all_data)
                :: closing_events db)
        with ([EvIndex (index_path cfg) (master_index_of (progress stl) all_data)]
                ++ closing_events db).
      rewrite !count_app, count_single. cbn [is_line].
      assert (Hc : count is_line (closing_events db) = 0%nat) by (destruct db; reflexivity).
      rewrite Hc, !Nat.add_0_r. auto.
    + intros Hpos path mi Hin.
      apply in_app_or in Hin. destruct Hin as [Hin | [Hin | Hin]].
      * exfalso. exact (Hno _ _ Hin).
      * inversion Hin. subst. cbn [master_index_of chapters].
        rewrite Hlen. destruct Hrun as (_ & _ & _ & H4). auto.
      * destruct db; [destruct Hin as [Hin | []]; discriminate Hin | contradiction].
Qed.

Lemma quotas_respected_witness :
  let cfg := Examples.config "local" true 1 1 in
  let env := Examples.world [Examples.good_item; Examples.good_item] [Examples.good_item] in
  Z.of_nat (count is_line (trace (snd (main cfg env initial_state)))) <= 1 /\
  index_entries (trace (snd (main cfg env initial_state))) = [[(Examples.C1, 1)]].
Proof.
  intros cfg env.
  destruct (main cfg env initial_state) as [r st] eqn:H.
  split.
  - apply (proj1 (quotas_respected cfg env r st H)). reflexivity.
  - cbn [snd]. vm_compute in H. inversion H. reflexivity.
Defined.

(** C7 (as the code has it).  A run of [main] that is aborted by an
    uncaught error writes no master index.  A run that returns either
    found no exam, and then it returned at once without writing the master
    index, or found some, and then it wrote the master index exactly once,
    after everything the walk did (only the closing of the database
    connection may follow), with the number of lines written as its
    [total_questions]. *)
Theorem master_index_written_at_most_once cfg env r st :
  main cfg env initial_state = (r, st) ->
  (forall err, r = Raise err -> count is_index (trace st) = 0%nat) /\
  (r = Ok tt ->
     (get_jee_exams cfg env initial_state = (Ok [], st) /\
      count is_index (trace st) = 0%nat) \/
     (exists exams st1 walk mi closing,
        get_jee_exams cfg env initial_state = (Ok exams, st1) /\
        exams <> [] /\
        trace st = walk ++ EvIndex (index_path cfg) mi :: closing /\
        count is_index walk = 0%nat /\
        (closing = [] \/ closing = [EvDbClose]) /\
        count is_index (trace st) = 1%nat /\
        mi_total_questions mi = Z.of_nat (count is_line walk))).
Proof.
  intro H.
  apply main_runs in H; [| apply initial_state_inv | reflexivity].
  destruct H as [st1 Hex Hrun | err st Hrun | exams st1 stl all_data db Hex Hne [Hrun Hlen]].
  - destruct Hrun as (_ & _ & H3 & _).
    split; [intros err Herr; discriminate Herr |].
    intros _. left. split; assumption.
  - destruct Hrun as (_ & _ & H3 & _).
    split; [intros _ _; exact H3 |].
    intro Hr. discriminate Hr.
  - destruct Hrun as (H1 & _ & H3 & _).
    split; [intros err Herr; discriminate Herr |].
    intros _. right.
    exists exams, st1, (trace stl), (master_index_of (progress stl) all_data),
      (closing_events db).
    cbn [trace]. split; [exact Hex |]. split; [exact Hne |].
    split; [reflexivity |]. split; [exact H3 |].
    split; [destruct db; auto |].
    split; [| exact H1].
    change (EvIndex (index_path cfg) (master_index_of (progress stl) all_data)
              :: closing_events db)
      with ([EvIndex (index_path cfg) (master_index_of (progress stl) all_data)]
              ++ closing_events db).
    rewrite !count_app, count_single, H3. cbn [is_index].
    destruct db; reflexivity.
Qed.

Lemma master_index_written_at_most_once_witness :
  let cfg := Examples.config "local" true 0 0 in
  let env := Examples.world [Examples.good_item] [Examples.good_item] in
  count is_index (trace (snd (main cfg env initial_state))) = 1%nat.
Proof.
  intros cfg env.
  destruct (main cfg env initial_state) as [r st] eqn:H.
  destruct (master_index_written_at_most_once cfg env r st H) as [_ Hdone].
  assert (Hr : r = Ok tt) by (vm_compute in H; inversion H; reflexivity).
  destruct (Hdone Hr) as [[Hex _] | (exams & st1 & walk & mi & closing & _ & _ & _ & _ & _ & Hone & _)].
  - vm_compute in Hex. discriminate Hex.
  - exact Hone.
Defined.

(** C7 as stated fails: when the catalog offers no exam, [main] returns
    normally and the master index is never written. *)
Lemma master_index_not_written_without_exams :
  let cfg := Examples.config "local" false 0 0 in
  fst (main cfg Examples.empty_world initial_state) = Ok tt /\
  count is_index (trace (snd (main cfg Examples.empty_world initial_state))) = 0%nat.
Proof. vm_compute. split; reflexivity. Qed.

(** C6 against the code.  [MAX_QUESTIONS = 1]; chapter C1 offers two items
    and chapter C2 one.  The quota is reached after the first item of C1:
    one line is written in all.  Yet chapter C2, which comes after, still
    has its output file opened, its row (with count 0) upserted and its
    summary (with count 0) listed in the master index. *)
Theorem chapters_after_item_quota_still_processed :
  let cfg := Examples.config "local" true 0 1 in
  let env := Examples.world [Examples.good_item; Examples.good_item] [Examples.good_item] in
  let tr := trace (snd (main cfg env initial_state)) in
  count is_line tr = 1%nat /\
  opened_files tr = ["getmarks_data/json/E1_S1_C1.jsonl"; "getmarks_data/json/E1_S1_C2.jsonl"] /\
  chapter_rows tr = [(Examples.C1, 1); (Examples.C2, 0)] /\
  index_entries tr = [[(Examples.C1, 1); (Examples.C2, 0)]].
Proof. vm_compute. repeat split; reflexivity. Qed.




(** C9.  Whatever a call of [process_chapter] writes, the [index] of each
    record in the output file, and the [question_index] of each database
    row (which is also the [index] of its payload), is the 0-based
    position in the fetched item list of the item the record was made
    from: it is not a count of the records written.  So the indices of a
    chapter can have gaps: for the items [good; bad; good] the records
    written carry the indices 0 and 2. *)
Theorem record_index_is_item_position :
  (forall cfg env exam subject chapter store db st r st' evs,
      let e := exam_id_of exam in
      let s := subject_id_of subject in
      let c := chapter_id_of chapter in
      let items := fetched_items env e s c st in
      process_chapter cfg env exam subject chapter store db st = (r, st') ->
      trace st' = trace st ++ evs ->
      (forall f p, In (EvJsonlLine f p) evs ->
         f = jsonl_file cfg env e s c /\
         normalised_at env e s c store items (index p) p) /\
      (forall rows row, In (EvDbInsertQuestions rows) evs -> In row rows ->
         question_index row = index (payload row) /\
         normalised_at env e s c store items (question_index row) (payload row))) /\
  written_indices
    (trace (snd (process_chapter (Examples.config "local" true 0 0)
                   (Examples.world [Examples.good_item; Examples.bad_item; Examples.good_item] [])
                   Examples.exam1 Examples.subject1 Examples.chapter1 Examples.local_store
                   true initial_state)))
  = [0%nat; 2%nat].
Proof.
  split; [| vm_compute; reflexivity].
  intros cfg env exam subject chapter store db st r st' evs e s c items Hpc Htr.
  destruct (process_chapter_positions cfg env exam subject chapter store db st r st' evs
              Hpc Htr) as [Hlines Hrows].
  split; [exact Hlines |].
  intros rows row Hin Hrow.
  destruct (Hrows rows row Hin Hrow) as (_ & _ & _ & Hidx & Hn).
  split; [symmetry; exact Hidx | exact Hn].
Qed.

Lemma record_index_is_item_position_witness :
  let cfg := Examples.config "local" true 0 0 in
  let env := Examples.world [Examples.good_item; Examples.bad_item; Examples.good_item] [] in
  Forall (fun ev =>
            match ev with
            | EvJsonlLine f p =>
                f = "getmarks_data/json/E1_S1_C1.jsonl" /\
                nth_error [Examples.good_item; Examples.bad_item; Examples.good_item] (index p)
                  = Some Examples.good_item
            | _ => True
            end)
    (trace (snd (process_chapter cfg env Examples.exam1 Examples.subject1 Examples.chapter1
                   Examples.local_store true initial_state))).
Proof.
  intros cfg env. apply Forall_forall. intros ev Hin.
  destruct ev as [| | | | | | f p | | | | | |]; try exact I.
  destruct (process_chapter cfg env Examples.exam1 Examples.subject1 Examples.chapter1
              Examples.local_store true initial_state) as [r st'] eqn:H.
  destruct (proj1 record_index_is_item_position cfg env Examples.exam1 Examples.subject1
              Examples.chapter1 Examples.local_store true initial_state r st' (trace st')
              H eq_refl) as [Hlines _].
  destruct (Hlines f p Hin) as (Hf & q & stq & stq' & Hnth & Hok).
  split; [rewrite Hf; reflexivity |].
  change (fetched_items env (exam_id_of Examples.exam1) (subject_id_of Examples.subject1)
            (chapter_id_of Examples.chapter1) initial_state)
    with [Examples.good_item; Examples.bad_item; Examples.good_item] in Hnth.
  revert Hnth Hok.
  destruct (index p) as [| [| [| n]]]; cbn [nth_error]; intros Hnth Hok.
  - reflexivity.
  - inversion Hnth. subst q. vm_compute in Hok. discriminate Hok.
  - reflexivity.
  - destruct n; discriminate Hnth.
Defined.

(** ** Further properties of the script *)

(** *** Strings and paths *)

Lemma get_Some_lt (s : string) : forall k c, String.get k s = Some c -> (k < String.length s)%nat.
Proof.
  induction s as [| a s IH]; intros k c H; simpl in *.
  - destruct k; discriminate H.
  - destruct k as [| k]; [lia |]. apply IH in H. lia.
Qed.

(** [rfind_from] answers [found] when the character does not occur, and
    otherwise the position of its last occurrence. *)
Lemma rfind_from_spec (c : ascii) (s : string) :
  forall i found,
    (rfind_from c s i found = found /\ forall k, String.get k s <> Some c) \/
    (exists k, rfind_from c s i found = i + Z.of_nat k /\
               String.get k s = Some c /\
               forall k', (k < k')%nat -> String.get k' s <> Some c).
Proof.
  induction s as [| a s IH]; intros i found; simpl.
  - left. split; [reflexivity |]. intros k. destruct k; discriminate.
  - destruct (IH (i + 1) (if Ascii.eqb a c then i else found))
      as [[Hr Hno] | (k & Hr & Hk & Hlast)].
    + destruct (Ascii.eqb a c) eqn:Eac.
      * right. exists 0%nat. apply Ascii.eqb_eq in Eac. subst a.
        split; [rewrite Hr; lia |]. split; [reflexivity |].
        intros k' Hlt. destruct k' as [| k']; [lia |]. apply Hno.
      * left. split; [exact Hr |].
        intros k. destruct k as [| k]; [| apply Hno].
        intro H. inversion H. subst a. rewrite Ascii.eqb_refl in Eac. discriminate Eac.
    + right. exists (S k). split; [rewrite Hr; lia |]. split; [exact Hk |].
      intros k' Hlt. destruct k' as [| k']; [lia |]. apply Hlast. lia.
Qed.

Lemma rfind_spec (c : ascii) (s : string) :
  (rfind c s = -1 /\ forall k, String.get k s <> Some c) \/
  (exists k, rfind c s = Z.of_nat k /\ String.get k s = Some c /\
             forall k', (k < k')%nat -> String.get k' s <> Some c).
Proof.
  unfold rfind. destruct (rfind_from_spec c s 0 (-1)) as [H | (k & Hr & H)].
  - left. exact H.
  - right. exists k. split; [rewrite Hr; lia | exact H].
Qed.

(** What [os.path.splitext] splits off is empty, or starts with a dot and
    holds no path separator. *)
Lemma splitext_ext_shape (p : string) :
  splitext_ext p = "" \/
  ((exists rest, splitext_ext p = String "." rest) /\
   forall k, String.get k (splitext_ext p) <> Some "/"%char).
Proof.
  unfold splitext_ext.
  destruct ((rfind "." p >? rfind "/" p) && _) eqn:Hc; [| left; reflexivity].
  right. apply andb_true_iff in Hc. destruct Hc as [Hgt _].
  apply Z.gtb_lt in Hgt.
  destruct (rfind_spec "." p) as [[Hd _] | (d & Hd & Hget & _)].
  { exfalso. destruct (rfind_spec "/" p) as [[Hs _] | (k & Hs & _)]; lia. }
  rewrite Hd in *. unfold str_from. rewrite Nat2Z.id.
  pose proof (get_Some_lt p d _ Hget) as Hlen.
  split.
  - assert (H0 : String.get 0 (substring d (String.length p - d) p) = Some "."%char).
    { rewrite substring_correct1 by lia. exact Hget. }
    destruct (substring d (String.length p - d) p) as [| a rest]; [discriminate H0 |].
    simpl in H0. inversion H0. eauto.
  - intros k.
    destruct (Nat.lt_ge_cases k (String.length p - d)) as [Hk | Hk].
    + rewrite substring_correct1 by exact Hk.
      destruct (rfind_spec "/" p) as [[_ Hno] | (ks & Hs & _ & Hlast)]; [apply Hno |].
      apply Hlast. lia.
    + rewrite substring_correct2 by exact Hk. discriminate.
Qed.

Lemma get_str_map f (s : string) :
  forall k, String.get k (str_map f s) = option_map f (String.get k s).
Proof.
  induction s as [| a s IH]; intros k; simpl.
  - destruct k; reflexivity.
  - destruct k; [reflexivity | apply IH].
Qed.

Lemma lower_ascii_slash c : lower_ascii c = "/"%char -> c = "/"%char.
Proof.
  destruct c as [[] [] [] [] [] [] [] []]; vm_compute; intro H;
    first [reflexivity | discriminate H].
Qed.

(** Lower-casing keeps the shape of an extension. *)
Lemma lower_ext_shape (ext : string) :
  ((exists rest, ext = String "." rest) /\ forall k, String.get k ext <> Some "/"%char) ->
  (exists rest, lower ext = String "." rest) /\
  forall k, String.get k (lower ext) <> Some "/"%char.
Proof.
  intros [[rest ->] Hno]. split.
  - exists (lower rest). reflexivity.
  - intros k H. unfold lower in H. rewrite get_str_map in H.
    destruct (String.get k (String "." rest)) as [a |] eqn:Hk; [| discriminate H].
    simpl in H. inversion H as [Ha]. apply lower_ascii_slash in Ha. subst a.
    exact (Hno k Hk).
Qed.

(** X1. Whatever [get_file_extension] returns starts with a dot and holds
    no [/]: appended to a file name it cannot open a new path component. *)
Theorem file_extension_is_a_suffix env url ct ext :
  get_file_extension env url ct = Ok ext ->
  (exists rest, ext = String "." rest) /\
  forall k, String.get k ext <> Some "/"%char.
Proof.
  unfold get_file_extension.
  destruct (urlparse_path env url) as [path |]; [| discriminate].
  destruct (splitext_ext_shape path) as [Hempty | Hshape].
  - rewrite Hempty. cbn [String.eqb negb].
    assert (Hconst : forall x, In x [".png"; ".jpg"; ".webp"; ".svg"] ->
              (exists rest, x = String "." rest) /\
              forall k, String.get k x <> Some "/"%char).
    { intros x Hx. simpl in Hx.
      destruct Hx as [<- | [<- | [<- | [<- | []]]]];
        (split; [eexists; reflexivity |]);
        intros k; do 6 (destruct k as [| k]; [discriminate |]); destruct k; discriminate. }
    repeat match goal with
           | |- (if ?b then _ else _) = _ -> _ => destruct b
           end;
      intro H; inversion H; subst ext; apply Hconst; simpl; auto.
  - destruct (String.eqb (splitext_ext path) "") eqn:E.
    + apply String.eqb_eq in E. destruct Hshape as [[rest Hr] _]. congruence.
    + cbn [negb]. intro H. inversion H. apply lower_ext_shape. exact Hshape.
Qed.

Lemma file_extension_is_a_suffix_witness :
  get_file_extension (Examples.world [] []) "https://cdn.example/Figure.PNG?size=2"
    (Some "image/webp") = Ok ".png" /\
  forall k, String.get k ".png" <> Some "/"%char.
Proof.
  assert (H : get_file_extension (Examples.world [] [])
                "https://cdn.example/Figure.PNG?size=2" (Some "image/webp") = Ok ".png")
    by (vm_compute; reflexivity).
  split; [exact H |].
  exact (proj2 (file_extension_is_a_suffix _ _ _ _ H)).
Defined.

Lemma substring_all (s : string) : substring 0 (String.length s) s = s.
Proof. induction s as [| a s IH]; simpl; [reflexivity | rewrite IH; reflexivity]. Qed.

(** A string is its prefix followed by what comes after it. *)
Lemma prefix_split (pre : string) :
  forall s, String.prefix pre s = true ->
            (pre ++ substring (String.length pre) (String.length s - String.length pre) s)%string = s.
Proof.
  induction pre as [| a pre IH]; intros s H.
  - simpl. rewrite Nat.sub_0_r. apply substring_all.
  - destruct s as [| b s]; [discriminate H |]. simpl in H.
    destruct (Ascii.ascii_dec a b) as [-> | Hne]; [| discriminate H].
    simpl. f_equal. apply IH. exact H.
Qed.

Lemma string_length_append (s1 s2 : string) :
  String.length (s1 ++ s2)%string = (String.length s1 + String.length s2)%nat.
Proof. induction s1 as [| a s1 IH]; simpl; [reflexivity | rewrite IH; reflexivity]. Qed.

Lemma string_append_assoc (s1 s2 s3 : string) :
  ((s1 ++ s2) ++ s3)%string = (s1 ++ s2 ++ s3)%string.
Proof. induction s1 as [| a s1 IH]; simpl; [reflexivity | rewrite IH; reflexivity]. Qed.

(** [relative_to] undoes the join with the root. *)
Lemma relative_to_round_trip root p rel :
  relative_to root p = Ok rel -> (root ++ "/" ++ rel)%string = p.
Proof.
  unfold relative_to, startswith.
  destruct (String.prefix (root ++ "/") p) eqn:Hp; [| discriminate].
  intro H. inversion H. subst rel.
  apply prefix_split in Hp. rewrite string_length_append in Hp. cbn [String.length] in Hp.
  unfold str_from.
  replace (Z.to_nat (Z.of_nat (String.length root) + 1)) with (String.length root + 1)%nat by lia.
  rewrite <- Hp at 3. symmetry. apply string_append_assoc.
Qed.

(** X2. With the "local" backend, when [download] returns a reference:
    the GET answered with a status that is no error, the body of the
    response is what was written, to [save_path] and nowhere else, and
    the reference returned is [save_path] relative to the output root. *)
Theorem local_download_round_trip env self url save_path st ref st' :
  backend self = "local" ->
  download env self url save_path st = (Ok (Some ref), st') ->
  (OUTPUT_DIR ++ "/" ++ ref)%string = save_path /\
  progress st' = progress st /\
  exists response,
    requests_get env (trace st ++ [EvDownload url save_path]) url = Some response /\
    ~ 400 <= status_code response < 600 /\
    trace st' = trace st ++ [EvDownload url save_path; EvImageGet url;
                             EvImageFile save_path (content response)].
Proof.
  intros Hb.
  unfold download, bind, emit, try_except, get_state, raise_for_status, raise, ret, lift.
  rewrite Hb. cbn [String.eqb Ascii.eqb Bool.eqb].
  destruct (String.eqb url "" || startswith url "/"); [discriminate |].
  cbn [trace progress].
  destruct (requests_get env (trace st ++ [EvDownload url save_path]) url) as [response |];
    [| discriminate].
  destruct ((400 <=? status_code response) && (status_code response <? 600)) eqn:Hs;
    [discriminate |].
  cbn [trace progress].
  destruct (image_write_ok env _ save_path); [| discriminate].
  cbn [trace progress].
  destruct (relative_to OUTPUT_DIR save_path) as [rel | err] eqn:Hrel.
  - intro H. inversion H. subst.
    split; [apply relative_to_round_trip; exact Hrel |].
    split; [reflexivity |].
    exists response. split; [reflexivity |]. split.
    + intros [H1 H2]. apply Z.leb_le in H1. apply Z.ltb_lt in H2.
      rewrite H1, H2 in Hs. discriminate Hs.
    + cbn [trace]. rewrite <- !app_assoc. reflexivity.
  - pose proof (relative_to_exn OUTPUT_DIR save_path) as Hexn. rewrite Hrel in Hexn.
    simpl in Hexn. rewrite Hexn. discriminate.
Qed.

Lemma local_download_round_trip_witness :
  let env := Examples.world [] [] in
  let path := "getmarks_data/images/E1/S1/C1/q_0000_sha25.png" in
  fst (download env Examples.local_store "https://cdn.example/q.png" path initial_state)
    = Ok (Some "images/E1/S1/C1/q_0000_sha25.png") /\
  (OUTPUT_DIR ++ "/" ++ "images/E1/S1/C1/q_0000_sha25.png")%string = path.
Proof.
  intros env path.
  destruct (download env Examples.local_store "https://cdn.example/q.png" path initial_state)
    as [r st'] eqn:H.
  assert (Hr : r = Ok (Some "images/E1/S1/C1/q_0000_sha25.png"))
    by (vm_compute in H; inversion H; reflexivity).
  subst r. split; [reflexivity |].
  exact (proj1 (local_download_round_trip env Examples.local_store _ _ _ _ _ eq_refl H)).
Defined.

(** X3. One call of [download] makes at most one GET and stores at most
    one asset, and it never stores without a GET; when it returns a
    reference it has made exactly one GET and stored exactly one asset. *)
Theorem download_one_fetch_one_store env self url save_path st r st' :
  download env self url save_path st = (r, st') ->
  exists evs,
    trace st' = trace st ++ evs /\
    (count is_fetch evs <= 1)%nat /\
    (count is_stored evs <= count is_fetch evs)%nat /\
    (forall ref, r = Ok (Some ref) -> count is_fetch evs = 1%nat /\ count is_stored evs = 1%nat).
Proof.
  unfold download, bind, emit, try_except, get_state, raise_for_status, raise, ret, lift.
  cbn [trace progress].
  repeat match goal with
         | |- context [match ?x with _ => _ end] =>
             match x with
             | context [match _ with _ => _ end] => fail 1
             | _ => destruct x; cbn [trace progress is_Exception]
             end
         end;
    intro H; inversion H; subst;
    eexists; (split; [cbn [trace]; rewrite <- ?app_assoc; reflexivity |]);
    unfold count; simpl; (split; [lia |]); (split; [lia |]);
    intros x Hx; first [discriminate Hx | split; reflexivity].
Qed.

Lemma download_one_fetch_one_store_witness :
  let run :=
    download (Examples.world [] []) Examples.s3_store "https://cdn.example/q.png"
      "getmarks_data/images/E1/S1/C1/q_0000_sha25.png" initial_state in
  fst run = Ok (Some "s3://pyq-bucket/getmarks/q_0000_sha25.png") /\
  count is_fetch (trace (snd run)) = 1%nat /\
  count is_stored (trace (snd run)) = 1%nat.
Proof.
  intro run.
  assert (Hr : fst run = Ok (Some "s3://pyq-bucket/getmarks/q_0000_sha25.png"))
    by (vm_compute; reflexivity).
  split; [exact Hr |].
  pose proof (surjective_pairing run) as Hp. unfold run at 1 in Hp.
  destruct (download_one_fetch_one_store _ _ _ _ _ _ _ Hp) as (evs & Ht & _ & _ & Hone).
  cbn [trace initial_state app] in Ht. rewrite Ht.
  exact (Hone _ Hr).
Defined.

(** *** The catalog *)

(** [make_request] never raises: it makes one request and returns the JSON
    body, or [None] when the transport fails, the status is an error or the
    body is not JSON. *)
Lemma make_request_returns env url st :
  make_request env url st =
    (Ok (api_data env (trace st) url),
     {| progress := progress st; trace := trace st ++ [EvApiGet url] |}).
Proof.
  unfold make_request, api_data, bind, emit, try_except, get_state, raise_for_status,
    raise, ret.
  cbn [trace progress].
  destruct (api_get env (trace st) url) as [response |]; [| reflexivity].
  destruct ((400 <=? api_status_code response) && (api_status_code response <? 600));
    [reflexivity |].
  destruct (api_json response); reflexivity.
Qed.

Lemma falsy_entries data :
  truthy data = false ->
  subject_entries data = [] /\ chapter_entries data = [] /\ exam_entries data = [].
Proof.
  destruct data as [| b | z | f | str | l | d]; simpl; intro H; try discriminate H;
    try (repeat split; reflexivity).
  destruct d; [repeat split; reflexivity | discriminate H].
Qed.

Lemma collect_subjects_spec l :
  forall acc r, collect_subjects l acc = Ok r -> r = acc ++ map subject_of l.
Proof.
  induction l as [| s l IH]; intros acc r H; simpl in H.
  - inversion H. symmetry. apply app_nil_r.
  - destruct s; try discriminate H. simpl in H.
    apply IH in H. rewrite H, <- app_assoc. reflexivity.
Qed.

Lemma collect_chapters_spec l :
  forall acc r, collect_chapters l acc = Ok r -> r = acc ++ map chapter_of l.
Proof.
  induction l as [| c l IH]; intros acc r H; simpl in H.
  - inversion H. symmetry. apply app_nil_r.
  - destruct c as [| | | | | | d]; try discriminate H. simpl in H.
    destruct (py_get match assoc "allPyqs" d with Some x => x | None => JDict [] end
                "totalQs" (JInt 0)) as [n | err] eqn:En; [| discriminate H].
    apply IH in H. rewrite H, <- app_assoc. unfold chapter_of, field, get_or. simpl.
    rewrite En. reflexivity.
Qed.

Lemma collect_exams_spec cfg env l :
  forall acc r, collect_exams cfg env l acc = Ok r ->
                r = acc ++ filter (kept_exam cfg env) (map exam_of l).
Proof.
  induction l as [| ex l IH]; intros acc r H; simpl in H.
  - inversion H. symmetry. apply app_nil_r.
  - destruct ex as [| | | | | | d]; try discriminate H. simpl in H.
    cbn [map filter].
    change (exam_of (JDict d))
      with {| exam_id_of := match assoc "examId" d with Some x => x | None => JNull end;
              exam_name := match assoc "title" d with Some x => x | None => JStr "" end;
              exam_icon := match assoc "icon" d with Some x => x | None => JDict [] end |}.
    unfold kept_exam at 1. cbn [exam_id_of exam_name].
    destruct (str_set (EXAM_ID_FILTER cfg) &&
              negb (py_eq_str match assoc "examId" d with Some x => x | None => JNull end
                      (fmt_opt (EXAM_ID_FILTER cfg)))) eqn:Ef.
    + apply IH in H. rewrite H.
      apply andb_true_iff in Ef. destruct Ef as [Ef1 Ef2]. apply negb_true_iff in Ef2.
      rewrite Ef1, Ef2. reflexivity.
    + assert (Hpass : negb (str_set (EXAM_ID_FILTER cfg)) ||
                      py_eq_str match assoc "examId" d with Some x => x | None => JNull end
                        (fmt_opt (EXAM_ID_FILTER cfg)) = true).
      { destruct (str_set (EXAM_ID_FILTER cfg)); [| reflexivity].
        simpl in Ef. apply negb_false_iff in Ef. exact Ef. }
      rewrite Hpass. cbn [andb].
      destruct (truthy match assoc "examId" d with Some x => x | None => JNull end).
      * destruct (match assoc "title" d with Some x => x | None => JStr "" end)
          as [| | | | t | |]; try discriminate H.
        destruct (str_contains "JEE" (str_upper env t) || str_contains "IIT" (str_upper env t)) eqn:Et;
          cbn [andb].
        -- apply IH in H. rewrite H, <- app_assoc. reflexivity.
        -- apply IH in H. exact H.
      * cbn [andb]. apply IH in H. exact H.
Qed.

(** X4. Whenever [get_subjects] returns, it has made one request and
    returns, in the order of the catalog, the subjects made of the entries
    of the answer that have a true [_id] and a true [title]; a request
    that fails, or an answer that is empty, gives the empty list.  The same
    holds of [get_chapters]. *)
Theorem subjects_and_chapters_are_filtered env e s st :
  (forall subs st',
      get_subjects env e st = (Ok subs, st') ->
      st' = {| progress := progress st;
               trace := trace st ++ [EvApiGet (URL_exam_subjects env e)] |} /\
      subs = filter kept_subject
               (map subject_of (subject_entries (api_data env (trace st) (URL_exam_subjects env e))))) /\
  (forall chs st',
      get_chapters env e s st = (Ok chs, st') ->
      st' = {| progress := progress st;
               trace := trace st ++ [EvApiGet (URL_subject_chapters env e s)] |} /\
      chs = filter kept_chapter
              (map chapter_of
                 (chapter_entries (api_data env (trace st) (URL_subject_chapters env e s))))) /\
  (truthy (api_data env (trace st) (URL_exam_subjects env e)) = false ->
   fst (get_subjects env e st) = Ok []) /\
  (truthy (api_data env (trace st) (URL_subject_chapters env e s)) = false ->
   fst (get_chapters env e s st) = Ok []).
Proof.
  split; [| split; [| split]].
  - intros subs st'. unfold get_subjects. unfold bind at 1. rewrite make_request_returns.
    destruct (truthy (api_data env (trace st) (URL_exam_subjects env e))) eqn:Ht; cbn [negb].
    + intro H. inv_ok H. apply ret_Ok in H. destruct H as [-> ->].
      split; [reflexivity |]. f_equal.
      match goal with
      | Hc : collect_subjects _ [] = Ok _ |- _ => apply collect_subjects_spec in Hc; rewrite Hc
      end.
      unfold subject_entries, get_or, items_of.
      repeat match goal with
             | Hx : _ = Ok _ |- _ => rewrite Hx; clear Hx
             end.
      reflexivity.
    + intro H. inversion H. split; [reflexivity |].
      destruct (falsy_entries _ Ht) as [-> _]. reflexivity.
  - intros chs st'. unfold get_chapters. unfold bind at 1. rewrite make_request_returns.
    destruct (truthy (api_data env (trace st) (URL_subject_chapters env e s))) eqn:Ht;
      cbn [negb].
    + intro H. inv_ok H. apply ret_Ok in H. destruct H as [-> ->].
      split; [reflexivity |]. f_equal.
      match goal with
      | Hc : collect_chapters _ [] = Ok _ |- _ => apply collect_chapters_spec in Hc; rewrite Hc
      end.
      unfold chapter_entries, get_or, items_of.
      repeat match goal with
             | Hx : _ = Ok _ |- _ => rewrite Hx; clear Hx
             end.
      reflexivity.
    + intro H. inversion H. split; [reflexivity |].
      destruct (falsy_entries _ Ht) as (_ & -> & _). reflexivity.
  - intro Ht. unfold get_subjects. unfold bind at 1. rewrite make_request_returns, Ht.
    reflexivity.
  - intro Ht. unfold get_chapters. unfold bind at 1. rewrite make_request_returns, Ht.
    reflexivity.
Qed.

Lemma subjects_and_chapters_are_filtered_witness :
  let env := Examples.world [] [] in
  fst (get_subjects env Examples.E1 initial_state) = Ok [Examples.subject1] /\
  fst (get_chapters env (JStr "E9") Examples.S1 initial_state) = Ok [].
Proof.
  intro env.
  destruct (subjects_and_chapters_are_filtered env Examples.E1 Examples.S1 initial_state)
    as (Hsubs & _ & _ & _).
  destruct (subjects_and_chapters_are_filtered env (JStr "E9") Examples.S1 initial_state)
    as (_ & _ & _ & Hnone).
  split; [| apply Hnone; reflexivity].
  destruct (get_subjects env Examples.E1 initial_state) as [[subs | err] st'] eqn:H;
    [| vm_compute in H; discriminate H].
  destruct (Hsubs subs st' eq_refl) as [_ ->]. reflexivity.
Defined.

Lemma get_jee_exams_spec cfg env st exams st' :
  get_jee_exams cfg env st = (Ok exams, st') ->
  exams = filter (kept_exam cfg env)
            (map exam_of (exam_entries (api_data env (trace st) URL_dashboard))) /\
  trace st' = trace st ++ [EvApiGet URL_dashboard] /\
  (exams <> [] -> total_exams (progress st') = Z.of_nat (List.length exams)).
Proof.
  intro H.
  revert H. unfold get_jee_exams. unfold bind at 1. rewrite make_request_returns.
  destruct (truthy (api_data env (trace st) URL_dashboard)) eqn:Ht; cbn [negb].
  - intro H.
    apply bind_Ok in H. destruct H as (d & s1 & E1 & H). apply lift_Ok in E1.
    destruct E1 as [E1 ->].
    apply bind_Ok in H. destruct H as (items & s2 & E2 & H). apply lift_Ok in E2.
    destruct E2 as [E2 ->].
    apply bind_Ok in H. destruct H as (l & s3 & E3 & H). apply lift_Ok in E3.
    destruct E3 as [E3 ->].
    apply bind_Ok in H. destruct H as (comp & s4 & E4 & H). apply lift_Ok in E4.
    destruct E4 as [E4 ->].
    assert (Hitems : items_of (get_or (get_or (api_data env (trace st) URL_dashboard)
                                         "data" (JDict [])) "items" (JList [])) = l).
    { unfold get_or, items_of. rewrite E1, E2, E3. reflexivity. }
    unfold exam_entries. rewrite Hitems, E4.
    destruct (truthy comp); cbn [negb] in H.
    + inv_ok H. apply ret_Ok in H. destruct H as [-> ->].
      match goal with
      | Hc : collect_exams _ _ _ [] = Ok _ |- _ => apply collect_exams_spec in Hc; rewrite Hc
      end.
      unfold get_or, items_of.
      repeat match goal with
             | Hx : _ = Ok _ |- _ => rewrite Hx; clear Hx
             end.
      split; [reflexivity |].
      match goal with
      | Hs : set_total_exams _ _ = _ |- _ =>
          unfold set_total_exams, bind, get_state, set_progress in Hs; inversion Hs; subst
      end.
      cbn [progress trace total_exams]. split; [reflexivity |]. intros _. reflexivity.
    + apply ret_Ok in H. destruct H as [-> ->]. cbn [progress trace].
      split; [reflexivity |]. split; [reflexivity |]. intro Hne. contradiction Hne. reflexivity.
  - intro H. inversion H. subst. cbn [trace].
    destruct (falsy_entries _ Ht) as (_ & _ & ->).
    split; [reflexivity |]. split; [reflexivity |]. intro Hne. contradiction Hne. reflexivity.
Qed.

(** X5. Whenever [get_jee_exams] returns, it has made one request and
    returns, in the order of the dashboard, the exams made of the entries
    of the "ChapterwiseExams" component that pass the exam filter, have a
    true identifier and carry JEE or IIT in their title (in any case);
    when it returns some, [progress.total_exams] is their number. *)
Theorem exams_are_filtered cfg env st exams st' :
  get_jee_exams cfg env st = (Ok exams, st') ->
  exams = filter (kept_exam cfg env)
            (map exam_of (exam_entries (api_data env (trace st) URL_dashboard))) /\
  Forall (fun ex => kept_exam cfg env ex = true) exams /\
  trace st' = trace st ++ [EvApiGet URL_dashboard] /\
  (exams <> [] -> total_exams (progress st') = Z.of_nat (List.length exams)).
Proof.
  intro H.
  destruct (get_jee_exams_spec _ _ _ _ _ H) as (Heq & Htr & Htot).
  split; [exact Heq |]. split; [| split; assumption].
  rewrite Heq. apply Forall_forall. intros ex Hin. apply filter_In in Hin. apply Hin.
Qed.

Lemma exams_are_filtered_witness :
  let env := Demo.env []
    [(URL_dashboard,
      JDict [("data", JDict [("items",
        JList [JDict [("componentTitle", JStr "Banner")];
               JDict [("componentTitle", JStr "ChapterwiseExams");
                      ("items", JList [JDict [("examId", JStr "E1"); ("title", JStr "Jee Main")];
                                       JDict [("examId", JStr "E2"); ("title", JStr "NEET")];
                                       JDict [("title", JStr "IIT JAM")];
                                       JDict [("examId", JStr "E4");
                                              ("title", JStr "BITSAT / iit")]])]])])])] in
  map exam_id_of (fst_exams (get_jee_exams (Examples.config "local" false 0 0) env initial_state))
  = [JStr "E1"; JStr "E4"].
Proof.
  intro env. unfold fst_exams.
  destruct (get_jee_exams (Examples.config "local" false 0 0) env initial_state)
    as [[exams | err] st'] eqn:H; [| vm_compute in H; discriminate H].
  destruct (exams_are_filtered _ _ _ _ _ H) as [-> _].
  vm_compute. reflexivity.
Defined.

(** X6. [get_questions] returns what the answer holds under
    [data.questions], or the empty list when the request fails or when
    that value is false.  An answer that is true but is not a mapping (a
    non-empty list, a number, a string) is not caught anywhere: each of the
    four catalog functions then raises [AttributeError]. *)
Theorem catalog_answer_shape cfg env e s c st :
  (forall raw st',
      get_questions env e s c st = (Ok raw, st') ->
      raw = py_or (get_or (get_or (api_data env (trace st) (URL_chapter_questions env e s c))
                             "data" (JDict [])) "questions" (JList [])) (JList [])) /\
  (truthy (api_data env (trace st) (URL_chapter_questions env e s c)) = false ->
   fst (get_questions env e s c st) = Ok (JList [])) /\
  (non_mapping (api_data env (trace st) (URL_chapter_questions env e s c)) = true ->
   fst (get_questions env e s c st) = Raise AttributeError) /\
  (non_mapping (api_data env (trace st) (URL_subject_chapters env e s)) = true ->
   fst (get_chapters env e s st) = Raise AttributeError) /\
  (non_mapping (api_data env (trace st) (URL_exam_subjects env e)) = true ->
   fst (get_subjects env e st) = Raise AttributeError) /\
  (non_mapping (api_data env (trace st) URL_dashboard) = true ->
   fst (get_jee_exams cfg env st) = Raise AttributeError).
Proof.
  assert (Hget : forall v dflt, non_mapping v = true ->
            truthy v = true /\ py_get v "data" dflt = Raise AttributeError).
  { intros v dflt H. unfold non_mapping in H. apply andb_true_iff in H.
    destruct H as [Ht Hd]. split; [exact Ht |].
    destruct v; try reflexivity. discriminate Hd. }
  split; [| split; [| split; [| split; [| split]]]].
  - intros raw st'. unfold get_questions. unfold bind at 1. rewrite make_request_returns.
    destruct (truthy (api_data env (trace st) (URL_chapter_questions env e s c))) eqn:Ht;
      cbn [negb].
    + intro H. inv_ok H. apply ret_Ok in H. destruct H as [-> _].
      unfold get_or.
      repeat match goal with
             | Hx : _ = Ok _ |- _ => rewrite Hx; clear Hx
             end.
      reflexivity.
    + intro H. inversion H.
      destruct (api_data env (trace st) (URL_chapter_questions env e s c))
        as [| b | z | f | str | l | d]; simpl in Ht; try discriminate Ht; try reflexivity.
      destruct d; [reflexivity | discriminate Ht].
  - intro Ht. unfold get_questions. unfold bind at 1. rewrite make_request_returns, Ht.
    reflexivity.
  - intro H. destruct (Hget _ (JDict []) H) as [Ht Hg].
    unfold get_questions. unfold bind at 1. rewrite make_request_returns, Ht.
    cbn [negb]. unfold bind, lift. rewrite Hg. reflexivity.
  - intro H. destruct (Hget _ (JDict []) H) as [Ht Hg].
    unfold get_chapters. unfold bind at 1. rewrite make_request_returns, Ht.
    cbn [negb]. unfold bind, lift. rewrite Hg. reflexivity.
  - intro H. destruct (Hget _ (JDict []) H) as [Ht Hg].
    unfold get_subjects. unfold bind at 1. rewrite make_request_returns, Ht.
    cbn [negb]. unfold bind, lift. rewrite Hg. reflexivity.
  - intro H. destruct (Hget _ (JDict []) H) as [Ht Hg].
    unfold get_jee_exams. unfold bind at 1. rewrite make_request_returns, Ht.
    cbn [negb]. unfold bind, lift. rewrite Hg. reflexivity.
Qed.

Lemma catalog_answer_shape_witness :
  let cfg := Examples.config "local" false 0 0 in
  let env := Examples.world [Examples.good_item] [] in
  fst (get_questions env Examples.E1 Examples.S1 Examples.C1 initial_state)
    = Ok (JList [Examples.good_item]) /\
  fst (get_questions env Examples.E1 Examples.S1 (JStr "C9") initial_state) = Ok (JList []) /\
  fst (get_jee_exams cfg (Demo.env [] [(URL_dashboard, JInt 7)]) initial_state)
    = Raise AttributeError.
Proof.
  intros cfg env.
  destruct (catalog_answer_shape cfg env Examples.E1 Examples.S1 Examples.C1 initial_state)
    as (Hraw & _).
  destruct (catalog_answer_shape cfg env Examples.E1 Examples.S1 (JStr "C9") initial_state)
    as (_ & Hnone & _).
  destruct (catalog_answer_shape cfg (Demo.env [] [(URL_dashboard, JInt 7)])
              Examples.E1 Examples.S1 Examples.C1 initial_state)
    as (_ & _ & _ & _ & _ & Hbad).
  split; [| split; [apply Hnone; reflexivity | apply Hbad; reflexivity]].
  destruct (get_questions env Examples.E1 Examples.S1 Examples.C1 initial_state)
    as [[raw | err] st'] eqn:H; [| vm_compute in H; discriminate H].
  rewrite (Hraw raw st' eq_refl). reflexivity.
Defined.

(** *** Which items process_question normalises *)

Lemma returns_ret {A} (a : A) : returns (ret a).
Proof. intro st. exists a, st. reflexivity. Qed.

Lemma returns_bind {A B} (m : M A) (k : A -> M B) :
  returns m -> (forall a, returns (k a)) -> returns (bind m k).
Proof.
  intros Hm Hk st. destruct (Hm st) as (a & st1 & E).
  unfold bind. rewrite E. apply Hk.
Qed.

Lemma returns_lift_bind {A B} (r : Exc A) (k : A -> M B) a :
  r = Ok a -> returns (k a) -> returns (bind (lift r) k).
Proof. intros -> Hk st. unfold bind, lift. apply Hk. Qed.

Lemma download_returns env store url save_path : returns (download env store url save_path).
Proof. intro st. apply download_Ok. Qed.

Lemma get_file_extension_Ok env url ct path :
  urlparse_path env url = Some path -> exists ext, get_file_extension env url ct = Ok ext.
Proof.
  intro H. unfold get_file_extension. rewrite H.
  repeat match goal with
         | |- exists _, (if ?b then _ else _) = _ => destruct b
         end; eauto.
Qed.

(** An image to store: the step returns exactly when the reference is
    usable. *)
Lemma image_step_returns env store img_dir tag idx img :
  image_ok env img = true ->
  returns (if truthy img then store_image env store img_dir tag idx img else ret None).
Proof.
  unfold image_ok. intro H.
  destruct (truthy img); [| apply returns_ret].
  cbn [negb orb] in H.
  destruct img as [| | | | url | |]; try discriminate H.
  destruct (sha1_hex env url) as [h |] eqn:Hh; [| discriminate H].
  destruct (urlparse_path env url) as [path |] eqn:Hu; [| discriminate H].
  destruct (get_file_extension_Ok env url None path Hu) as [ext Hext].
  unfold store_image.
  eapply returns_lift_bind; [cbn [sha1_hash]; rewrite Hh; reflexivity |].
  eapply returns_lift_bind; [exact Hext |].
  apply returns_bind; [apply download_returns | intro r; apply returns_ret].
Qed.

Lemma image_step_Ok env store img_dir tag idx img st r st' :
  (if truthy img then store_image env store img_dir tag idx img else ret None) st
    = (Ok r, st') ->
  image_ok env img = true.
Proof.
  unfold image_ok. destruct (truthy img); [| reflexivity].
  cbn [negb orb]. intro H. unfold store_image in H. inv_ok H.
  destruct img as [| | | | url | |];
    try match goal with Hs : sha1_hash _ _ = Ok _ |- _ => discriminate Hs end.
  inv_ok H.
  match goal with
  | Hs : sha1_hash _ _ = Ok _ |- _ => cbn [sha1_hash] in Hs
  end.
  match goal with
  | Hg : get_file_extension _ _ _ = Ok _ |- _ => unfold get_file_extension in Hg
  end.
  destruct (sha1_hex env url); [| discriminate].
  destruct (urlparse_path env url); [reflexivity | discriminate].
Qed.

Lemma process_options_returns env store img_dir idx opts :
  forallb (choice_ok env) opts = true ->
  forall i acc cl, returns (process_options env store img_dir idx i opts acc cl).
Proof.
  induction opts as [| opt rest IH]; intros Hok i acc cl; simpl.
  - apply returns_ret.
  - simpl in Hok. apply andb_true_iff in Hok. destruct Hok as [Hopt Hrest].
    unfold choice_ok in Hopt. apply andb_true_iff in Hopt. destruct Hopt as [Hd Himg].
    destruct opt as [| | | | | | d]; try discriminate Hd.
    eapply returns_lift_bind; [reflexivity |].
    eapply returns_lift_bind; [reflexivity |].
    eapply returns_lift_bind; [reflexivity |].
    eapply returns_lift_bind; [reflexivity |].
    apply returns_bind.
    + apply image_step_returns. exact Himg.
    + intro r. apply IH. exact Hrest.
Qed.

Lemma process_options_Ok env store img_dir idx opts :
  forall i acc cl st r st',
    process_options env store img_dir idx i opts acc cl st = (Ok r, st') ->
    forallb (choice_ok env) opts = true.
Proof.
  induction opts as [| opt rest IH]; intros i acc cl st r st' H; simpl in H.
  - reflexivity.
  - inv_ok H. simpl. apply IH in H. rewrite H, andb_true_r.
    unfold choice_ok.
    destruct opt as [| | | | | | d];
      try match goal with Hg : py_get _ "text" _ = Ok _ |- _ => discriminate Hg end.
    cbn [is_dict andb].
    match goal with
    | Hi : py_get (JDict d) "image" JNull = Ok ?img,
      Hs : (if truthy ?img then _ else _) _ = _ |- _ =>
        apply image_step_Ok in Hs; unfold field; rewrite Hi; exact Hs
    end.
Qed.

Lemma process_question_well_formed env q e s c idx store st p st' :
  process_question env q e s c idx store st = (Ok p, st') ->
  well_formed env q e s c = true.
Proof.
  intro H. unfold process_question in H. inv_ok H.
  unfold well_formed.
  destruct e; try match goal with Hx : path_div_json IMAGES_DIR _ = Ok _ |- _ => discriminate Hx end.
  destruct s; try match goal with Hx : path_div_json _ _ = Ok _ |- _ => discriminate Hx end.
  destruct c; try match goal with Hx : path_div_json _ _ = Ok _ |- _ => discriminate Hx end.
  destruct q as [| | | | | | d];
    try match goal with Hx : py_get _ "type" JNull = Ok _ |- _ => discriminate Hx end.
  cbn [is_str is_dict andb].
  repeat match goal with
         | Hx : py_get (JDict d) ?k JNull = Ok ?v |- _ =>
             assert (field (JDict d) k = v) by (unfold field; rewrite Hx; reflexivity);
             subst v; clear Hx
         end.
  apply andb_true_iff; split; [apply andb_true_iff; split; [apply andb_true_iff; split |] |].
  - unfold papers_ok.
    match goal with
    | H0 : py_item0 ?v = Ok ?paper, H1 : py_get ?paper "title" _ = Ok _ |- _ =>
        remember v as w eqn:Ew; clear Ew;
        destruct w as [| | | | str | papers |]; try discriminate H0;
        [ destruct str; [discriminate H0 |]; simpl in H0; inversion H0; subst paper;
          discriminate H1
        | destruct papers as [| j papers]; [discriminate H0 |];
          simpl in H0; inversion H0; subst paper;
          destruct j; try discriminate H1; reflexivity ]
    end.
  - unfold part_ok.
    match goal with
    | H0 : py_get (py_or ?v (JDict [])) "text" _ = Ok _,
      H1 : py_get (py_or ?v (JDict [])) "image" JNull = Ok ?img,
      H2 : (if truthy ?img then store_image _ _ _ "q_" _ _ else _) _ = _ |- _ =>
        apply image_step_Ok in H2;
        remember (py_or v (JDict [])) as w eqn:Ew; clear Ew;
        destruct w; try discriminate H0;
        unfold field; rewrite H1, H2; reflexivity
    end.
  - unfold choices_ok.
    match goal with
    | H0 : py_iter _ = Ok ?opts, H1 : process_options _ _ _ _ _ ?opts _ _ _ = _ |- _ =>
        rewrite H0; apply process_options_Ok in H1; exact H1
    end.
  - unfold part_ok.
    match goal with
    | H0 : py_get (py_or ?v (JDict [])) "text" _ = Ok _,
      H1 : py_get (py_or ?v (JDict [])) "image" JNull = Ok ?img,
      H2 : (if truthy ?img then store_image _ _ _ "sol_" _ _ else _) _ = _ |- _ =>
        apply image_step_Ok in H2;
        remember (py_or v (JDict [])) as w eqn:Ew; clear Ew;
        destruct w; try discriminate H0;
        unfold field; rewrite H1, H2; reflexivity
    end.
Qed.

Lemma part_ok_inv env v :
  part_ok env v = true ->
  exists d, py_or v (JDict []) = JDict d /\
            image_ok env (field (JDict d) "image") = true.
Proof.
  unfold part_ok. intro H. apply andb_true_iff in H. destruct H as [Hd Hi].
  destruct (py_or v (JDict [])) as [| | | | | | d]; try discriminate Hd.
  exists d. split; [reflexivity | exact Hi].
Qed.

Lemma process_question_mkdir env q e s c idx store st p st' :
  process_question env q e s c idx store st = (Ok p, st') ->
  mkdir env (trace st) (image_dir e s c) = None.
Proof.
  intro H. unfold process_question in H.
  apply bind_Ok in H. destruct H as (d1 & s1 & E1 & H).
  apply lift_Ok in E1. destruct E1 as [E1 ->].
  apply bind_Ok in H. destruct H as (d2 & s2 & E2 & H).
  apply lift_Ok in E2. destruct E2 as [E2 ->].
  apply bind_Ok in H. destruct H as (d3 & s3 & E3 & H).
  apply lift_Ok in E3. destruct E3 as [E3 ->].
  apply bind_Ok in H. destruct H as (u & s4 & E4 & _).
  apply io_Ok in E4. destruct E4 as [E4 _].
  destruct e; try discriminate E1. destruct s; try discriminate E2.
  destruct c; try discriminate E3.
  cbn [path_div_json] in E1, E2, E3. inversion E1. inversion E2. inversion E3. subst.
  exact E4.
Qed.

Lemma well_formed_returns env q e s c idx store st :
  well_formed env q e s c = true ->
  mkdir env (trace st) (image_dir e s c) = None ->
  exists p st', process_question env q e s c idx store st = (Ok p, st').
Proof.
  unfold well_formed. intros H Hmk.
  repeat match type of H with
         | (_ && _)%bool = true =>
             let H' := fresh "W" in apply andb_true_iff in H; destruct H as [H H']
         end.
  destruct e; try discriminate H.
  destruct s; try discriminate W5.
  destruct c; try discriminate W4.
  destruct q as [| | | | | | d]; try discriminate W3.
  apply part_ok_inv in W1. destruct W1 as (dq & Eq & Iq).
  apply part_ok_inv in W. destruct W as (ds & Es & Is).
  unfold papers_ok in W2. unfold choices_ok in W0.
  unfold field in Eq, Es, W2, W0, Iq, Is. simpl py_get in Eq, Es, W2, W0, Iq, Is.
  unfold process_question.
  unfold bind at 1, lift at 1. cbn [path_div_json].
  unfold bind at 1, lift at 1. cbn [path_div_json].
  unfold bind at 1, lift at 1. cbn [path_div_json].
  unfold bind at 1, io at 1. cbn [image_dir] in Hmk. rewrite Hmk.
  match goal with
  | |- exists p st', ?m st = _ => cut (returns m); [intro Hr; exact (Hr st) |]
  end.
  do 3 (eapply returns_lift_bind; [reflexivity |]).
  destruct (py_or _ (JList [JDict []])) as [| | | | | [| paper papers] |] eqn:Ep;
    try discriminate W2.
  destruct paper as [| | | | | | dp]; try discriminate W2.
  do 3 (eapply returns_lift_bind; [reflexivity |]).
  cbv zeta. rewrite Eq.
  do 2 (eapply returns_lift_bind; [reflexivity |]).
  apply returns_bind; [apply image_step_returns; exact Iq | intro q_ref].
  eapply returns_lift_bind; [reflexivity |].
  destruct (py_iter _) as [opts |] eqn:Eo; [| discriminate W0].
  eapply returns_lift_bind; [reflexivity |].
  apply returns_bind; [apply process_options_returns; exact W0 | intros [po cl]].
  do 3 (eapply returns_lift_bind; [reflexivity |]).
  rewrite Es.
  do 2 (eapply returns_lift_bind; [reflexivity |]).
  apply returns_bind; [apply image_step_returns; exact Is | intro sol_ref].
  apply returns_ret.
Qed.

(** X7. Which items [process_question] normalises.  The call returns a
    record exactly when the directory of the chapter's images can be
    created and the item is well formed: the three identifiers are strings
    (they are joined to a path), the item is a dict, [previousYearPapers]
    is false or a list that starts with a dict, [question] and [solution]
    are each false or a dict whose [image] is false or a string that can
    be encoded and that [urlparse] accepts, and [options] is false or a
    list of dicts with such an image (an empty string or dict counts as
    false).  What the image hosts answer plays no part: a failed download
    never makes the call fail. *)
Theorem process_question_returns_iff env q e s c idx store st :
  (exists p st', process_question env q e s c idx store st = (Ok p, st')) <->
  well_formed env q e s c = true /\ mkdir env (trace st) (image_dir e s c) = None.
Proof.
  split.
  - intros (p & st' & H). split.
    + exact (process_question_well_formed _ _ _ _ _ _ _ _ _ _ H).
    + exact (process_question_mkdir _ _ _ _ _ _ _ _ _ _ H).
  - intros [H Hmk]. exact (well_formed_returns env q e s c idx store st H Hmk).
Qed.

Lemma process_question_returns_iff_witness :
  well_formed (Examples.world [] []) Examples.picture_item Examples.E1 Examples.S1 Examples.C1
    = true /\
  (exists p st',
      process_question (Examples.world [] []) Examples.picture_item Examples.E1 Examples.S1
        Examples.C1 0 Examples.local_store initial_state = (Ok p, st')) /\
  ~ (exists p st',
      process_question (Examples.world [] []) Examples.bad_item Examples.E1 Examples.S1
        Examples.C1 0 Examples.local_store initial_state = (Ok p, st')).
Proof.
  split; [reflexivity |]. split.
  - apply (proj2 (process_question_returns_iff _ _ _ _ _ _ _ _)). split; reflexivity.
  - intro H. apply (proj1 (process_question_returns_iff _ _ _ _ _ _ _ _)) in H.
    destruct H as [H _]. discriminate H.
Defined.

(** *** What a record keeps of its item *)

Lemma process_options_texts env store img_dir idx opts :
  forall i acc cl st acc' cl' st',
    process_options env store img_dir idx i opts acc cl st = (Ok (acc', cl'), st') ->
    map opt_text acc' = map opt_text acc ++ map (fun o => get_or o "text" (JStr "")) opts /\
    map is_correct acc' =
      map is_correct acc ++ map (fun o => get_or o "isCorrect" (JBool false)) opts.
Proof.
  induction opts as [| opt rest IH]; intros i acc cl st acc' cl' st' H; simpl in H.
  - apply ret_Ok in H. destruct H as [H _]. inversion H. subst.
    cbn [map]. rewrite !app_nil_r. split; reflexivity.
  - inv_ok H. apply IH in H. destruct H as [Ht Hc].
    rewrite Ht, Hc, !map_app. cbn [map opt_text is_correct].
    unfold get_or.
    repeat match goal with
           | Hx : py_get opt _ _ = Ok _ |- _ => rewrite Hx; clear Hx
           end.
    rewrite <- !app_assoc. split; reflexivity.
Qed.

(** X8. The texts of a record are read off the item alone, whatever the
    world answers: the type and the level as they stand, the title of the
    first previous paper, the [text] of the body and of the solution
    (the empty string when absent), and one option for each choice, in
    choice order, with the choice's [text] (default the empty string) and
    its [isCorrect] flag as it stands (default [False]). *)
Theorem record_keeps_texts_and_choices env q e s c idx store st p st' :
  process_question env q e s c idx store st = (Ok p, st') ->
  type_ p = field q "type" /\
  difficulty p = field q "level" /\
  pyq_info p = get_or (first_paper q) "title" (JStr "") /\
  text (question p) = get_or (part_of q "question") "text" (JStr "") /\
  text (solution p) = get_or (part_of q "solution") "text" (JStr "") /\
  map opt_text (options p) = map (fun o => get_or o "text" (JStr "")) (question_options q) /\
  map is_correct (options p) =
    map (fun o => get_or o "isCorrect" (JBool false)) (question_options q).
Proof.
  intro H. unfold process_question in H. inv_ok H.
  apply ret_Ok in H. destruct H as [-> _].
  cbn [type_ difficulty pyq_info question solution text options].
  match goal with
  | H1 : py_get q "options" JNull = Ok ?o0, H2 : py_iter (py_or ?o0 _) = Ok ?opts |- _ =>
      rewrite (question_options_eq q o0 opts H1 H2)
  end.
  match goal with
  | H : process_options _ _ _ _ _ _ _ _ _ = _ |- _ =>
      apply process_options_texts in H; destruct H as [Ht Hc]; rewrite Ht, Hc
  end.
  match goal with
  | H1 : py_get q "type" JNull = Ok ?x, H2 : py_get q "type" JNull = Ok ?y |- _ =>
      first [constr_eq x y; fail 1 | assert (y = x) by congruence; subst y]
  end.
  unfold first_paper, part_of, get_or, field.
  repeat match goal with
         | H : _ = Ok _ |- _ => rewrite H; clear H
         end.
  repeat split; reflexivity.
Qed.

Lemma record_keeps_texts_and_choices_witness :
  let run :=
    process_question (Examples.world [] []) Examples.good_item Examples.E1 Examples.S1
      Examples.C1 0 Examples.local_store initial_state in
  exists p,
    fst run = Ok p /\
    text (question p) = JStr "2 + 2 = ?" /\
    text (solution p) = JStr "" /\
    map opt_text (options p) = [JStr "3"; JStr "4"] /\
    map is_correct (options p) = [JBool false; JBool true].
Proof.
  intro run.
  destruct run as [[p | err] st'] eqn:H; [| vm_compute in H; discriminate H].
  exists p. split; [reflexivity |].
  unfold run in H.
  destruct (record_keeps_texts_and_choices _ _ _ _ _ _ _ _ _ _ H)
    as (_ & _ & _ & Hq & Hs & Ht & Hc).
  rewrite Hq, Hs, Ht, Hc. repeat split; reflexivity.
Defined.

(** *** The images a record refers to *)

Lemma quiet_extends {A} P (m : M A) st r st' : quiet P m -> m st = (r, st') -> extends st st'.
Proof.
  intros Hq H. destruct (Hq st) as [_ [evs [Ht _]]]. rewrite H in Ht.
  exists evs. exact Ht.
Qed.

Lemma stored_since_extends store st0 st1 st2 st3 ref :
  extends st0 st1 -> stored_since store st1 st2 ref -> extends st2 st3 ->
  stored_since store st0 st3 ref.
Proof.
  intros [e1 H1] (pre & ev & post & H2 & Hn) [e3 H3].
  exists (e1 ++ pre), ev, (post ++ e3). split; [| exact Hn].
  rewrite H3, H2, H1, <- !app_assoc. reflexivity.
Qed.

Lemma extends_refl st : extends st st.
Proof. exists []. symmetry. apply app_nil_r. Qed.

Lemma download_stored env store url save_path st ref st' :
  download env store url save_path st = (Ok (Some ref), st') ->
  stored_since store st st' ref.
Proof.
  unfold download, bind, emit, try_except, get_state, raise_for_status, raise, ret, lift.
  destruct (String.eqb url "" || startswith url "/"); [discriminate |].
  cbn [trace progress].
  destruct (requests_get env (trace st ++ [EvDownload url save_path]) url) as [response |];
    [| discriminate].
  destruct ((400 <=? status_code response) && (status_code response <? 600));
    [discriminate |].
  cbn [trace progress].
  destruct (String.eqb (backend store) "local").
  - destruct (image_write_ok env _ save_path); [| discriminate].
    cbn [trace progress].
    destruct (relative_to OUTPUT_DIR save_path) as [rel | err] eqn:Hrel.
    + intro H. inversion H. subst.
      exists [EvDownload url save_path; EvImageGet url],
             (EvImageFile save_path (content response)), [].
      split; [cbn [trace]; rewrite <- !app_assoc; reflexivity |].
      apply relative_to_round_trip. exact Hrel.
    + destruct (is_Exception err); discriminate.
  - destruct (String.eqb (backend store) "s3"); [| discriminate].
    destruct (get_file_extension env url (content_type response)) as [ext | err].
    2: { destruct (is_Exception err); discriminate. }
    cbn [trace progress].
    destruct (s3_client store); cbn [negb]; [| discriminate].
    destruct (s3_upload_ok env _ _); [| discriminate].
    intro H. inversion H. subst.
    eexists [EvDownload url save_path; EvImageGet url], (EvS3Upload _ _), [].
    split; [cbn [trace]; rewrite <- !app_assoc; reflexivity |].
    split; reflexivity.
Qed.

Lemma image_step_quiet env store img_dir tag idx img :
  quiet is_image_ev
    (if truthy img then store_image env store img_dir tag idx img else ret None).
Proof. destruct (truthy img); [apply store_image_quiet | apply quiet_ret]. Qed.

Lemma image_step_stored env store img_dir tag idx img st ref st' :
  (if truthy img then store_image env store img_dir tag idx img else ret None) st
    = (Ok (Some ref), st') ->
  stored_since store st st' ref.
Proof.
  destruct (truthy img); [| discriminate].
  intro H. unfold store_image in H. inv_ok H.
  destruct img; try (unfold raise in H; discriminate H).
  inv_ok H. apply ret_Ok in H. destruct H as [H ->].
  match goal with
  | Hd : download _ _ _ _ _ = (Ok ?r, _) |- _ =>
      destruct r as [r0 |]; [| discriminate H];
      destruct (str_set (Some r0)); [| discriminate H];
      inversion H; subst; exact (download_stored _ _ _ _ _ _ _ Hd)
  end.
Qed.

Lemma process_options_stored env store img_dir idx opts :
  forall i acc cl st acc' cl' st',
    process_options env store img_dir idx i opts acc cl st = (Ok (acc', cl'), st') ->
    forall ref,
      In ref (flat_map (fun o => option_list (opt_image o)) acc') ->
      In ref (flat_map (fun o => option_list (opt_image o)) acc) \/
      stored_since store st st' ref.
Proof.
  induction opts as [| opt rest IH]; intros i acc cl st acc' cl' st' H ref Hin; simpl in H.
  - apply ret_Ok in H. destruct H as [H _]. inversion H. subst. left. exact Hin.
  - inv_ok H.
    match goal with
    | Hs : (if truthy _ then _ else _) st = (Ok ?r, ?s1) |- _ =>
        pose proof (quiet_extends _ _ _ _ _ (image_step_quiet _ _ _ _ _ _) Hs) as Hext1;
        pose proof (quiet_extends _ _ _ _ _
                      (process_options_quiet env store img_dir idx rest _ _ _) H) as Hext2;
        destruct (IH _ _ _ _ _ _ _ H ref Hin) as [Hacc | Hst];
        [ rewrite flat_map_app in Hacc; apply in_app_or in Hacc;
          destruct Hacc as [Hacc | Hnew];
          [ left; exact Hacc
          | right; cbn [flat_map opt_image] in Hnew; rewrite app_nil_r in Hnew;
            destruct r as [r0 |]; [| destruct Hnew];
            destruct Hnew as [-> | []];
            apply (stored_since_extends store st st s1 st' ref (extends_refl st));
            [exact (image_step_stored _ _ _ _ _ _ _ _ _ Hs) | exact Hext2] ]
        | right;
          apply (stored_since_extends store st s1 st' st' ref Hext1 Hst (extends_refl st')) ]
    end.
Qed.

(** X9. Every image reference of a record names an asset that this very
    call stored: with the "local" backend the file [OUTPUT_DIR/ref] was
    written, with the "s3" backend the object whose URL the reference is
    was uploaded to the store's bucket.  A record never refers to an image
    whose download failed. *)
Theorem record_images_were_stored env q e s c idx store st p st' :
  process_question env q e s c idx store st = (Ok p, st') ->
  forall ref, In ref (image_refs p) -> stored_since store st st' ref.
Proof.
  intro H. unfold process_question in H. inv_ok H.
  apply ret_Ok in H. destruct H as [-> ->].
  intros ref Hin. unfold image_refs in Hin.
  cbn [question solution options image] in Hin.
  match goal with
  | Hx : (if truthy _ then store_image _ _ _ "q_" _ _ else _) _ = _ |- _ => rename Hx into Hq
  end.
  match goal with
  | Hx : process_options _ _ _ _ _ _ _ _ _ = _ |- _ => rename Hx into Ho
  end.
  match goal with
  | Hx : (if truthy _ then store_image _ _ _ "sol_" _ _ else _) _ = _ |- _ => rename Hx into Hs
  end.
  pose proof (quiet_extends _ _ _ _ _ (image_step_quiet _ _ _ _ _ _) Hq) as X01.
  pose proof (quiet_extends _ _ _ _ _ (process_options_quiet _ _ _ _ _ _ _ _) Ho) as X12.
  pose proof (quiet_extends _ _ _ _ _ (image_step_quiet _ _ _ _ _ _) Hs) as X23.
  assert (X02 : extends st s1).
  { destruct X01 as [x01 X01]. destruct X12 as [x12 Y12].
    exists (x01 ++ x12). rewrite Y12, X01, <- app_assoc. reflexivity. }
  apply in_app_or in Hin. destruct Hin as [Hin | Hin].
  - match type of Hq with
    | _ = (Ok ?rq, ?s0) =>
        destruct rq as [r0 |]; [| destruct Hin]; destruct Hin as [-> | []];
        apply (stored_since_extends store st st s0 _ ref (extends_refl st));
        [ exact (image_step_stored _ _ _ _ _ _ _ _ _ Hq) |]
    end.
    destruct X12 as [x12 Y12]. destruct X23 as [x23 Y23].
    exists (x12 ++ x23). rewrite Y23, Y12, <- app_assoc. reflexivity.
  - apply in_app_or in Hin. destruct Hin as [Hin | Hin].
    + destruct (process_options_stored _ _ _ _ _ _ _ _ _ _ _ _ Ho ref Hin) as [[] | Hst].
      exact (stored_since_extends store _ _ _ _ ref X01 Hst X23).
    + match type of Hs with
      | _ = (Ok ?rs, ?s2) =>
          destruct rs as [r0 |]; [| destruct Hin]; destruct Hin as [-> | []];
          apply (stored_since_extends store st _ s2 s2 ref X02);
          [ exact (image_step_stored _ _ _ _ _ _ _ _ _ Hs) | apply extends_refl ]
      end.
Qed.

Lemma record_images_were_stored_witness :
  let run :=
    process_question (Examples.world [] []) Examples.picture_item Examples.E1 Examples.S1
      Examples.C1 0 Examples.local_store initial_state in
  exists p,
    fst run = Ok p /\
    image (solution p) = Some "images/E1/S1/C1/sol_0000_sha25.png" /\
    stored_since Examples.local_store initial_state (snd run)
      "images/E1/S1/C1/sol_0000_sha25.png".
Proof.
  intro run.
  destruct run as [[p | err] st'] eqn:H; [| vm_compute in H; discriminate H].
  exists p. split; [reflexivity |].
  unfold run in H.
  assert (Hs : image (solution p) = Some "images/E1/S1/C1/sol_0000_sha25.png")
    by (vm_compute in H; inversion H; reflexivity).
  split; [exact Hs |].
  apply (record_images_were_stored _ _ _ _ _ _ _ _ _ _ H).
  unfold image_refs. rewrite Hs. apply in_or_app. right. apply in_or_app. right.
  left. reflexivity.
Defined.

(** *** make_request *)

(** X10. [make_request] never raises and makes exactly one request.  It
    returns [None] when the transport fails, when the status is 4xx or
    5xx, and when the body is not JSON; otherwise it returns the decoded
    body.  The counters are left alone. *)
Theorem make_request_never_raises env url st :
  exists data,
    make_request env url st =
      (Ok data, {| progress := progress st; trace := trace st ++ [EvApiGet url] |}) /\
    match api_get env (trace st) url with
    | None => data = JNull
    | Some response =>
        (400 <= api_status_code response < 600 -> data = JNull) /\
        (~ 400 <= api_status_code response < 600 ->
         data = match api_json response with
                | Some body => body
                | None => JNull
                end)
    end.
Proof.
  exists (api_data env (trace st) url). split; [apply make_request_returns |].
  unfold api_data. destruct (api_get env (trace st) url) as [response |]; [| reflexivity].
  destruct ((400 <=? api_status_code response) && (api_status_code response <? 600)) eqn:Hs.
  - split; [reflexivity |]. intro Hn. exfalso. apply Hn.
    apply andb_true_iff in Hs. destruct Hs as [H1 H2].
    apply Z.leb_le in H1. apply Z.ltb_lt in H2. lia.
  - split; [| reflexivity]. intros [H1 H2].
    apply Z.leb_le in H1. apply Z.ltb_lt in H2. rewrite H1, H2 in Hs. discriminate Hs.
Qed.

(** *** Chapters that are passed over *)

Lemma get_questions_state env e s c st r st1 :
  get_questions env e s c st = (r, st1) ->
  st1 = {| progress := progress st;
           trace := trace st ++ [EvApiGet (URL_chapter_questions env e s c)] |}.
Proof.
  unfold get_questions. unfold bind at 1. rewrite make_request_returns.
  destruct (truthy (api_data env (trace st) (URL_chapter_questions env e s c))); cbn [negb].
  - unfold bind, lift, ret.
    repeat match goal with
           | |- match ?m with _ => _ end = _ -> _ => destruct m
           end; intro H; inversion H; reflexivity.
  - intro H. inversion H. reflexivity.
Qed.

(** X11. [process_chapter] passes a chapter over, returning [None], in two
    cases.  When the subject or the chapter filter is set and does not
    match, nothing at all happens: no request is made.  When the item list
    it fetches is false (the request failed, or the answer holds no item),
    only that request is made.  Whenever it returns [None], no file was
    opened, no database statement was run and no counter moved: the call
    made at most the one request. *)
Theorem skipped_chapter_leaves_no_output cfg env exam subject chapter store db st :
  let e := exam_id_of exam in
  let s := subject_id_of subject in
  let c := chapter_id_of chapter in
  let url := URL_chapter_questions env e s c in
  (chapter_selected cfg subject chapter = false ->
     process_chapter cfg env exam subject chapter store db st = (Ok None, st)) /\
  (chapter_selected cfg subject chapter = true ->
   truthy (api_data env (trace st) url) = false ->
     process_chapter cfg env exam subject chapter store db st =
       (Ok None, {| progress := progress st; trace := trace st ++ [EvApiGet url] |})) /\
  (forall st',
     process_chapter cfg env exam subject chapter store db st = (Ok None, st') ->
     progress st' = progress st /\
     (trace st' = trace st \/ trace st' = trace st ++ [EvApiGet url])).
Proof.
  intros e s c url. unfold chapter_selected, process_chapter.
  fold e. fold s. fold c.
  destruct (str_set (SUBJECT_ID_FILTER cfg) &&
            negb (py_eq_str s (fmt_opt (SUBJECT_ID_FILTER cfg)))) eqn:Fs; cbn [negb andb].
  { split; [reflexivity |]. split; [discriminate |].
    intros st' H. inversion H. subst. split; [reflexivity | left; reflexivity]. }
  destruct (str_set (CHAPTER_ID_FILTER cfg) &&
            negb (py_eq_str c (fmt_opt (CHAPTER_ID_FILTER cfg)))) eqn:Fc; cbn [negb andb].
  { split; [reflexivity |]. split; [discriminate |].
    intros st' H. inversion H. subst. split; [reflexivity | left; reflexivity]. }
  split; [discriminate |].
  split.
  - intros _ Ht. unfold bind at 1. unfold get_questions at 1. unfold bind at 1.
    rewrite make_request_returns. fold url. rewrite Ht. reflexivity.
  - intros st'. unfold bind at 1.
    destruct (get_questions env e s c st) as [[raw | err] st1] eqn:Hget; [| discriminate].
    apply get_questions_state in Hget. fold url in Hget.
    destruct (truthy raw); cbn [negb].
    + intro H. exfalso. unfold bind at 1 in H.
      match type of H with
      | match ?m with _ => _ end = _ => destruct m as [[[qc rows] | err] st2]
      end; [| discriminate H].
      unfold bind in H.
      repeat match type of H with
             | match ?m with _ => _ end = _ => destruct m as [[? | ?] ?]; try discriminate H
             end.
    + intro H. inversion H. subst st'. rewrite Hget. cbn [progress trace].
      split; [reflexivity | right; reflexivity].
Qed.

Lemma skipped_chapter_leaves_no_output_witness :
  let cfg :=
    {| IMAGE_BACKEND := "local"; OUTPUT_COMPRESSION := "none"; DATABASE_URL := None;
       EXAM_ID_FILTER := None; SUBJECT_ID_FILTER := None; CHAPTER_ID_FILTER := Some "C2";
       MAX_CHAPTERS := 0; MAX_QUESTIONS := 0;
       S3_BUCKET := None; S3_PREFIX := None; S3_REGION := None;
       has_boto3 := false; has_psycopg := false |} in
  let env := Examples.world [Examples.good_item] [] in
  process_chapter cfg env Examples.exam1 Examples.subject1 Examples.chapter1
    Examples.local_store false initial_state = (Ok None, initial_state) /\
  fst (process_chapter (Examples.config "local" false 0 0) Examples.empty_world
         Examples.exam1 Examples.subject1 Examples.chapter1 Examples.local_store false
         initial_state) = Ok None.
Proof.
  intros cfg env. split.
  - apply (proj1 (skipped_chapter_leaves_no_output cfg env Examples.exam1 Examples.subject1
                    Examples.chapter1 Examples.local_store false initial_state)).
    reflexivity.
  - rewrite (proj1 (proj2 (skipped_chapter_leaves_no_output
                             (Examples.config "local" false 0 0) Examples.empty_world
                             Examples.exam1 Examples.subject1 Examples.chapter1
                             Examples.local_store false initial_state)));
      reflexivity.
Defined.

(** *** The lines and the rows of a chapter *)

Lemma flat_map_none {A B} (P : A -> bool) (f : A -> list B) (l : list A) :
  (forall a, P a = true -> f a = []) -> forallb P l = true -> flat_map f l = [].
Proof.
  intros Hf. induction l as [| a l IH]; simpl; [reflexivity |].
  intro H. apply andb_true_iff in H. destruct H as [Ha Hl].
  rewrite (Hf a Ha), (IH Hl). reflexivity.
Qed.

Lemma image_events_project {B} (f : Event -> list B) evs :
  (forall ev, is_image_ev ev = true -> f ev = []) ->
  forallb is_image_ev evs = true -> flat_map f evs = [].
Proof. apply flat_map_none. Qed.

Section Batches.

Variable cfg : Config.
Variable env : Env.
Variables (file : string) (e s c : json) (store : ImageStore).



(** The indices of the lines written go up strictly, from [idx] on. *)
Lemma loop_run_increasing db idx qs qc rows st evs qc' rows' st' :
  loop_run cfg env file e s c store db idx qs qc rows st evs qc' rows' st' ->
  StronglySorted lt (written_indices evs) /\
  Forall (fun j => (idx <= j)%nat) (written_indices evs).
Proof.
  induction 1 as [| | ? ? ? ? ? ? ? ? ? ? ? ? ? Hq Hp Hprog Htr Hev Hrun IH
                      | ? ? ? ? ? ? ? ? ? ? ? ? ? Hq Hp Hw Hprog Htr Hev Hrun IH
                      | ? ? ? ? ? ? ? ? ? ? ? ? ? Hq Hp Hw Hprog Htr Hev Hrun IH].
  - split; constructor.
  - split; constructor.
  - unfold written_indices in *. rewrite flat_map_app.
    rewrite (image_events_project _ evs1) by (try exact Hev; intros []; simpl; congruence).
    destruct IH as [IH1 IH2]. split; [exact IH1 |].
    eapply Forall_impl; [| exact IH2]. cbv beta. intros; lia.
  - unfold written_indices in *. rewrite flat_map_app.
    rewrite (image_events_project _ evs1) by (try exact Hev; intros []; simpl; congruence).
    destruct IH as [IH1 IH2]. split; [exact IH1 |].
    eapply Forall_impl; [| exact IH2]. cbv beta. intros; lia.
  - pose proof (process_question_index env _ _ _ _ _ _ _ _ _ Hp) as Hidx.
    unfold written_indices in *. rewrite flat_map_app.
    rewrite (image_events_project _ evs1) by (try exact Hev; intros []; simpl; congruence).
    cbn [flat_map app]. rewrite flat_map_app.
    rewrite (flat_map_none is_db_ev _ (batch_events db rows (row_of e s c idx p))).
    2: { intros []; simpl; congruence. }
    2: { unfold batch_events. destruct db; [destruct (500 <=? _)%nat |]; reflexivity. }
    cbn [app]. rewrite Hidx. destruct IH as [IH1 IH2]. split.
    + constructor; [exact IH1 |].
      eapply Forall_impl; [| exact IH2]. cbv beta. intros; lia.
    + constructor; [lia |].
      eapply Forall_impl; [| exact IH2]. cbv beta. intros; lia.
Qed.

End Batches.

Section ChapterEvents.

Variable cfg : Config.
Variable env : Env.
Variables (exam : Exam) (subject : Subject) (chapter : Chapter).
Variables (store : ImageStore) (db : bool).

Let e := exam_id_of exam.
Let s := subject_id_of subject.
Let c := chapter_id_of chapter.
Let file := jsonl_file cfg env e s c.

(** The three ways a call of [process_chapter] can go, with the events of
    each: no file is touched; the file is opened and closed at once
    because the payload is not a sequence; or the loop runs. *)
Lemma process_chapter_events st r st' evs :
  process_chapter cfg env exam subject chapter store db st = (r, st') ->
  trace st' = trace st ++ evs ->
  (forallb is_api_ev evs = true /\ progress st' = progress st /\
   (r = Ok None \/ exists err, r = Raise err)) \/
  (exists evs0 err,
      evs = evs0 ++ [EvJsonlOpen file; EvJsonlClose file] /\
      forallb is_api_ev evs0 = true /\ progress st' = progress st /\ r = Raise err) \/
  (exists evs0 qs body qc rows st1 stl,
      evs = evs0 ++ [EvJsonlOpen file] ++ body ++ [EvJsonlClose file]
              ++ flush_events db rows
              ++ upsert_events db (chapter_row exam subject chapter qc) /\
      forallb is_api_ev evs0 = true /\
      progress st1 = progress st /\
      loop_run cfg env file e s c store db 0 qs 0 []
        {| progress := progress st1; trace := trace st1 ++ [EvJsonlOpen file] |}
        body qc rows stl /\
      r = Ok (Some (chapter_summary cfg env exam subject chapter qc)) /\
      progress st' = bump_processed_chapters (progress stl) /\
      chapter_selected cfg subject chapter = true).
Proof.
  unfold process_chapter. fold e s c.
  destruct (str_set (SUBJECT_ID_FILTER cfg) &&
            negb (py_eq_str s (fmt_opt (SUBJECT_ID_FILTER cfg)))) eqn:Fs.
  { intros H Ht. inversion H. subst. left.
    rewrite <- (app_nil_r (trace st')) in Ht at 1. apply app_inv_head in Ht. subst evs.
    auto. }
  destruct (str_set (CHAPTER_ID_FILTER cfg) &&
            negb (py_eq_str c (fmt_opt (CHAPTER_ID_FILTER cfg)))) eqn:Fc.
  { intros H Ht. inversion H. subst. left.
    rewrite <- (app_nil_r (trace st')) in Ht at 1. apply app_inv_head in Ht. subst evs.
    auto. }
  unfold bind at 1.
  destruct (get_questions_quiet env e s c st) as [Hp [evs0 [Ht0 Hev0]]].
  destruct (get_questions env e s c st) as [[raw | err] st1] eqn:Hget; cbn [fst snd] in *.
  2: { intros H Ht. inversion H. subst. left.
       rewrite Ht0 in Ht. apply app_inv_head in Ht. subst evs. eauto. }
  destruct (truthy raw) eqn:Hraw; cbn [negb].
  2: { intros H Ht. inversion H. subst. left.
       rewrite Ht0 in Ht. apply app_inv_head in Ht. subst evs. eauto. }
  fold (jsonl_path env e s c).
  unfold bind at 1. unfold with_jsonl_writer, bind at 1, io at 1.
  fold (jsonl_file cfg env e s c). fold file.
  destruct (jsonl_open env (trace st1) file) as [f |] eqn:Hopen.
  { intros H Ht. inversion H. subst. left.
    rewrite Ht0 in Ht. apply app_inv_head in Ht. subst evs. eauto. }
  unfold bind at 1, emit at 1.
  unfold bind at 1, lift at 1.
  destruct (py_iter raw) as [qs | err] eqn:Hiter.
  2: { cbn [fst snd progress trace]. intros H Ht. inversion H. subst.
       right. left. exists evs0, err.
       cbn [trace progress] in *. rewrite Ht0, <- !app_assoc in Ht.
       apply app_inv_head in Ht. subst evs. auto. }
  destruct (questions_loop_run cfg env file e s c store db qs 0%nat 0 []
              {| progress := progress st1; trace := trace st1 ++ [EvJsonlOpen file] |})
    as [body [qc [rows [stl [Hloop Hrun]]]]].
  rewrite Hloop. cbn [fst snd].
  pose proof (loop_run_trace _ _ _ _ _ _ _ _ _ _ _ _ _ _ _ _ _ Hrun) as Htl.
  cbn [trace] in Htl.
  intros H Ht.
  assert (Hres : (r, st') =
        (Ok (Some (chapter_summary cfg env exam subject chapter qc)),
         {| progress := bump_processed_chapters (progress stl);
            trace := trace st1 ++ [EvJsonlOpen file] ++ body ++ [EvJsonlClose file]
                       ++ flush_events db rows
                       ++ upsert_events db (chapter_row exam subject chapter qc) |})).
  { rewrite <- H.
    unfold flush_events, upsert_events, chapter_row, chapter_summary, insert_questions,
      upsert_chapter, incr_processed_chapters, bump_processed_chapters.
    fold e s c.
    destruct rows as [| r0 rows0]; destruct db;
      unfold bind, emit, ret, get_state, set_progress; cbn [progress trace fst snd];
      rewrite Htl, <- ?app_assoc; cbn [app]; rewrite ?app_nil_r; reflexivity. }
  inversion Hres. subst r st'. clear Hres H.
  right. right. exists evs0, qs, body, qc, rows, st1, stl.
  cbn [trace progress] in *. rewrite Ht0, <- !app_assoc in Ht.
  apply app_inv_head in Ht. subst evs.
  repeat split; auto.
  unfold chapter_selected. fold e s c. rewrite Fs, Fc. reflexivity.
Qed.

End ChapterEvents.

Lemma flat_map_single {A B} (f : A -> list B) (a : A) : flat_map f [a] = f a.
Proof. simpl. apply app_nil_r. Qed.

Lemma api_events_project {B} (f : Event -> list B) evs :
  (forall ev, is_api_ev ev = true -> f ev = []) ->
  forallb is_api_ev evs = true -> flat_map f evs = [].
Proof. apply flat_map_none. Qed.

Lemma loop_events_project {B} (f : Event -> list B) evs :
  (forall ev, is_loop_ev ev = true -> f ev = []) ->
  forallb is_loop_ev evs = true -> flat_map f evs = [].
Proof. apply flat_map_none. Qed.

Lemma flush_events_project {B} (f : Event -> list B) db rows :
  flat_map f (flush_events db rows) =
    match rows with
    | [] => []
    | _ :: _ => if db then f (EvDbInsertQuestions rows) else []
    end.
Proof.
  unfold flush_events. destruct rows; [reflexivity |].
  destruct db; [apply flat_map_single | reflexivity].
Qed.

Lemma upsert_events_project {B} (f : Event -> list B) db row :
  flat_map f (upsert_events db row) = if db then f (EvDbUpsertChapter row) else [].
Proof. unfold upsert_events. destruct db; [apply flat_map_single | reflexivity]. Qed.

(** Projects a trace of the shape [process_chapter_events] gives. *)
Ltac project_chapter evs0 Hev0 body Hk :=
  rewrite ?flat_map_app, ?flush_events_project, ?upsert_events_project;
  rewrite (api_events_project _ evs0) by (try exact Hev0; intros []; simpl; congruence);
  rewrite (loop_events_project _ body) by (try exact Hk; intros []; simpl; congruence);
  cbn [flat_map app].

(** X12. When [process_chapter] returns a summary, its [total_questions]
    is the number of lines this call wrote; [progress.total_questions]
    went up by as much and [progress.processed_chapters] by one; with a
    database one chapter row was upserted, carrying the same count; and
    the chapter's output file was opened once and closed once. *)
Theorem chapter_summary_counts_lines cfg env exam subject chapter store db st cd st' evs :
  let e := exam_id_of exam in
  let s := subject_id_of subject in
  let c := chapter_id_of chapter in
  process_chapter cfg env exam subject chapter store db st = (Ok (Some cd), st') ->
  trace st' = trace st ++ evs ->
  cd = chapter_summary cfg env exam subject chapter (Z.of_nat (count is_line evs)) /\
  total_questions (progress st') =
    total_questions (progress st) + Z.of_nat (count is_line evs) /\
  processed_chapters (progress st') = processed_chapters (progress st) + 1 /\
  chapter_rows evs = (if db then [(c, Z.of_nat (count is_line evs))] else []) /\
  opened_files evs = [jsonl_file cfg env e s c] /\
  closed_files evs = [jsonl_file cfg env e s c].
Proof.
  intros e s c H Ht.
  destruct (process_chapter_events _ _ _ _ _ _ _ _ _ _ _ H Ht)
    as [(_ & _ & [Hr | [err Hr]])
       | [(evs0 & err & _ & _ & _ & Hr)
         | (evs0 & qs & body & qc & rows & st1 & stl & Hevs & Hev0 & Hp1 & Hrun & Hr & Hp & Hsel)]];
    try discriminate Hr.
  fold e s c in Hevs, Hrun.
  destruct (loop_run_progress _ _ _ _ _ _ _ _ _ _ _ _ _ _ _ _ _ Hrun)
    as (Hq & Hqc & _ & _ & _ & Hc).
  pose proof (loop_run_kinds _ _ _ _ _ _ _ _ _ _ _ _ _ _ _ _ _ Hrun) as Hk.
  cbn [progress trace] in Hq, Hc.
  assert (Hcount : count is_line evs = count is_line body).
  { subst evs. rewrite !count_app.
    rewrite (count_none is_line is_api_ev evs0) by (try exact Hev0; intros []; simpl; congruence).
    rewrite count_flush_events, count_upsert_events by reflexivity.
    rewrite !count_single. cbn [is_line]. lia. }
  rewrite Hcount. rewrite Z.add_0_l in Hqc. subst qc.
  inversion Hr. subst cd. clear Hr.
  rewrite Hp. cbn [bump_processed_chapters total_questions processed_chapters].
  rewrite Hq, Hc, Hp1.
  split; [reflexivity |]. split; [reflexivity |]. split; [reflexivity |].
  subst evs. unfold chapter_rows, opened_files, closed_files.
  split; [| split].
  - project_chapter evs0 Hev0 body Hk. destruct rows, db; reflexivity.
  - project_chapter evs0 Hev0 body Hk. destruct rows, db; reflexivity.
  - project_chapter evs0 Hev0 body Hk. destruct rows, db; reflexivity.
Qed.

Lemma chapter_summary_counts_lines_witness :
  let cfg := Examples.config "local" true 0 0 in
  let env := Examples.world [Examples.good_item; Examples.bad_item; Examples.good_item] [] in
  let run :=
    process_chapter cfg env Examples.exam1 Examples.subject1 Examples.chapter1
      Examples.local_store true initial_state in
  exists cd,
    fst run = Ok (Some cd) /\
    cd_total_questions cd = 2 /\
    chapter_rows (trace (snd run)) = [(Examples.C1, 2)] /\
    opened_files (trace (snd run)) = ["getmarks_data/json/E1_S1_C1.jsonl"].
Proof.
  intros cfg env run.
  destruct run as [r st'] eqn:H. unfold run in H.
  assert (Hv : r = Ok (Some (chapter_summary cfg env Examples.exam1 Examples.subject1
                               Examples.chapter1 2)) /\
               count is_line (trace st') = 2%nat)
    by (vm_compute in H; inversion H; split; reflexivity).
  destruct Hv as [-> Hc].
  destruct (chapter_summary_counts_lines cfg env _ _ _ _ _ _ _ _ (trace st') H eq_refl)
    as (_ & _ & _ & Hrows & Hopen & _).
  eexists. split; [reflexivity |]. split; [reflexivity |].
  cbn [snd]. rewrite Hrows, Hopen, Hc. split; reflexivity.
Defined.



(** X14. However a call of [process_chapter] ends, the [index] values of
    the lines it wrote go up strictly: the records of a chapter are in
    item order and no item is written twice. *)
Theorem written_indices_increase cfg env exam subject chapter store db st r st' evs :
  process_chapter cfg env exam subject chapter store db st = (r, st') ->
  trace st' = trace st ++ evs ->
  StronglySorted lt (written_indices evs) /\ NoDup (written_indices evs).
Proof.
  intros H Ht.
  assert (Hs : StronglySorted lt (written_indices evs)).
  { destruct (process_chapter_events _ _ _ _ _ _ _ _ _ _ _ H Ht)
      as [(Hev & _ & _)
         | [(evs0 & err & Hevs & Hev0 & _ & _)
           | (evs0 & qs & body & qc & rows & st1 & stl & Hevs & Hev0 & Hp1 & Hrun & Hr & Hp & Hsel)]].
    - unfold written_indices.
      rewrite (api_events_project _ evs) by (try exact Hev; intros []; simpl; congruence).
      constructor.
    - subst evs. unfold written_indices. rewrite flat_map_app.
      rewrite (api_events_project _ evs0) by (try exact Hev0; intros []; simpl; congruence).
      constructor.
    - destruct (loop_run_increasing _ _ _ _ _ _ _ _ _ _ _ _ _ _ _ _ _ Hrun) as [Hsorted _].
      subst evs. unfold written_indices in *.
      rewrite !flat_map_app, !flush_events_project, !upsert_events_project.
      rewrite (api_events_project _ evs0) by (try exact Hev0; intros []; simpl; congruence).
      cbn [flat_map app].
      destruct rows, db; cbn [app]; rewrite ?app_nil_r; exact Hsorted. }
  split; [exact Hs |].
  induction Hs as [| j l Hl IH Hj]; constructor; [| exact IH].
  intro Hin. rewrite Forall_forall in Hj. specialize (Hj j Hin). lia.
Qed.

Lemma written_indices_increase_witness :
  let cfg := Examples.config "local" false 0 0 in
  let env := Examples.world [Examples.good_item; Examples.bad_item; Examples.good_item] [] in
  let run :=
    process_chapter cfg env Examples.exam1 Examples.subject1 Examples.chapter1
      Examples.local_store false initial_state in
  written_indices (trace (snd run)) = [0%nat; 2%nat] /\
  NoDup (written_indices (trace (snd run))).
Proof.
  intros cfg env run.
  destruct run as [r st'] eqn:H. unfold run in H.
  destruct (written_indices_increase cfg env _ _ _ _ _ _ _ _ (trace st') H eq_refl)
    as [_ Hnd].
  cbn [snd]. split; [| exact Hnd].
  vm_compute in H. inversion H. reflexivity.
Defined.

(** X15. The events of a call of [process_chapter], however it ends, come
    in this order: requests to the catalog; then, unless the chapter is
    passed over, the opening of the chapter's output file, what the loop
    does (image events, lines, full batches) and the closing of the file;
    then database statements only.  So every line and every image event
    lies between the opening and the closing of the file, and the file is
    closed however the loop ends. *)
Theorem output_file_brackets_the_lines cfg env exam subject chapter store db st r st' evs :
  let file :=
    jsonl_file cfg env (exam_id_of exam) (subject_id_of subject) (chapter_id_of chapter) in
  process_chapter cfg env exam subject chapter store db st = (r, st') ->
  trace st' = trace st ++ evs ->
  exists pre mid post,
    evs = pre ++ mid ++ post /\
    forallb is_api_ev pre = true /\
    forallb is_db_ev post = true /\
    ((mid = [] /\ post = [] /\ forall cd, r <> Ok (Some cd)) \/
     (exists body,
         mid = EvJsonlOpen file :: body ++ [EvJsonlClose file] /\
         forallb is_loop_ev body = true)).
Proof.
  intros file H Ht.
  destruct (process_chapter_events _ _ _ _ _ _ _ _ _ _ _ H Ht)
    as [(Hev & _ & Hr)
       | [(evs0 & err & Hevs & Hev0 & _ & Hr)
         | (evs0 & qs & body & qc & rows & st1 & stl & Hevs & Hev0 & Hp1 & Hrun & Hr & Hp & Hsel)]].
  - exists evs, [], []. rewrite !app_nil_r.
    split; [reflexivity |]. split; [exact Hev |]. split; [reflexivity |].
    left. split; [reflexivity |]. split; [reflexivity |].
    intros cd Hcd. destruct Hr as [Hr | [err Hr]]; rewrite Hr in Hcd; discriminate Hcd.
  - exists evs0, [EvJsonlOpen file; EvJsonlClose file], []. rewrite app_nil_r.
    split; [exact Hevs |]. split; [exact Hev0 |]. split; [reflexivity |].
    right. exists []. split; reflexivity.
  - pose proof (loop_run_kinds _ _ _ _ _ _ _ _ _ _ _ _ _ _ _ _ _ Hrun) as Hk.
    exists evs0, (EvJsonlOpen file :: body ++ [EvJsonlClose file]),
           (flush_events db rows ++ upsert_events db (chapter_row exam subject chapter qc)).
    split; [rewrite Hevs; cbn [app]; rewrite <- !app_assoc; reflexivity |].
    split; [exact Hev0 |].
    split; [unfold flush_events, upsert_events; destruct rows, db; reflexivity |].
    right. exists body. split; [reflexivity | exact Hk].
Qed.

Lemma output_file_brackets_the_lines_witness :
  let cfg := Examples.config "local" false 0 0 in
  let env := Examples.world [Examples.good_item] [] in
  let run :=
    process_chapter cfg env Examples.exam1 Examples.subject1 Examples.chapter1
      Examples.local_store false initial_state in
  exists pre mid post,
    trace (snd run) = pre ++ mid ++ post /\
    forallb is_api_ev pre = true /\
    forallb is_db_ev post = true /\
    opened_files (trace (snd run)) = ["getmarks_data/json/E1_S1_C1.jsonl"].
Proof.
  intros cfg env run.
  destruct run as [r st'] eqn:H. unfold run in H.
  destruct (output_file_brackets_the_lines cfg env _ _ _ _ _ _ _ _ (trace st') H eq_refl)
    as (pre & mid & post & Hevs & Hpre & Hpost & _).
  exists pre, mid, post. cbn [snd].
  split; [exact Hevs |]. split; [exact Hpre |]. split; [exact Hpost |].
  vm_compute in H. inversion H. reflexivity.
Defined.

(** *** The walk of main and the master index *)

Section Walk.

Variable cfg : Config.
Variable env : Env.
Variable exams : list Exam.
Variable n : Z.

Lemma sum_questions_app all cd :
  sum_questions (all ++ [cd]) = sum_questions all + cd_total_questions cd.
Proof.
  unfold sum_questions. induction all as [| x all IH]; simpl; [lia |]. rewrite IH. lia.
Qed.

Lemma walk_frame st st' evs all :
  walk_inv cfg env exams n st all ->
  total_exams (progress st') = total_exams (progress st) ->
  total_questions (progress st') = total_questions (progress st) ->
  trace st' = trace st ++ evs ->
  opened_files evs = [] ->
  walk_inv cfg env exams n st' all.
Proof.
  intros (H1 & H2 & H3 & H4) He Hq Ht Ho. unfold walk_inv.
  rewrite He, Hq, Ht. unfold opened_files in *. rewrite flat_map_app, Ho, app_nil_r. auto.
Qed.

Lemma walk_quiet {A} (m : M A) st all :
  quiet is_api_ev m ->
  walk_inv cfg env exams n st all ->
  walk_inv cfg env exams n (snd (m st)) all.
Proof.
  intros Hq Hinv. destruct (Hq st) as [Hp [evs [Ht Hev]]].
  apply walk_frame with (st := st) (evs := evs); auto; try (rewrite Hp; reflexivity).
  apply (api_events_project _ evs); [intros []; simpl; congruence | exact Hev].
Qed.

Lemma process_chapter_extends exam subject chapter store db st r st' :
  process_chapter cfg env exam subject chapter store db st = (r, st') ->
  exists evs, trace st' = trace st ++ evs.
Proof.
  intro H. apply process_chapter_run in H.
  destruct H as [r st' evs Hr Hp Ht Hev
                | raw st1 qs evs qc rows stl e s c Hsel Hget Hraw Hiter Hloop].
  - eauto.
  - destruct (get_questions_quiet env e s c st) as [_ [evs0 [Ht0 _]]].
    rewrite Hget in Ht0. cbn [snd] in Ht0. cbn [trace]. rewrite Ht0.
    eexists. rewrite <- app_assoc. reflexivity.
Qed.

Lemma process_chapter_walk exam subject chapter store db st all o st' :
  In exam exams ->
  walk_inv cfg env exams n st all ->
  process_chapter cfg env exam subject chapter store db st = (Ok o, st') ->
  walk_inv cfg env exams n st'
    match o with
    | Some cd => all ++ [cd]
    | None => all
    end.
Proof.
  intros Hin Hinv H.
  destruct (process_chapter_extends _ _ _ _ _ _ _ _ H) as [evs Ht].
  destruct (process_chapter_events _ _ _ _ _ _ _ _ _ _ _ H Ht)
    as [(Hev & Hp & Hr)
       | [(evs0 & err & _ & _ & _ & Hr)
         | (evs0 & qs & body & qc & rows & st1 & stl & Hevs & Hev0 & Hp1 & Hrun & Hr & Hp & Hsel)]].
  - destruct Hr as [Hr | [err Hr]]; [| discriminate Hr]. inversion Hr. subst o.
    apply walk_frame with (st := st) (evs := evs); auto; try (rewrite Hp; reflexivity).
    apply (api_events_project _ evs); [intros []; simpl; congruence | exact Hev].
  - discriminate Hr.
  - inversion Hr. subst o. clear Hr.
    destruct (loop_run_progress _ _ _ _ _ _ _ _ _ _ _ _ _ _ _ _ _ Hrun)
      as (Hq & Hqc & He & _ & _ & _).
    pose proof (loop_run_kinds _ _ _ _ _ _ _ _ _ _ _ _ _ _ _ _ _ Hrun) as Hk.
    cbn [progress trace] in Hq, He.
    destruct Hinv as (H1 & H2 & H3 & H4). unfold walk_inv.
    rewrite Hp. cbn [bump_processed_chapters total_exams total_questions].
    rewrite He, Hq, Hp1, Ht, Hevs.
    split; [exact H1 |]. split; [| split].
    + rewrite sum_questions_app. cbn [chapter_summary cd_total_questions]. lia.
    + unfold opened_files in *. rewrite flat_map_app, H3, map_app.
      f_equal. project_chapter evs0 Hev0 body Hk.
      destruct rows, db; reflexivity.
    + apply Forall_app. split; [exact H4 |]. constructor; [| constructor]. split.
      * unfold chapter_selected in Hsel. unfold listed.
        cbn [chapter_summary cd_subject_id cd_chapter_id].
        apply andb_true_iff in Hsel. destruct Hsel as [Hs Hc].
        destruct (str_set (SUBJECT_ID_FILTER cfg)), (str_set (CHAPTER_ID_FILTER cfg));
          cbn [negb andb orb] in *;
          repeat match goal with
                 | Hx : negb (negb _) = true |- _ => rewrite negb_involutive in Hx
                 end;
          rewrite ?Hs, ?Hc; reflexivity.
      * exists exam. repeat split. exact Hin.
Qed.

Lemma chapters_loop_walk exam subject store db chs :
  In exam exams ->
  forall all st all' st',
    walk_inv cfg env exams n st all ->
    chapters_loop cfg env exam subject store db chs all st = (Ok all', st') ->
    walk_inv cfg env exams n st' all'.
Proof.
  intro Hin.
  induction chs as [| chapter rest IH]; intros all st all' st' Hinv H; simpl in H.
  - inversion H. subst. exact Hinv.
  - unfold bind at 1, get_state at 1 in H.
    destruct (chapter_quota_reached cfg st).
    + inversion H. subst. exact Hinv.
    + unfold bind at 1 in H.
      destruct (process_chapter cfg env exam subject chapter store db st)
        as [[o | err] st1] eqn:Hpc; [| discriminate H].
      apply IH in H; [exact H |].
      exact (process_chapter_walk _ _ _ _ _ _ _ _ _ Hin Hinv Hpc).
Qed.

Lemma subjects_loop_walk exam store db subs :
  In exam exams ->
  forall all st all' st',
    walk_inv cfg env exams n st all ->
    subjects_loop cfg env exam store db subs all st = (Ok all', st') ->
    walk_inv cfg env exams n st' all'.
Proof.
  intro Hin.
  induction subs as [| subject rest IH]; intros all st all' st' Hinv H; simpl in H.
  - inversion H. subst. exact Hinv.
  - unfold bind at 1 in H.
    pose proof (walk_quiet _ st all
                  (get_chapters_quiet env (exam_id_of exam) (subject_id_of subject)) Hinv)
      as Hinv1.
    destruct (get_chapters env (exam_id_of exam) (subject_id_of subject) st)
      as [[chapters0 | err] st1]; cbn [fst snd] in *; [| discriminate H].
    unfold bind at 1 in H.
    unfold add_total_chapters at 1, bind at 1, get_state at 1, set_progress at 1 in H.
    unfold bind at 1 in H.
    match type of H with
    | context [chapters_loop cfg env exam subject store db ?chs all ?st2] =>
        destruct (chapters_loop cfg env exam subject store db chs all st2)
          as [[all1 | err] st3] eqn:Hcl; [| discriminate H];
        apply (chapters_loop_walk _ _ _ _ _ Hin) in Hcl;
        [| apply walk_frame with (st := st1) (evs := []);
           [exact Hinv1 | reflexivity | reflexivity
           | cbn [trace]; symmetry; apply app_nil_r | reflexivity] ]
    end.
    unfold bind at 1, get_state at 1 in H.
    destruct (chapter_quota_reached cfg st3).
    + inversion H. subst. exact Hcl.
    + apply IH in H; [exact H | exact Hcl].
Qed.

Lemma exams_loop_walk store db exs :
  incl exs exams ->
  forall all st all' st',
    walk_inv cfg env exams n st all ->
    exams_loop cfg env store db exs all st = (Ok all', st') ->
    walk_inv cfg env exams n st' all'.
Proof.
  induction exs as [| exam rest IH]; intros Hincl all st all' st' Hinv H; simpl in H.
  - inversion H. subst. exact Hinv.
  - assert (Hin : In exam exams) by (apply Hincl; left; reflexivity).
    assert (Hrest : incl rest exams) by (intros x Hx; apply Hincl; right; exact Hx).
    unfold bind at 1 in H.
    pose proof (walk_quiet _ st all (get_subjects_quiet env (exam_id_of exam)) Hinv) as Hinv1.
    destruct (get_subjects env (exam_id_of exam) st)
      as [[subjects0 | err] st1]; cbn [fst snd] in *; [| discriminate H].
    unfold bind at 1 in H.
    unfold add_total_subjects at 1, bind at 1, get_state at 1, set_progress at 1 in H.
    unfold bind at 1 in H.
    match type of H with
    | context [subjects_loop cfg env exam store db ?subs all ?st2] =>
        destruct (subjects_loop cfg env exam store db subs all st2)
          as [[all1 | err] st3] eqn:Hsl; [| discriminate H];
        apply (subjects_loop_walk _ _ _ _ Hin) in Hsl;
        [| apply walk_frame with (st := st1) (evs := []);
           [exact Hinv1 | reflexivity | reflexivity
           | cbn [trace]; symmetry; apply app_nil_r | reflexivity] ]
    end.
    unfold bind at 1, get_state at 1 in H.
    destruct (chapter_quota_reached cfg st3).
    + inversion H. subst. exact Hsl.
    + apply (IH Hrest) in H; [exact H | exact Hsl].
Qed.

End Walk.

(** [progress.total_chapters] counts the chapters found, so it bounds the
    number of summaries. *)
Section ChapterCount.

Variable cfg : Config.
Variable env : Env.

Lemma process_chapter_count exam subject chapter store db st o st' :
  process_chapter cfg env exam subject chapter store db st = (Ok o, st') ->
  total_chapters (progress st') = total_chapters (progress st).
Proof.
  intro H.
  destruct (process_chapter_extends _ _ _ _ _ _ _ _ _ _ H) as [evs Ht].
  destruct (process_chapter_events _ _ _ _ _ _ _ _ _ _ _ H Ht)
    as [(_ & Hp & _)
       | [(evs0 & err & _ & _ & _ & Hr)
         | (evs0 & qs & body & qc & rows & st1 & stl & _ & _ & Hp1 & Hrun & _ & Hp & _)]].
  - rewrite Hp. reflexivity.
  - discriminate Hr.
  - destruct (loop_run_progress _ _ _ _ _ _ _ _ _ _ _ _ _ _ _ _ _ Hrun)
      as (_ & _ & _ & _ & Hc & _).
    cbn [progress] in Hc. rewrite Hp. cbn [bump_processed_chapters total_chapters].
    rewrite Hc, Hp1. reflexivity.
Qed.

Lemma chapters_loop_count exam subject store db chs :
  forall all st all' st',
    Z.of_nat (List.length all) + Z.of_nat (List.length chs) <= total_chapters (progress st) ->
    chapters_loop cfg env exam subject store db chs all st = (Ok all', st') ->
    Z.of_nat (List.length all') <= total_chapters (progress st').
Proof.
  induction chs as [| chapter rest IH]; intros all st all' st' Hle H; simpl in H.
  - inversion H. subst. simpl in Hle. lia.
  - unfold bind at 1, get_state at 1 in H. cbn [List.length] in Hle.
    destruct (chapter_quota_reached cfg st).
    + inversion H. subst. lia.
    + unfold bind at 1 in H.
      destruct (process_chapter cfg env exam subject chapter store db st)
        as [[o | err] st1] eqn:Hpc; [| discriminate H].
      apply process_chapter_count in Hpc.
      apply IH in H; [exact H |]. rewrite Hpc.
      destruct o; [rewrite length_app; cbn [List.length] |]; lia.
Qed.

Lemma subjects_loop_count exam store db subs :
  forall all st all' st',
    Z.of_nat (List.length all) <= total_chapters (progress st) ->
    subjects_loop cfg env exam store db subs all st = (Ok all', st') ->
    Z.of_nat (List.length all') <= total_chapters (progress st').
Proof.
  induction subs as [| subject rest IH]; intros all st all' st' Hle H; simpl in H.
  - inversion H. subst. exact Hle.
  - unfold bind at 1 in H.
    destruct (get_chapters_quiet env (exam_id_of exam) (subject_id_of subject) st) as [Hp1 _].
    destruct (get_chapters env (exam_id_of exam) (subject_id_of subject) st)
      as [[chapters0 | err] st1]; cbn [fst snd] in *; [| discriminate H].
    unfold bind at 1 in H.
    unfold add_total_chapters at 1, bind at 1, get_state at 1, set_progress at 1 in H.
    unfold bind at 1 in H.
    match type of H with
    | context [chapters_loop cfg env exam subject store db ?chs all ?st2] =>
        destruct (chapters_loop cfg env exam subject store db chs all st2)
          as [[all1 | err] st3] eqn:Hcl; [| discriminate H];
        apply chapters_loop_count in Hcl;
        [| cbn [progress total_chapters]; rewrite Hp1; lia ]
    end.
    unfold bind at 1, get_state at 1 in H.
    destruct (chapter_quota_reached cfg st3).
    + inversion H. subst. exact Hcl.
    + apply IH in H; [exact H | exact Hcl].
Qed.

Lemma exams_loop_count store db exs :
  forall all st all' st',
    Z.of_nat (List.length all) <= total_chapters (progress st) ->
    exams_loop cfg env store db exs all st = (Ok all', st') ->
    Z.of_nat (List.length all') <= total_chapters (progress st').
Proof.
  induction exs as [| exam rest IH]; intros all st all' st' Hle H; simpl in H.
  - inversion H. subst. exact Hle.
  - unfold bind at 1 in H.
    destruct (get_subjects_quiet env (exam_id_of exam) st) as [Hp1 _].
    destruct (get_subjects env (exam_id_of exam) st)
      as [[subjects0 | err] st1]; cbn [fst snd] in *; [| discriminate H].
    unfold bind at 1 in H.
    unfold add_total_subjects at 1, bind at 1, get_state at 1, set_progress at 1 in H.
    unfold bind at 1 in H.
    match type of H with
    | context [subjects_loop cfg env exam store db ?subs all ?st2] =>
        destruct (subjects_loop cfg env exam store db subs all st2)
          as [[all1 | err] st3] eqn:Hsl; [| discriminate H];
        apply subjects_loop_count in Hsl;
        [| cbn [progress total_chapters]; rewrite Hp1; exact Hle ]
    end.
    unfold bind at 1, get_state at 1 in H.
    destruct (chapter_quota_reached cfg st3).
    + inversion H. subst. exact Hsl.
    + apply IH in H; [exact H | exact Hsl].
Qed.

End ChapterCount.

Lemma main_index cfg env r st path mi :
  main cfg env initial_state = (r, st) ->
  In (EvIndex path mi) (trace st) ->
  exists exams st1 stl all,
    get_jee_exams cfg env initial_state = (Ok exams, st1) /\
    walk_inv cfg env exams (Z.of_nat (List.length exams)) stl all /\
    opened_files (trace st) = opened_files (trace stl) /\
    path = index_path cfg /\
    mi = master_index_of (progress stl) all /\
    Z.of_nat (List.length all) <= total_chapters (progress stl).
Proof.
  intros H Hin.
  pose proof (main_runs cfg env initial_state r st (initial_state_inv cfg) eq_refl H) as Hrun.
  destruct r as [[] | err].
  2: { inversion Hrun as [| err' st2 Hinv |]. subst.
       destruct Hinv as (_ & _ & Hi & _).
       pose proof (count_zero_not_in _ _ _ Hi Hin) as Hf. discriminate Hf. }
  clear Hrun.
  unfold main in H. apply bind_Ok in H. destruct H as (exams & s1 & Hex & H).
  destruct (get_jee_exams_spec _ _ _ _ _ Hex) as (_ & Ht1 & Htot).
  destruct (get_jee_exams_effect cfg env _ _ _ Hex) as (_ & _ & Hq1 & Hc1 & evs1 & Ht1' & Hev1).
  cbn [trace initial_state progress total_questions processed_chapters app] in Ht1, Hq1, Hc1.
  destruct exams as [| exam exams'].
  { apply ret_Ok in H. destruct H as [_ ->]. rewrite Ht1 in Hin.
    destruct Hin as [Hin | []]. discriminate Hin. }
  specialize (Htot ltac:(discriminate)).
  apply bind_Ok in H. destruct H as (store & s2 & Hst & H).
  apply lift_Ok in Hst. destruct Hst as [Hst ->].
  apply bind_Ok in H. destruct H as (db & s3 & Hdb & H).
  apply bind_Ok in H. destruct H as (all & stl & Hloop & H).
  assert (Hs3 : progress s3 = progress s1 /\
                (trace s3 = trace s1 \/ trace s3 = trace s1 ++ [EvDbConnect])).
  { unfold DatabaseWriter_init in Hdb.
    destruct (str_set (DATABASE_URL cfg)).
    - destruct (has_psycopg cfg); cbn [negb] in Hdb; [| discriminate Hdb].
      unfold bind, emit, ret in Hdb. inversion Hdb. subst. cbn [progress trace]. auto.
    - apply ret_Ok in Hdb. destruct Hdb as [_ ->]. auto. }
  destruct Hs3 as [Hp3 Ht3].
  assert (Hinv1 : run_inv cfg s1).
  { apply run_inv_neutral with (st := initial_state) (evs := evs1);
      auto using initial_state_inv.
    rewrite forallb_forall in *. auto using api_neutral. }
  assert (Hinv3 : run_inv cfg s3).
  { destruct Ht3 as [Ht3 | Ht3].
    - apply run_inv_neutral with (st := s1) (evs := []); auto; try (rewrite Hp3; reflexivity).
      rewrite Ht3. symmetry. apply app_nil_r.
    - apply run_inv_neutral with (st := s1) (evs := [EvDbConnect]); auto;
        rewrite Hp3; reflexivity. }
  assert (Hwalk3 : walk_inv cfg env (exam :: exams') (Z.of_nat (List.length (exam :: exams')))
                     s3 []).
  { unfold walk_inv. rewrite Hp3, Htot, Hq1.
    split; [reflexivity |]. split; [reflexivity |]. split; [| constructor].
    destruct Ht3 as [-> | ->]; rewrite Ht1; reflexivity. }
  pose proof (exams_loop_inv cfg env _ _ _ _ _ _ _
                (conj Hinv3 (eq_trans (eq_sym Hc1) (f_equal processed_chapters (eq_sym Hp3)))
                 : loop_inv cfg s3 []) Hloop) as Hpost.
  cbn [loop_post] in Hpost. destruct Hpost as [(_ & _ & Hi & _) _].
  pose proof (exams_loop_walk cfg env _ _ _ _ _ (incl_refl _) _ _ _ _ Hwalk3 Hloop) as Hwalk.
  assert (Hcount : Z.of_nat (List.length all) <= total_chapters (progress stl)).
  { apply (exams_loop_count cfg env _ _ _ _ _ _ _) with (2 := Hloop).
    rewrite Hp3. destruct (get_jee_exams_effect cfg env _ _ _ Hex) as (_ & Hch & _).
    rewrite Hch. cbn. lia. }
  assert (Hres : st =
            {| progress := progress stl;
               trace := trace stl ++
                        EvIndex (index_path cfg) (master_index_of (progress stl) all)
                          :: closing_events db |}).
  { unfold bind, get_state, emit, ret, closing_events, master_index_of in *.
    destruct db; inversion H; cbn [progress trace]; rewrite <- ?app_assoc; reflexivity. }
  subst st. cbn [trace] in *.
  exists (exam :: exams'), s1, stl, all.
  split; [exact Hex |]. split; [exact Hwalk |].
  split.
  { unfold opened_files. rewrite flat_map_app. cbn [flat_map].
    unfold closing_events. destruct db; cbn [flat_map app]; rewrite app_nil_r; reflexivity. }
  apply in_app_or in Hin. destruct Hin as [Hin | [Hin | Hin]].
  - pose proof (count_zero_not_in _ _ _ Hi Hin) as Hf. discriminate Hf.
  - inversion Hin. split; [reflexivity |]. split; [reflexivity | exact Hcount].
  - unfold closing_events in Hin. destruct db; [destruct Hin as [Hin | []]; discriminate Hin |].
    destruct Hin.
Qed.

(** X16. The master index adds up.  Whenever a run of [main] (from a
    fresh [progress]) writes the master index, it is written to the index
    path; its [total_exams] is the number of exams [get_jee_exams]
    returned; its [total_questions] is the sum of the [total_questions] of
    the chapters it lists; it lists no more chapters than its
    [total_chapters] counts; the chapters it lists are, in order, those
    whose output file was opened in the run; and each of them passes the
    subject and the chapter filter and belongs to one of the exams
    returned. *)
Theorem master_index_adds_up cfg env r st path mi :
  main cfg env initial_state = (r, st) ->
  In (EvIndex path mi) (trace st) ->
  path = index_path cfg /\
  mi_total_exams mi =
    Z.of_nat (List.length (fst_exams (get_jee_exams cfg env initial_state))) /\
  mi_total_questions mi = sum_questions (chapters mi) /\
  Z.of_nat (List.length (chapters mi)) <= mi_total_chapters mi /\
  map (summary_file cfg env) (chapters mi) = opened_files (trace st) /\
  Forall (fun cd => listed cfg cd = true /\
                    of_exam (fst_exams (get_jee_exams cfg env initial_state)) cd)
    (chapters mi).
Proof.
  intros H Hin.
  destruct (main_index _ _ _ _ _ _ H Hin)
    as (exams & st1 & stl & all & Hex & (H1 & H2 & H3 & H4) & Ho & Hpath & Hmi & Hcount).
  subst mi. unfold fst_exams. rewrite Hex. cbn [fst master_index_of mi_total_exams
    mi_total_questions mi_total_chapters chapters].
  rewrite Ho, H3.
  split; [exact Hpath |]. split; [exact H1 |]. split; [exact H2 |].
  split; [exact Hcount |]. split; [reflexivity | exact H4].
Qed.

Lemma master_index_adds_up_witness :
  let cfg := Examples.config "local" true 0 0 in
  let env := Examples.world [Examples.good_item; Examples.good_item] [Examples.good_item] in
  let run := main cfg env initial_state in
  exists path mi,
    In (EvIndex path mi) (trace (snd run)) /\
    path = "getmarks_data/master_index.json" /\
    mi_total_questions mi = sum_questions (chapters mi) /\
    map (summary_file cfg env) (chapters mi) = opened_files (trace (snd run)).
Proof.
  intros cfg env run.
  assert (Hin : exists path mi, In (EvIndex path mi) (trace (snd run))).
  { vm_compute. eexists _, _. repeat (first [left; reflexivity | right]). }
  destruct Hin as (path & mi & Hin).
  destruct (master_index_adds_up cfg env _ _ path mi (surjective_pairing run) Hin)
    as (Hpath & _ & Hsum & _ & Hfiles & _).
  exists path, mi. split; [exact Hin |]. split; [rewrite Hpath; reflexivity |].
  split; [exact Hsum | exact Hfiles].
Defined.

(** *** What can stop a run *)

Lemma exn_only_not_exit {A} (r : Exc A) : exn_only r -> is_SystemExit r = false.
Proof. destruct r as [a | []]; simpl; intro H; try reflexivity. discriminate H. Qed.

Lemma find_component_exn l : exn_only (find_component l).
Proof.
  induction l as [| i l IH]; simpl; [exact I |].
  destruct i; simpl; try reflexivity.
  match goal with |- exn_only (if ?b then _ else _) => destruct b end; [exact I | exact IH].
Qed.

Lemma collect_exams_exn cfg env l : forall acc, exn_only (collect_exams cfg env l acc).
Proof.
  induction l as [| ex l IH]; intro acc; simpl; [exact I |].
  destruct ex; simpl; try reflexivity.
  repeat match goal with
         | |- exn_only (if ?b then _ else _) => destruct b
         | |- exn_only (match ?x with _ => _ end) => destruct x
         end; try apply IH; reflexivity.
Qed.

Lemma collect_subjects_exn l : forall acc, exn_only (collect_subjects l acc).
Proof.
  induction l as [| x l IH]; intro acc; simpl; [exact I |].
  destruct x; simpl; try reflexivity. apply IH.
Qed.

Lemma collect_chapters_exn l : forall acc, exn_only (collect_chapters l acc).
Proof.
  induction l as [| x l IH]; intro acc; simpl; [exact I |].
  destruct x; simpl; try reflexivity.
  match goal with
  | |- exn_only (match py_get ?v ?k ?d with _ => _ end) =>
      pose proof (py_get_exn v k d) as Hx; destruct (py_get v k d)
  end; [apply IH | exact Hx].
Qed.

Section Safety.

Variable cfg : Config.
Variable env : Env.

Lemma make_request_safe url : safe (make_request env url).
Proof. intro st. rewrite make_request_returns. exact I. Qed.

#[local] Hint Resolve make_request_safe : fx.
#[local] Hint Resolve find_component_exn collect_exams_exn collect_subjects_exn
  collect_chapters_exn : exn.

Lemma get_jee_exams_safe : safe (get_jee_exams cfg env).
Proof.
  unfold get_jee_exams, set_total_exams.
  safe_auto.
Qed.

Lemma get_subjects_safe e : safe (get_subjects env e).
Proof.
  unfold get_subjects. safe_auto.
Qed.

Lemma get_chapters_safe e s : safe (get_chapters env e s).
Proof.
  unfold get_chapters. safe_auto.
Qed.

Lemma get_questions_safe e s c : safe (get_questions env e s c).
Proof. unfold get_questions. safe_auto. Qed.

Lemma questions_loop_safe file e s c store db idx qs qc rows :
  safe (questions_loop cfg env file e s c store db idx qs qc rows).
Proof.
  intro st.
  destruct (questions_loop_run cfg env file e s c store db qs idx qc rows st)
    as (evs & qc' & rows' & st' & H & _).
  rewrite H. exact I.
Qed.

Lemma with_jsonl_writer_safe {A} path (body : string -> M A) :
  (forall file, safe (body file)) -> safe (with_jsonl_writer cfg env path body).
Proof.
  intros Hb st. unfold with_jsonl_writer, bind, emit, io.
  destruct (jsonl_open env (trace st) _); [apply io_error_exn |].
  match goal with
  | |- exn_only (fst (let (_, _) := body ?f ?s in _)) =>
      specialize (Hb f s); destruct (body f s)
  end.
  exact Hb.
Qed.

Lemma process_chapter_safe exam subject chapter store db :
  safe (process_chapter cfg env exam subject chapter store db).
Proof.
  unfold process_chapter, insert_questions, upsert_chapter, incr_processed_chapters.
  repeat match goal with
         | |- safe (if ?b then _ else _) => destruct b; [apply safe_ret |]
         end.
  apply safe_bind; [apply get_questions_safe | intro raw].
  destruct (negb (truthy raw)); [apply safe_ret |].
  apply safe_bind.
  - apply with_jsonl_writer_safe. intro file.
    apply safe_bind; [apply safe_lift; apply py_iter_exn | intro qs].
    apply questions_loop_safe.
  - intros [qc rows]. safe_auto.
Qed.

#[local] Hint Resolve get_subjects_safe get_chapters_safe process_chapter_safe : fx.

Lemma chapters_loop_safe exam subject store db chs :
  forall all, safe (chapters_loop cfg env exam subject store db chs all).
Proof.
  induction chs as [| chapter rest IH]; intro all; simpl.
  - apply safe_ret.
  - safe_auto.
Qed.

Lemma subjects_loop_safe exam store db subs :
  forall all, safe (subjects_loop cfg env exam store db subs all).
Proof.
  induction subs as [| subject rest IH]; intro all; simpl.
  - apply safe_ret.
  - unfold add_total_chapters.
    safe_auto; auto using chapters_loop_safe.
Qed.

Lemma exams_loop_safe store db exs :
  forall all, safe (exams_loop cfg env store db exs all).
Proof.
  induction exs as [| exam rest IH]; intro all; simpl.
  - apply safe_ret.
  - unfold add_total_subjects.
    safe_auto; auto using subjects_loop_safe.
Qed.

End Safety.

(** X17. The only thing that makes [main] stop with [SystemExit] is the
    configuration: the "s3" backend without [boto3] or without a bucket,
    or a database without [psycopg].  That is found out only once the exam
    list has been fetched and is not empty (with no exam [main] returns
    normally whatever the configuration), and before anything is written:
    the run has then made the one request for the dashboard and nothing
    else. *)
Theorem only_misconfiguration_is_fatal cfg env r st :
  main cfg env initial_state = (r, st) ->
  (is_SystemExit r = true <->
   fst_exams (get_jee_exams cfg env initial_state) <> [] /\ misconfigured cfg = true) /\
  (is_SystemExit r = true -> trace st = [EvApiGet URL_dashboard]).
Proof.
  unfold main. unfold bind at 1. unfold fst_exams.
  pose proof (get_jee_exams_safe cfg env initial_state) as Hsafe.
  destruct (get_jee_exams cfg env initial_state) as [[exams | err] s1] eqn:Hex;
    cbn [fst] in *.
  2: { intro H. inversion H. subst.
       assert (Hn : @is_SystemExit unit (Raise err) = false)
         by (destruct err; try reflexivity; discriminate Hsafe).
       rewrite Hn.
       split; [split; [discriminate | intros [Hne _]; contradiction Hne; reflexivity]
              | discriminate]. }
  destruct (get_jee_exams_spec _ _ _ _ _ Hex) as (_ & Ht1 & _).
  cbn [trace initial_state app] in Ht1.
  destruct exams as [| exam exams'].
  { intro H. inversion H. subst. cbn [is_SystemExit].
    split; [split; [discriminate | intros [Hne _]; contradiction Hne; reflexivity]
           | discriminate]. }
  unfold misconfigured, ImageStore_init, DatabaseWriter_init.
  unfold bind at 1, lift at 1.
  destruct (String.eqb (IMAGE_BACKEND cfg) "s3"); cbn [andb orb].
  - destruct (has_boto3 cfg); cbn [negb andb orb].
    2: { intro H. inversion H. subst. cbn [is_SystemExit].
         split; [split; [intros _; split; [discriminate | reflexivity] | reflexivity]
                | intros _; exact Ht1]. }
    destruct (str_set (S3_BUCKET cfg)); cbn [negb andb orb].
    2: { intro H. inversion H. subst. cbn [is_SystemExit].
         split; [split; [intros _; split; [discriminate | reflexivity] | reflexivity]
                | intros _; exact Ht1]. }
    unfold bind at 1.
    destruct (str_set (DATABASE_URL cfg)); cbn [andb].
    + destruct (has_psycopg cfg); cbn [negb].
      2: { intro H. inversion H. subst. cbn [is_SystemExit].
           split; [split; [intros _; split; [discriminate | reflexivity] | reflexivity]
                  | intros _; exact Ht1]. }
      unfold bind at 1, emit at 1, ret at 1.
      intro H.
      match type of H with
      | ?m ?s = _ =>
          assert (Hs : safe m)
            by (apply safe_bind; [apply exams_loop_safe | intro all_data; safe_auto]);
          specialize (Hs s); rewrite H in Hs; cbn [fst] in Hs
      end.
      rewrite (exn_only_not_exit r Hs).
      split; [split; [discriminate | intros [_ Hm]; discriminate Hm] | discriminate].
    + unfold ret at 1.
      intro H.
      match type of H with
      | ?m ?s = _ =>
          assert (Hs : safe m)
            by (apply safe_bind; [apply exams_loop_safe | intro all_data; safe_auto]);
          specialize (Hs s); rewrite H in Hs; cbn [fst] in Hs
      end.
      rewrite (exn_only_not_exit r Hs).
      split; [split; [discriminate | intros [_ Hm]; discriminate Hm] | discriminate].
  - unfold bind at 1.
    destruct (str_set (DATABASE_URL cfg)); cbn [andb].
    + destruct (has_psycopg cfg); cbn [negb].
      2: { intro H. inversion H. subst. cbn [is_SystemExit].
           split; [split; [intros _; split; [discriminate | reflexivity] | reflexivity]
                  | intros _; exact Ht1]. }
      unfold bind at 1, emit at 1, ret at 1.
      intro H.
      match type of H with
      | ?m ?s = _ =>
          assert (Hs : safe m)
            by (apply safe_bind; [apply exams_loop_safe | intro all_data; safe_auto]);
          specialize (Hs s); rewrite H in Hs; cbn [fst] in Hs
      end.
      rewrite (exn_only_not_exit r Hs).
      split; [split; [discriminate | intros [_ Hm]; discriminate Hm] | discriminate].
    + unfold ret at 1.
      intro H.
      match type of H with
      | ?m ?s = _ =>
          assert (Hs : safe m)
            by (apply safe_bind; [apply exams_loop_safe | intro all_data; safe_auto]);
          specialize (Hs s); rewrite H in Hs; cbn [fst] in Hs
      end.
      rewrite (exn_only_not_exit r Hs).
      split; [split; [discriminate | intros [_ Hm]; discriminate Hm] | discriminate].
Qed.

Lemma only_misconfiguration_is_fatal_witness :
  let cfg :=
    {| IMAGE_BACKEND := "s3"; OUTPUT_COMPRESSION := "none"; DATABASE_URL := None;
       EXAM_ID_FILTER := None; SUBJECT_ID_FILTER := None; CHAPTER_ID_FILTER := None;
       MAX_CHAPTERS := 0; MAX_QUESTIONS := 0;
       S3_BUCKET := None; S3_PREFIX := None; S3_REGION := None;
       has_boto3 := true; has_psycopg := true |} in
  let run := main cfg (Examples.world [Examples.good_item] []) initial_state in
  is_SystemExit (fst run) = true /\ trace (snd run) = [EvApiGet URL_dashboard].
Proof.
  intros cfg run.
  destruct (only_misconfiguration_is_fatal cfg _ _ _ (surjective_pairing run))
    as [[_ Hif] Htr].
  assert (Hx : is_SystemExit (fst run) = true).
  { apply Hif. split; [vm_compute; discriminate | reflexivity]. }
  split; [exact Hx | exact (Htr Hx)].
Defined.

(** *** The file a summary names *)

Lemma no_slash_append (a b : string) : no_slash a -> no_slash b -> no_slash (a ++ b).
Proof.
  intros Ha Hb k.
  destruct (Nat.lt_ge_cases k (String.length a)) as [Hk | Hk].
  - rewrite <- append_correct1 by exact Hk. apply Ha.
  - replace k with ((k - String.length a) + String.length a)%nat by lia.
    rewrite <- append_correct2. apply Hb.
Qed.

Lemma no_slash_tail c s : no_slash (String c s) -> no_slash s.
Proof. intros H k. exact (H (S k)). Qed.

Lemma str_from_append (a b : string) : str_from (Z.of_nat (String.length a)) (a ++ b) = b.
Proof.
  unfold str_from. rewrite Nat2Z.id, string_length_append.
  replace (String.length a + String.length b - String.length a)%nat
    with (String.length b) by lia.
  induction a as [| c a IH]; simpl; [apply substring_all | exact IH].
Qed.

(** The last separator of [dir/name] is the one of the join. *)
Lemma rfind_join (dir name : string) :
  no_slash name -> rfind "/" (dir ++ "/" ++ name) = Z.of_nat (String.length dir).
Proof.
  intro Hname.
  assert (Hsep : String.get (String.length dir) (dir ++ "/" ++ name) = Some "/"%char).
  { pose proof (append_correct2 dir ("/" ++ name) 0) as H0.
    cbn [Nat.add] in H0. rewrite <- H0. reflexivity. }
  destruct (rfind_spec "/" (dir ++ "/" ++ name)) as [[_ Hno] | (k & Hr & Hk & Hlast)].
  - exfalso. exact (Hno _ Hsep).
  - rewrite Hr. f_equal.
    destruct (Nat.lt_trichotomy k (String.length dir)) as [Hlt | [Heq | Hgt]].
    + exfalso. exact (Hlast _ Hlt Hsep).
    + exact Heq.
    + exfalso.
      replace k with (S (k - String.length dir - 1) + String.length dir)%nat in Hk by lia.
      rewrite <- append_correct2 in Hk. simpl in Hk. exact (Hname _ Hk).
Qed.

(** [(dir / name).name] is [name] when [name] is a single component. *)
Lemma path_name_join (dir name : string) :
  no_slash name -> path_name (dir ++ "/" ++ name) = name.
Proof.
  intro Hname. unfold path_name. rewrite (rfind_join dir name Hname).
  replace (Z.of_nat (String.length dir) + 1) with (Z.of_nat (String.length (dir ++ "/")))
    by (rewrite string_length_append; simpl; lia).
  rewrite <- (string_append_assoc dir "/" name). apply str_from_append.
Qed.

Lemma split_on_no_slash (name : string) : no_slash name -> split_on "/" name = [name].
Proof.
  induction name as [| c name IH]; intro Hname; simpl; [reflexivity |].
  destruct (Ascii.eqb c "/") eqn:Ec.
  - exfalso. apply Ascii.eqb_eq in Ec. subst c. exact (Hname 0%nat eq_refl).
  - rewrite (IH (no_slash_tail _ _ Hname)). reflexivity.
Qed.

Lemma path_root_no_slash (name : string) : no_slash name -> path_root name = "".
Proof.
  intro Hname. unfold path_root, startswith.
  destruct name as [| c name]; [reflexivity |].
  cbn [String.prefix].
  destruct (Ascii.ascii_dec "/" c) as [<- | _]; [| reflexivity].
  exfalso. exact (Hname 0%nat eq_refl).
Qed.

(** A single component of two characters or more is appended as it
    stands. *)
Lemma path_div_component (name : string) :
  (2 <= String.length name)%nat -> no_slash name ->
  path_div JSON_DIR name = (JSON_DIR ++ "/" ++ name)%string.
Proof.
  intros Hlen Hname. unfold path_div, path_parts.
  rewrite (path_root_no_slash name Hname), (split_on_no_slash name Hname).
  cbn [String.eqb filter].
  assert (Hkeep : negb (String.eqb name "") && negb (String.eqb name ".") = true).
  { destruct name as [| c [| c' name]]; simpl in Hlen; try lia.
    cbn [String.eqb]. destruct (Ascii.eqb c "."); reflexivity. }
  rewrite Hkeep. reflexivity.
Qed.

Lemma gz_suffix_no_slash cfg : no_slash (gz_suffix cfg).
Proof.
  unfold gz_suffix. destruct (String.eqb (OUTPUT_COMPRESSION cfg) "gzip"); intro k.
  - do 3 (destruct k as [| k]; [discriminate |]). destruct k; discriminate.
  - destruct k; discriminate.
Qed.

(** X18. The [file] of a summary leads back to the chapter's output file:
    when the three identifiers, as they are printed, hold no [/], joining
    the directory of the JSON files with the summary's [file] gives the
    path of the file [process_chapter] opens for the chapter, compressed
    or not. *)
Theorem summary_names_the_output_file cfg env exam subject chapter qc :
  let e := exam_id_of exam in
  let s := subject_id_of subject in
  let c := chapter_id_of chapter in
  no_slash (fmt env e) -> no_slash (fmt env s) -> no_slash (fmt env c) ->
  path_div JSON_DIR (cd_file (chapter_summary cfg env exam subject chapter qc))
    = jsonl_file cfg env e s c.
Proof.
  intros e s c He Hs Hc.
  unfold jsonl_file, jsonl_path. cbn [chapter_summary cd_file]. unfold jsonl_path.
  fold e s c.
  set (name := (fmt env e ++ "_" ++ fmt env s ++ "_" ++ fmt env c ++ ".jsonl")%string).
  assert (Hconst : forall t, In t ["_"; ".jsonl"] -> no_slash t).
  { intros t [<- | [<- | []]] k.
    - destruct k as [| k]; [discriminate |]. destruct k; discriminate.
    - do 6 (destruct k as [| k]; [discriminate |]). destruct k; discriminate. }
  assert (Hname : no_slash name).
  { unfold name. repeat apply no_slash_append; auto; apply Hconst; simpl; auto. }
  assert (Hlen : (2 <= String.length name)%nat).
  { unfold name. rewrite !string_length_append. simpl. lia. }
  rewrite (path_div_component name Hlen Hname).
  rewrite (path_name_join JSON_DIR name Hname).
  rewrite path_div_component.
  - rewrite <- !string_append_assoc. reflexivity.
  - rewrite string_length_append. lia.
  - apply no_slash_append; [exact Hname | apply gz_suffix_no_slash].
Qed.

Lemma summary_names_the_output_file_witness :
  let cfg := Examples.config "local" false 0 0 in
  let env := Examples.world [] [] in
  path_div JSON_DIR
    (cd_file (chapter_summary cfg env Examples.exam1 Examples.subject1 Examples.chapter1 0))
    = "getmarks_data/json/E1_S1_C1.jsonl".
Proof.
  intros cfg env.
  assert (Hid : forall t, In t ["E1"; "S1"; "C1"] -> no_slash t).
  { intros t [<- | [<- | [<- | []]]] k;
      do 2 (destruct k as [| k]; [discriminate |]); destruct k; discriminate. }
  rewrite (summary_names_the_output_file cfg env Examples.exam1 Examples.subject1
             Examples.chapter1 0);
    [reflexivity | | |]; apply Hid; simpl; auto.
Defined.

(** *** Once the item quota is reached *)



(** *** What normalising an item can do *)

(** X20. Normalising an item is contained: [process_question] leaves the
    counters alone; the only events it produces are image events (calls
    of [download], GETs, files written, objects uploaded), so it writes no
    line, asks the catalog nothing and runs no database statement; and
    whatever it raises is an [Exception], never [SystemExit], so the
    handler of the item loop catches it. *)
Theorem normalising_is_contained env q e s c idx store st :
  progress (snd (process_question env q e s c idx store st)) = progress st /\
  (exists evs,
      trace (snd (process_question env q e s c idx store st)) = trace st ++ evs /\
      forallb is_image_ev evs = true /\
      count is_line evs = 0%nat /\
      count is_api_ev evs = 0%nat /\
      count is_db_ev evs = 0%nat) /\
  is_SystemExit (fst (process_question env q e s c idx store st)) = false.
Proof.
  destruct (process_question_quiet env q e s c idx store st) as [Hp [evs [Ht Hev]]].
  split; [exact Hp |]. split.
  - exists evs. split; [exact Ht |]. split; [exact Hev |].
    split; [| split]; apply (count_none _ is_image_ev);
      try exact Hev; intros []; simpl; congruence.
  - apply exn_only_not_exit. apply process_question_safe.
Qed.
